(** * Paws & Claws clinic backend: store, counters and request handlers

    A shallow embedding of [db.js] (schema, prepared statements, counter,
    invoice transaction) and of the request handlers of [server.js], with the
    properties of the clinic specification stated over them.

    Conventions of the embedding.
    - A JSON request body is a [value]; property reads, truthiness, [||],
      [??], [?.trim()] and [parseFloat] follow ECMAScript.
    - JS numbers are IEEE binary64 values ([PrimFloat.float]).  Counter values
      (SQLite INTEGER) are [Z]; they are read back exactly as JS numbers up to
      2^53.
    - A nullable TEXT cell is an [option string]; a REAL cell is a float in
      which NaN stands for SQL NULL (SQLite stores a bound NaN as NULL, so the
      two never coexist).
    - A handler is a state transformer over the store [DB] that may throw;
      the [try { ... } catch (e) { err(res, e.message, 500) }] wrapper of
      every route is [handle].
    - better-sqlite3 refuses to run a statement when the number of bound
      values differs from the number of placeholders (RangeError) and when a
      value is not a number, string or null (TypeError).  Several call sites
      of [server.js] pass one value to [patientQueries.getById], which has
      two placeholders; the embedding keeps that as it is written. *)

From Stdlib Require Import ZArith List String Ascii Bool Lia PrimFloat.
From Stdlib Require Import DecimalString SpecFloat FloatOps FloatAxioms.
From Stdlib Require Decimal DecimalPos Finite.
Import ListNotations.

#[local] Set Warnings "-register-all".

Local Open Scope string_scope.
Local Open Scope list_scope.

(* ================================================================== *)
(** ** Strings *)

(** White space removed by [String.prototype.trim] (strings are ASCII here). *)
Definition is_space (c : ascii) : bool :=
  let n := nat_of_ascii c in
  (n =? 32)%nat || ((9 <=? n)%nat && (n <=? 13)%nat).

Fixpoint trimStart (s : string) : string :=
  match s with
  | EmptyString => EmptyString
  | String c s' => if is_space c then trimStart s' else s
  end.

Fixpoint trimEnd (s : string) : string :=
  match s with
  | EmptyString => EmptyString
  | String c s' =>
      let t := trimEnd s' in
      if is_space c && (t =? "") then EmptyString else String c t
  end.

Definition trim (s : string) : string := trimEnd (trimStart s).

Fixpoint replicate (n : nat) (c : ascii) : string :=
  match n with
  | O => EmptyString
  | S n' => String c (replicate n' c)
  end.

(** [s.padStart(n, c)] for a one-character filler. *)
Definition padStart (n : nat) (c : ascii) (s : string) : string :=
  (replicate (n - String.length s) c ++ s)%string.

(** [s.slice(k)] for [0 <= k]. *)
Definition slice_from (k : nat) (s : string) : string :=
  substring k (String.length s - k) s.

(** [String(n)] for an integral JS number. *)
Definition String_of_Z (z : Z) : string := NilZero.string_of_int (Z.to_int z).

(* ================================================================== *)
(** ** JS values *)

(** What [express.json()] hands to a handler: a parsed JSON text, plus
    [undefined] for what is absent.  An object is the list of its
    properties, each key once. *)
Inductive value : Type :=
| VUndefined
| VNull
| VBool (b : bool)
| VNum (f : float)
| VStr (s : string)
| VArr (elems : list value)
| VObj (fields : list (string * value)).

Definition number_truthy (f : float) : bool := negb (is_nan f || is_zero f).

Definition truthy (v : value) : bool :=
  match v with
  | VUndefined | VNull => false
  | VBool b => b
  | VNum f => number_truthy f
  | VStr s => negb (s =? "")
  | VArr _ | VObj _ => true
  end.

Definition nullish (v : value) : bool :=
  match v with
  | VUndefined | VNull => true
  | _ => false
  end.

(** [a || b] and [a ?? b]. *)
Definition js_or (a b : value) : value := if truthy a then a else b.
Definition js_coalesce (a b : value) : value := if nullish a then b else a.

(** [x || d] on numbers. *)
Definition num_or (x d : float) : float := if number_truthy x then x else d.

(** [v === 'lit']. *)
Definition is_str (v : value) (lit : string) : bool :=
  match v with
  | VStr s => s =? lit
  | _ => false
  end.

Fixpoint assoc (k : string) (fields : list (string * value)) : value :=
  match fields with
  | [] => VUndefined
  | (k', v) :: rest => if k' =? k then v else assoc k rest
  end.

(** The value of [items?.length] is only tested for truthiness. *)
Definition has_length (v : value) : bool :=
  match v with
  | VStr s => negb (s =? "")
  | VArr l => negb (Nat.eqb (List.length l) 0)
  | VObj fields => truthy (assoc "length" fields)
  | _ => false
  end.

(** [Math.max(a, b)]. *)
Definition Math_max (a b : float) : float :=
  if is_nan a || is_nan b then nan
  else if ltb a b then b
  else if ltb b a then a
  else if is_zero a && get_sign a then b
  else a.

(** What the runtime supplies and the repository does not define: the
    prefix parser of [parseFloat] on strings, and SQLite's rendering of a
    number stored in a TEXT column. *)
Class Builtins : Type := {
  parseFloat_string : string -> float;
  number_to_text : float -> string
}.

(** [parseFloat(v)] parses [String(v)]: a number prints and parses back to
    itself ([-0] prints as ["0"]), an array prints as its elements joined by
    commas, so only its first element is read; [null], [undefined], booleans
    and objects print as text that is no number. *)
Fixpoint parseFloat `{Builtins} (v : value) : float :=
  match v with
  | VNum f => if is_zero f then 0%float else f
  | VStr s => parseFloat_string s
  | VArr l => match l with
              | x :: _ => parseFloat x
              | [] => nan
              end
  | _ => nan
  end.

(* ================================================================== *)
(** ** Outcomes and the handler monad *)

Inductive exn : Type :=
| TypeError (msg : string)
| RangeError (msg : string)
| SqliteError (msg : string).

Inductive outcome (A : Type) : Type :=
| Ret (a : A)
| Throw (e : exn).
Arguments Ret {A} a.
Arguments Throw {A} e.

Definition M (S A : Type) : Type := S -> outcome A * S.

Definition ret {S A} (a : A) : M S A := fun s => (Ret a, s).
Definition throw {S A} (e : exn) : M S A := fun s => (Throw e, s).
Definition bind {S A B} (m : M S A) (k : A -> M S B) : M S B :=
  fun s => match m s with
           | (Ret a, s') => k a s'
           | (Throw e, s') => (Throw e, s')
           end.
Definition lift {S A} (o : outcome A) : M S A := fun s => (o, s).
Definition gets {S A} (f : S -> A) : M S A := fun s => (Ret (f s), s).
Definition modify {S} (f : S -> S) : M S unit := fun s => (Ret tt, f s).

Declare Scope monad_scope.
Delimit Scope monad_scope with monad.
Notation "x <- m ;; k" := (bind m (fun x => k))
  (at level 61, m at next level, right associativity) : monad_scope.
Notation "m ;;; k" := (bind m (fun _ => k))
  (at level 61, right associativity) : monad_scope.
Local Open Scope monad_scope.

(** Property read [v.k] for the keys the handlers read (request fields; never
    [length], which strings and arrays also have): an object yields its
    entry, any other value has no such property. *)
Definition get_field (v : value) (k : string) : value :=
  match v with
  | VObj fields => assoc k fields
  | _ => VUndefined
  end.

(** The same read where the base may be [null] or [undefined], which throws. *)
Definition prop (v : value) (k : string) : outcome value :=
  match v with
  | VUndefined | VNull => Throw (TypeError "Cannot read properties of undefined")
  | _ => Ret (get_field v k)
  end.

(** [v?.trim()]. *)
Definition opt_trim (v : value) : outcome value :=
  match v with
  | VUndefined | VNull => Ret VUndefined
  | VStr s => Ret (VStr (trim s))
  | _ => Throw (TypeError "trim is not a function")
  end.

(* ================================================================== *)
(** ** The store ([db.js], CREATE TABLE) *)

(** A nullable TEXT cell, and a REAL cell (NaN is NULL). *)
Definition text : Type := option string.
Definition real : Type := float.

Record patient : Type := mkPatient {
  p_id : string;            (* TEXT PRIMARY KEY *)
  p_name : string;          (* TEXT NOT NULL *)
  p_type : text;
  p_breed : text;
  p_colour : text;
  p_age : text;
  p_gender : text;
  p_weight : real;
  p_owner_name : string;    (* TEXT NOT NULL *)
  p_phone : text;
  p_email : text;
  p_address : text;
  p_created_at : string
}.

Record checkin : Type := mkCheckin {
  c_id : string;            (* TEXT PRIMARY KEY *)
  c_patient_id : text;      (* REFERENCES patients(id) ON DELETE CASCADE *)
  c_patient_name : text;
  c_owner_name : text;
  c_doctor : string;        (* TEXT NOT NULL *)
  c_date : string;          (* TEXT NOT NULL *)
  c_complaint : text;
  c_subjective : text;
  c_objective : text;
  c_assessment : text;
  c_plan : text;
  c_procedures : text;
  c_medications : text;
  c_followup : text;
  c_status : text;
  c_created_at : string
}.

Record invoice : Type := mkInvoice {
  i_ref : string;           (* TEXT PRIMARY KEY *)
  i_patient_id : text;      (* REFERENCES patients(id) ON DELETE SET NULL *)
  i_patient_name : string;  (* TEXT NOT NULL *)
  i_patient_type : text;
  i_owner_name : string;    (* TEXT NOT NULL *)
  i_phone : text;
  i_date : string;          (* TEXT NOT NULL *)
  i_subtotal : real;
  i_discount : real;
  i_total : real;
  i_paid_amount : real;
  i_balance : real;
  i_method : text;
  i_status : text;
  i_notes : text;
  i_created_at : string
}.

Record invoice_item : Type := mkItem {
  it_id : Z;                (* INTEGER PRIMARY KEY AUTOINCREMENT *)
  it_invoice_ref : text;    (* REFERENCES invoices(ref) ON DELETE CASCADE *)
  it_name : string;         (* TEXT NOT NULL *)
  it_quantity : real;
  it_unit_price : real;
  it_discount : real;
  it_total : real
}.

(** Tables hold their rows in rowid order. *)
Record DB : Type := mkDB {
  patients : list patient;
  checkins : list checkin;
  invoices : list invoice;
  invoice_items : list invoice_item;
  items_seq : Z;                       (* largest item id ever issued *)
  counters : list (string * Z)
}.

Definition set_patients (l : list patient) (db : DB) : DB :=
  mkDB l (checkins db) (invoices db) (invoice_items db) (items_seq db) (counters db).
Definition set_checkins (l : list checkin) (db : DB) : DB :=
  mkDB (patients db) l (invoices db) (invoice_items db) (items_seq db) (counters db).
Definition set_invoices (l : list invoice) (db : DB) : DB :=
  mkDB (patients db) (checkins db) l (invoice_items db) (items_seq db) (counters db).
Definition set_items (l : list invoice_item) (n : Z) (db : DB) : DB :=
  mkDB (patients db) (checkins db) (invoices db) l n (counters db).
Definition set_counters (l : list (string * Z)) (db : DB) : DB :=
  mkDB (patients db) (checkins db) (invoices db) (invoice_items db) (items_seq db) l.

Definition Q (A : Type) : Type := M DB A.

(** [initCounter]: INSERT OR IGNORE INTO counters. *)
Definition initCounter (key : string) (v : Z) (db : DB) : DB :=
  if existsb (fun kv => fst kv =? key) (counters db) then db
  else set_counters (counters db ++ [(key, v)]) db.

(** The store of a first run: empty tables, counters seeded. *)
Definition init_db : DB :=
  initCounter "patient" 10000
    (initCounter "invoice" 1 (mkDB [] [] [] [] 0 [])).

(* ------------------------------------------------------------------ *)
(** *** Binding values to statements *)

Inductive sqlval : Type :=
| SqlNull
| SqlReal (f : float)
| SqlText (s : string).

Definition cant_bind : exn :=
  TypeError "SQLite3 can only bind numbers, strings, bigints, buffers, and null".

Definition bind_value (v : value) : outcome sqlval :=
  match v with
  | VNull => Ret SqlNull
  | VNum f => Ret (if is_nan f then SqlNull else SqlReal f)
  | VStr s => Ret (SqlText s)
  | _ => Throw cant_bind
  end.

(** A value as a column of TEXT affinity holds or compares it. *)
Definition as_text `{Builtins} (x : sqlval) : text :=
  match x with
  | SqlNull => None
  | SqlReal f => Some (number_to_text f)
  | SqlText s => Some s
  end.

Definition bind_text `{Builtins} (v : value) : outcome text :=
  match bind_value v with
  | Ret x => Ret (as_text x)
  | Throw e => Throw e
  end.

Definition not_null (column : string) (t : text) : outcome string :=
  match t with
  | Some s => Ret s
  | None => Throw (SqliteError ("NOT NULL constraint failed: " ++ column))
  end.

Definition bind_text_nn `{Builtins} (column : string) (v : value) : outcome string :=
  match bind_text v with
  | Ret t => not_null column t
  | Throw e => Throw e
  end.

Fixpoint bind_values (vs : list value) : outcome (list sqlval) :=
  match vs with
  | [] => Ret []
  | v :: rest =>
      match bind_value v with
      | Throw e => Throw e
      | Ret x => match bind_values rest with
                 | Throw e => Throw e
                 | Ret xs => Ret (x :: xs)
                 end
      end
  end.

(** One argument of [stmt.get(...)] / [stmt.run(...)]: an array spreads into
    anonymous parameters, a plain object carries named parameters (these
    statements have none), anything else is one anonymous parameter. *)
Definition bind_arg (v : value) : outcome (list sqlval) :=
  match v with
  | VArr l => bind_values l
  | VObj _ => Ret []
  | _ => match bind_value v with
         | Ret x => Ret [x]
         | Throw e => Throw e
         end
  end.

Fixpoint bind_arg_list (args : list value) : outcome (list sqlval) :=
  match args with
  | [] => Ret []
  | a :: rest =>
      match bind_arg a with
      | Throw e => Throw e
      | Ret xs => match bind_arg_list rest with
                  | Throw e => Throw e
                  | Ret ys => Ret (xs ++ ys)
                  end
      end
  end.

(** The values bound to a statement with [n] placeholders.  An unbindable
    value and a wrong count both throw; which is reported first is immaterial
    to the handlers, which answer 500 to either. *)
Definition bind_args (n : nat) (args : list value) : outcome (list sqlval) :=
  match bind_arg_list args with
  | Throw e => Throw e
  | Ret xs =>
      if (List.length xs <? n)%nat
      then Throw (RangeError "Too few parameter values were provided")
      else if (n <? List.length xs)%nat
      then Throw (RangeError "Too many parameter values were provided")
      else Ret xs
  end.

(** [column = ?] on a TEXT column. *)
Definition text_eq `{Builtins} (cell : string) (x : sqlval) : bool :=
  match as_text x with
  | Some s => cell =? s
  | None => false
  end.

Definition cell_is (cell : text) (s : string) : bool :=
  match cell with
  | Some t => t =? s
  | None => false
  end.

Definition cell_eq `{Builtins} (cell : text) (x : sqlval) : bool :=
  match cell with
  | Some t => text_eq t x
  | None => false
  end.

(* ------------------------------------------------------------------ *)
(** *** Row updates the statements perform *)

(** SET name=..., type=..., ..., address=... *)
Definition patient_set (name : string) (type breed colour age gender : text)
    (weight : real) (owner_name : string) (phone email address : text)
    (p : patient) : patient :=
  mkPatient (p_id p) name type breed colour age gender weight owner_name phone
            email address (p_created_at p).

(** SET status = ? *)
Definition checkin_set_status (st : text) (c : checkin) : checkin :=
  mkCheckin (c_id c) (c_patient_id c) (c_patient_name c) (c_owner_name c) (c_doctor c)
            (c_date c) (c_complaint c) (c_subjective c) (c_objective c) (c_assessment c)
            (c_plan c) (c_procedures c) (c_medications c) (c_followup c) st
            (c_created_at c).

(** SET status=..., paid_amount=..., balance=... *)
Definition invoice_set_status (st : text) (paid_amount balance : real)
    (i : invoice) : invoice :=
  mkInvoice (i_ref i) (i_patient_id i) (i_patient_name i) (i_patient_type i)
            (i_owner_name i) (i_phone i) (i_date i) (i_subtotal i) (i_discount i)
            (i_total i) paid_amount balance (i_method i) st (i_notes i)
            (i_created_at i).

(** ON DELETE SET NULL *)
Definition invoice_clear_patient (i : invoice) : invoice :=
  mkInvoice (i_ref i) None (i_patient_name i) (i_patient_type i) (i_owner_name i)
            (i_phone i) (i_date i) (i_subtotal i) (i_discount i) (i_total i)
            (i_paid_amount i) (i_balance i) (i_method i) (i_status i) (i_notes i)
            (i_created_at i).

(* ================================================================== *)
(** ** Counter helper ([db.js], nextCounter) *)

Fixpoint counter_value (key : string) (rows : list (string * Z)) : option Z :=
  match rows with
  | [] => None
  | (k, v) :: rest => if k =? key then Some v else counter_value key rest
  end.

(** UPDATE counters SET value = value + 1 WHERE key = ? *)
Definition counter_incr (key : string) (rows : list (string * Z)) : list (string * Z) :=
  map (fun kv => if fst kv =? key then (fst kv, (snd kv + 1)%Z) else kv) rows.

Definition nextCounter (key : string) : Q Z :=
  row <- gets (fun db => counter_value key (counters db)) ;;
  match row with
  | None => throw (TypeError "Cannot read properties of undefined (reading 'value')")
  | Some val =>
      modify (fun db => set_counters (counter_incr key (counters db)) db) ;;;
      ret val
  end.

(* ================================================================== *)
(** ** Prepared statements ([db.js]) *)

Definition unique_failed (what : string) : exn :=
  SqliteError ("UNIQUE constraint failed: " ++ what).
Definition fk_failed : exn := SqliteError "FOREIGN KEY constraint failed".

(** A child row may reference [patients(id)] only if that row exists. *)
Definition patient_ref_ok (fk : text) (db : DB) : bool :=
  match fk with
  | None => true
  | Some s => existsb (fun p => p_id p =? s) (patients db)
  end.

Module patientQueries.

(** SELECT * FROM patients WHERE id = ? OR CAST(patient_id AS TEXT) = ?

    Two placeholders.  The statement presupposes a [patient_id] column that
    the CREATE TABLE of [db.js] does not declare and that no statement of
    the program writes: the store holds it as NULL in every row, so the
    second disjunct matches none. *)
Definition getById `{Builtins} (args : list value) : Q (option patient) :=
  xs <- lift (bind_args 2 args) ;;
  match xs with
  | [x1; _] => gets (fun db => find (fun p => text_eq (p_id p) x1) (patients db))
  | _ => ret None
  end.

(** INSERT INTO patients (id, name, ..., address) VALUES (@id, ..., @address) *)
Definition insert `{Builtins} (now : string)
    (id name type breed colour age gender : value) (weight : real)
    (owner_name phone email address : value) : Q unit :=
  id' <- lift (bind_text_nn "patients.id" id) ;;
  name' <- lift (bind_text_nn "patients.name" name) ;;
  type' <- lift (bind_text type) ;;
  breed' <- lift (bind_text breed) ;;
  colour' <- lift (bind_text colour) ;;
  age' <- lift (bind_text age) ;;
  gender' <- lift (bind_text gender) ;;
  owner' <- lift (bind_text_nn "patients.owner_name" owner_name) ;;
  phone' <- lift (bind_text phone) ;;
  email' <- lift (bind_text email) ;;
  address' <- lift (bind_text address) ;;
  taken <- gets (fun db => existsb (fun p => p_id p =? id') (patients db)) ;;
  if taken then throw (unique_failed "patients.id")
  else modify (fun db =>
    set_patients
      (patients db ++
         [mkPatient id' name' type' breed' colour' age' gender' weight
                    owner' phone' email' address' now]) db).

(** UPDATE patients SET name=@name, ..., address=@address WHERE id=@id *)
Definition update `{Builtins}
    (id name type breed colour age gender : value) (weight : real)
    (owner_name phone email address : value) : Q unit :=
  name' <- lift (bind_text name) ;;
  type' <- lift (bind_text type) ;;
  breed' <- lift (bind_text breed) ;;
  colour' <- lift (bind_text colour) ;;
  age' <- lift (bind_text age) ;;
  gender' <- lift (bind_text gender) ;;
  owner' <- lift (bind_text owner_name) ;;
  phone' <- lift (bind_text phone) ;;
  email' <- lift (bind_text email) ;;
  address' <- lift (bind_text address) ;;
  id' <- lift (bind_value id) ;;
  hit <- gets (fun db => existsb (fun p => text_eq (p_id p) id') (patients db)) ;;
  if hit then
    name'' <- lift (not_null "patients.name" name') ;;
    owner'' <- lift (not_null "patients.owner_name" owner') ;;
    modify (fun db =>
      set_patients
        (map (fun p =>
                if text_eq (p_id p) id'
                then patient_set name'' type' breed' colour' age' gender' weight
                                 owner'' phone' email' address' p
                else p)
             (patients db)) db)
  else ret tt.

(** DELETE FROM patients WHERE id = ?

    With [foreign_keys = ON] a deleted patient takes its check-ins along
    (ON DELETE CASCADE) and leaves its invoices with a NULL [patient_id]
    (ON DELETE SET NULL). *)
Definition delete `{Builtins} (args : list value) : Q unit :=
  xs <- lift (bind_args 1 args) ;;
  match xs with
  | [x] =>
      modify (fun db =>
        let gone := map p_id (filter (fun p => text_eq (p_id p) x) (patients db)) in
        let refers (fk : text) := existsb (cell_is fk) gone in
        mkDB (filter (fun p => negb (text_eq (p_id p) x)) (patients db))
             (filter (fun c => negb (refers (c_patient_id c))) (checkins db))
             (map (fun i => if refers (i_patient_id i) then invoice_clear_patient i else i)
                  (invoices db))
             (invoice_items db) (items_seq db) (counters db))
  | _ => ret tt
  end.

End patientQueries.

Module checkinQueries.

(** SELECT * FROM checkins WHERE id = ? *)
Definition getById `{Builtins} (args : list value) : Q (option checkin) :=
  xs <- lift (bind_args 1 args) ;;
  match xs with
  | [x] => gets (fun db => find (fun c => text_eq (c_id c) x) (checkins db))
  | _ => ret None
  end.

(** INSERT INTO checkins (id, patient_id, ..., status) VALUES (...) *)
Definition insert `{Builtins} (now : string)
    (id patient_id patient_name owner_name doctor date complaint subjective
     objective assessment plan procedures medications followup status : value)
    : Q unit :=
  id' <- lift (bind_text_nn "checkins.id" id) ;;
  pid' <- lift (bind_text patient_id) ;;
  pname' <- lift (bind_text patient_name) ;;
  owner' <- lift (bind_text owner_name) ;;
  doctor' <- lift (bind_text_nn "checkins.doctor" doctor) ;;
  date' <- lift (bind_text_nn "checkins.date" date) ;;
  complaint' <- lift (bind_text complaint) ;;
  subjective' <- lift (bind_text subjective) ;;
  objective' <- lift (bind_text objective) ;;
  assessment' <- lift (bind_text assessment) ;;
  plan' <- lift (bind_text plan) ;;
  procedures' <- lift (bind_text procedures) ;;
  medications' <- lift (bind_text medications) ;;
  followup' <- lift (bind_text followup) ;;
  status' <- lift (bind_text status) ;;
  taken <- gets (fun db => existsb (fun c => c_id c =? id') (checkins db)) ;;
  linked <- gets (patient_ref_ok pid') ;;
  if taken then throw (unique_failed "checkins.id")
  else if negb linked then throw fk_failed
  else modify (fun db =>
    set_checkins
      (checkins db ++
         [mkCheckin id' pid' pname' owner' doctor' date' complaint' subjective'
                    objective' assessment' plan' procedures' medications'
                    followup' status' now]) db).

(** UPDATE checkins SET status = ? WHERE id = ? *)
Definition updateStatus `{Builtins} (args : list value) : Q unit :=
  xs <- lift (bind_args 2 args) ;;
  match xs with
  | [st; x] =>
      modify (fun db =>
        set_checkins
          (map (fun c => if text_eq (c_id c) x then checkin_set_status (as_text st) c else c)
               (checkins db)) db)
  | _ => ret tt
  end.

(** DELETE FROM checkins WHERE id = ? *)
Definition delete `{Builtins} (args : list value) : Q unit :=
  xs <- lift (bind_args 1 args) ;;
  match xs with
  | [x] =>
      modify (fun db =>
        set_checkins (filter (fun c => negb (text_eq (c_id c) x)) (checkins db)) db)
  | _ => ret tt
  end.

End checkinQueries.

Fixpoint insert_by_id (x : invoice_item) (l : list invoice_item) : list invoice_item :=
  match l with
  | [] => [x]
  | y :: rest => if (it_id x <=? it_id y)%Z then x :: l else y :: insert_by_id x rest
  end.

(** ORDER BY id *)
Definition order_by_id (l : list invoice_item) : list invoice_item :=
  fold_right insert_by_id [] l.

Module invoiceQueries.

(** SELECT * FROM invoices WHERE ref = ? *)
Definition getById `{Builtins} (args : list value) : Q (option invoice) :=
  xs <- lift (bind_args 1 args) ;;
  match xs with
  | [x] => gets (fun db => find (fun i => text_eq (i_ref i) x) (invoices db))
  | _ => ret None
  end.

(** SELECT * FROM invoice_items WHERE invoice_ref = ? ORDER BY id *)
Definition getItems `{Builtins} (args : list value) : Q (list invoice_item) :=
  xs <- lift (bind_args 1 args) ;;
  match xs with
  | [x] =>
      gets (fun db =>
        order_by_id (filter (fun it => cell_eq (it_invoice_ref it) x) (invoice_items db)))
  | _ => ret []
  end.

(** INSERT INTO invoices (ref, patient_id, ..., notes) VALUES (@ref, ..., @notes) *)
Definition insert `{Builtins} (now : string)
    (ref patient_id patient_name patient_type owner_name phone date : value)
    (subtotal discount total paid_amount balance : real)
    (method status notes : value) : Q unit :=
  ref' <- lift (bind_text_nn "invoices.ref" ref) ;;
  pid' <- lift (bind_text patient_id) ;;
  pname' <- lift (bind_text_nn "invoices.patient_name" patient_name) ;;
  ptype' <- lift (bind_text patient_type) ;;
  owner' <- lift (bind_text_nn "invoices.owner_name" owner_name) ;;
  phone' <- lift (bind_text phone) ;;
  date' <- lift (bind_text_nn "invoices.date" date) ;;
  method' <- lift (bind_text method) ;;
  status' <- lift (bind_text status) ;;
  notes' <- lift (bind_text notes) ;;
  taken <- gets (fun db => existsb (fun i => i_ref i =? ref') (invoices db)) ;;
  linked <- gets (patient_ref_ok pid') ;;
  if taken then throw (unique_failed "invoices.ref")
  else if negb linked then throw fk_failed
  else modify (fun db =>
    set_invoices
      (invoices db ++
         [mkInvoice ref' pid' pname' ptype' owner' phone' date' subtotal discount
                    total paid_amount balance method' status' notes' now]) db).

(** INSERT INTO invoice_items (invoice_ref, name, quantity, unit_price,
    discount, total) VALUES (...) *)
Definition insertItem `{Builtins} (invoice_ref name : value)
    (quantity unit_price discount total : real) : Q unit :=
  ref' <- lift (bind_text invoice_ref) ;;
  name' <- lift (bind_text_nn "invoice_items.name" name) ;;
  linked <- gets (fun db =>
    match ref' with
    | None => true
    | Some r => existsb (fun i => i_ref i =? r) (invoices db)
    end) ;;
  if negb linked then throw fk_failed
  else modify (fun db =>
    let id := (items_seq db + 1)%Z in
    set_items
      (invoice_items db ++ [mkItem id ref' name' quantity unit_price discount total])
      id db).

(** UPDATE invoices SET status=@status, paid_amount=@paid_amount,
    balance=@balance WHERE ref=@ref *)
Definition updateStatus `{Builtins} (status : value) (paid_amount balance : real)
    (ref : value) : Q unit :=
  status' <- lift (bind_text status) ;;
  ref' <- lift (bind_value ref) ;;
  modify (fun db =>
    set_invoices
      (map (fun i =>
              if text_eq (i_ref i) ref'
              then invoice_set_status status' paid_amount balance i
              else i)
           (invoices db)) db).

(** DELETE FROM invoices WHERE ref = ?   (line items cascade) *)
Definition delete `{Builtins} (args : list value) : Q unit :=
  xs <- lift (bind_args 1 args) ;;
  match xs with
  | [x] =>
      modify (fun db =>
        let gone := map i_ref (filter (fun i => text_eq (i_ref i) x) (invoices db)) in
        mkDB (patients db) (checkins db)
             (filter (fun i => negb (text_eq (i_ref i) x)) (invoices db))
             (filter (fun it => negb (existsb (cell_is (it_invoice_ref it)) gone))
                     (invoice_items db))
             (items_seq db) (counters db))
  | _ => ret tt
  end.

End invoiceQueries.

(* ================================================================== *)
(** ** Transaction helper ([db.js], createInvoice) *)

(** [db.transaction(fn)]: a throw inside [fn] rolls the store back. *)
Definition transaction {A} (m : Q A) : Q A :=
  fun db => match m db with
            | (Ret a, db') => (Ret a, db')
            | (Throw e, _) => (Throw e, db)
            end.

(** The invoice object and the line-item objects the handler builds. *)
Record invoice_obj : Type := mkInvoiceObj {
  o_ref : string;
  o_patient_id : value;
  o_patient_name : value;
  o_patient_type : value;
  o_owner_name : string;
  o_phone : value;
  o_date : value;
  o_subtotal : float;
  o_discount : float;
  o_total : float;
  o_paid_amount : float;
  o_balance : float;
  o_method : value;
  o_status : value;
  o_notes : value
}.

Record line_item : Type := mkLine {
  l_name : value;
  l_quantity : float;
  l_unit_price : float;
  l_discount : float;
  l_total : float
}.

Fixpoint insert_items `{Builtins} (ref : string) (items : list line_item) : Q unit :=
  match items with
  | [] => ret tt
  | item :: rest =>
      invoiceQueries.insertItem (VStr ref) (l_name item) (l_quantity item)
        (l_unit_price item) (l_discount item) (l_total item) ;;;
      insert_items ref rest
  end.

Definition createInvoice `{Builtins} (now : string) (inv : invoice_obj)
    (items : list line_item) : Q (option invoice) :=
  transaction
    (invoiceQueries.insert now (VStr (o_ref inv)) (o_patient_id inv)
       (o_patient_name inv) (o_patient_type inv) (VStr (o_owner_name inv))
       (o_phone inv) (o_date inv) (o_subtotal inv) (o_discount inv) (o_total inv)
       (o_paid_amount inv) (o_balance inv) (o_method inv) (o_status inv)
       (o_notes inv) ;;;
     insert_items (o_ref inv) items ;;;
     invoiceQueries.getById [VStr (o_ref inv)]).

(* ================================================================== *)
(** ** HTTP responses ([server.js], ok / err) *)

Inductive payload : Type :=
| PPatient (p : option patient)
| PCheckin (c : option checkin)
| PInvoice (i : invoice) (items : list invoice_item)
| PDeleted (id : string)
| PError (message : string)
| PThrown (e : exn).

Record response : Type := mkResponse {
  status : nat;
  success : bool;
  data : payload
}.

Definition ok (d : payload) : response := mkResponse 200 true d.
Definition err (msg : string) (code : nat) : response := mkResponse code false (PError msg).

(** [try { ... } catch (e) { err(res, e.message, 500); }] *)
Definition handle (m : Q response) (db : DB) : response * DB :=
  match m db with
  | (Ret r, db') => (r, db')
  | (Throw e, db') => (mkResponse 500 false (PThrown e), db')
  end.

(** What a request reads from the clock and the random source. *)
Record env : Type := mkEnv {
  now_year : Z;              (* now.getFullYear() *)
  now_month : Z;             (* now.getMonth(), 0-based *)
  now_ms : Z;                (* Date.now() *)
  now_localtime : string;    (* datetime('now','localtime') *)
  random_suffix : string     (* Math.random().toString(36).slice(2, 6) *)
}.

Definition of_text (t : text) : value :=
  match t with
  | Some s => VStr s
  | None => VNull
  end.

(** A REAL cell as JS reads it, and the number JS arithmetic makes of it. *)
Inductive nullable_number : Type :=
| NNull
| NNum (f : float).

Definition of_real (c : real) : nullable_number :=
  if is_nan c then NNull else NNum c.
Definition to_real (n : nullable_number) : real :=
  match n with
  | NNull => nan
  | NNum f => f
  end.
Definition ToNumber (n : nullable_number) : float :=
  match n with
  | NNull => 0%float
  | NNum f => f
  end.

(* ================================================================== *)
(** ** Helpers ([server.js]) *)

Definition patient_id_of (n : Z) : string :=
  ("PaCPC-" ++ padStart 5 "0" (String_of_Z n))%string.

Definition generatePatientId : Q string :=
  n <- nextCounter "patient" ;;
  ret (patient_id_of n).

Definition invoice_ref_of (e : env) (n : Z) : string :=
  let yy := slice_from 2 (String_of_Z (now_year e)) in
  let mm := padStart 2 "0" (String_of_Z (now_month e + 1)) in
  ("IN:01-" ++ yy ++ mm ++ "-" ++ padStart 4 "0" (String_of_Z n))%string.

Definition generateInvoiceRef (e : env) : Q string :=
  n <- nextCounter "invoice" ;;
  ret (invoice_ref_of e n).

(* ================================================================== *)
(** ** Patients ([server.js]) *)

(** GET /api/patients/:id *)
Definition get_patient `{Builtins} (id : string) : DB -> response * DB :=
  handle (
    p <- patientQueries.getById [VStr id; VStr id] ;;
    match p with
    | None => ret (err "Patient not found" 404)
    | Some p => ret (ok (PPatient (Some p)))
    end).

(** POST /api/patients *)
Definition post_patients `{Builtins} (e : env) (body : value) : DB -> response * DB :=
  handle (
    name <- lift (prop body "name") ;;
    owner_name <- lift (prop body "owner_name") ;;
    name_t <- lift (opt_trim name) ;;
    if negb (truthy name_t) then ret (err "Pet name is required" 400) else
    owner_t <- lift (opt_trim owner_name) ;;
    if negb (truthy owner_t) then ret (err "Owner name is required" 400) else
    id <- generatePatientId ;;
    patientQueries.insert (now_localtime e)
      (VStr id)
      name_t
      (js_or (get_field body "type") VNull)
      (js_or (get_field body "breed") VNull)
      (js_or (get_field body "colour") VNull)
      (js_or (get_field body "age") VNull)
      (js_or (get_field body "gender") VNull)
      (if truthy (get_field body "weight")
       then parseFloat (get_field body "weight") else nan)
      owner_t
      (js_or (get_field body "phone") VNull)
      (js_or (get_field body "email") VNull)
      (js_or (get_field body "address") VNull) ;;;
    p <- patientQueries.getById [VStr id] ;;
    ret (ok (PPatient p))).

(** PUT /api/patients/:id *)
Definition put_patient `{Builtins} (id : string) (body : value) : DB -> response * DB :=
  handle (
    existing <- patientQueries.getById [VStr id; VStr id] ;;
    match existing with
    | None => ret (err "Patient not found" 404)
    | Some existing =>
        name <- lift (prop body "name") ;;
        patientQueries.update
          (VStr id)
          (js_or name (VStr (p_name existing)))
          (js_coalesce (get_field body "type") (of_text (p_type existing)))
          (js_coalesce (get_field body "breed") (of_text (p_breed existing)))
          (js_coalesce (get_field body "colour") (of_text (p_colour existing)))
          (js_coalesce (get_field body "age") (of_text (p_age existing)))
          (js_coalesce (get_field body "gender") (of_text (p_gender existing)))
          (if negb (nullish (get_field body "weight"))
           then parseFloat (get_field body "weight") else p_weight existing)
          (js_or (get_field body "owner_name") (VStr (p_owner_name existing)))
          (js_coalesce (get_field body "phone") (of_text (p_phone existing)))
          (js_coalesce (get_field body "email") (of_text (p_email existing)))
          (js_coalesce (get_field body "address") (of_text (p_address existing))) ;;;
        p <- patientQueries.getById [VStr id] ;;
        ret (ok (PPatient p))
    end).

(** DELETE /api/patients/:id *)
Definition delete_patient `{Builtins} (id : string) : DB -> response * DB :=
  handle (
    p <- patientQueries.getById [VStr id] ;;
    match p with
    | None => ret (err "Patient not found" 404)
    | Some _ =>
        patientQueries.delete [VStr id] ;;;
        ret (ok (PDeleted id))
    end).

(* ================================================================== *)
(** ** Check-ins ([server.js]) *)

(** GET /api/checkins/:id *)
Definition get_checkin `{Builtins} (id : string) : DB -> response * DB :=
  handle (
    c <- checkinQueries.getById [VStr id] ;;
    match c with
    | None => ret (err "Check-in not found" 404)
    | Some c => ret (ok (PCheckin (Some c)))
    end).

(** POST /api/checkins, over the statement object it looks the patient up
    with ([patientQueries.getById] in [server.js]). *)
Definition post_checkins_with `{Builtins}
    (getById_get : list value -> Q (option patient))
    (e : env) (body : value) : Q response :=
  patient_id <- lift (prop body "patient_id") ;;
  doctor <- lift (prop body "doctor") ;;
  date <- lift (prop body "date") ;;
  doctor_t <- lift (opt_trim doctor) ;;
  if negb (truthy doctor_t) then ret (err "Doctor name is required" 400) else
  if negb (truthy date) then ret (err "Date is required" 400) else
  let patient_name := js_or (get_field body "patient_name") (VStr "") in
  let owner_name := js_or (get_field body "owner_name") (VStr "") in
  names <-
    (if truthy patient_id then
       pat <- getById_get [patient_id] ;;
       match pat with
       | Some pat => ret (VStr (p_name pat), VStr (p_owner_name pat))
       | None => ret (patient_name, owner_name)
       end
     else ret (patient_name, owner_name)) ;;
  let id := ("CI-" ++ String_of_Z (now_ms e) ++ "-" ++ random_suffix e)%string in
  checkinQueries.insert (now_localtime e)
    (VStr id)
    (js_or patient_id VNull)
    (fst names) (snd names)
    doctor_t
    date
    (js_or (get_field body "complaint") VNull)
    (js_or (get_field body "subjective") VNull)
    (js_or (get_field body "objective") VNull)
    (js_or (get_field body "assessment") VNull)
    (js_or (get_field body "plan") VNull)
    (js_or (get_field body "procedures") VNull)
    (js_or (get_field body "medications") VNull)
    (js_or (get_field body "followup") VNull)
    (VStr "open") ;;;
  c <- checkinQueries.getById [VStr id] ;;
  ret (ok (PCheckin c)).

Definition post_checkins `{Builtins} (e : env) (body : value) : DB -> response * DB :=
  handle (post_checkins_with patientQueries.getById e body).

(** PATCH /api/checkins/:id/status *)
Definition patch_checkin_status `{Builtins} (id : string) (body : value)
    : DB -> response * DB :=
  handle (
    st <- lift (prop body "status") ;;
    if negb (is_str st "open" || is_str st "done") then ret (err "Invalid status" 400) else
    checkinQueries.updateStatus [st; VStr id] ;;;
    c <- checkinQueries.getById [VStr id] ;;
    ret (ok (PCheckin c))).

(** DELETE /api/checkins/:id *)
Definition delete_checkin `{Builtins} (id : string) : DB -> response * DB :=
  handle (
    checkinQueries.delete [VStr id] ;;;
    ret (ok (PDeleted id))).

(* ================================================================== *)
(** ** Invoices ([server.js]) *)

(** GET /api/invoices/:ref *)
Definition get_invoice `{Builtins} (ref : string) : DB -> response * DB :=
  handle (
    inv <- invoiceQueries.getById [VStr ref] ;;
    match inv with
    | None => ret (err "Invoice not found" 404)
    | Some inv =>
        items <- invoiceQueries.getItems [VStr (i_ref inv)] ;;
        ret (ok (PInvoice inv items))
    end).

(** The callback of [items.map(...)]. *)
Definition line_of `{Builtins} (item : value) : outcome line_item :=
  match prop item "name" with
  | Throw e => Throw e
  | Ret name =>
      Ret (mkLine name
             (num_or (parseFloat (get_field item "quantity")) 1)
             (num_or (parseFloat (get_field item "unit_price")) 0)
             (num_or (parseFloat (get_field item "discount")) 0)
             (num_or (parseFloat (get_field item "quantity")) 1
              * num_or (parseFloat (get_field item "unit_price")) 0
              - num_or (parseFloat (get_field item "discount")) 0)%float)
  end.

Fixpoint map_lines `{Builtins} (items : list value) : outcome (list line_item) :=
  match items with
  | [] => Ret []
  | item :: rest =>
      match line_of item with
      | Throw e => Throw e
      | Ret l => match map_lines rest with
                 | Throw e => Throw e
                 | Ret ls => Ret (l :: ls)
                 end
      end
  end.

(** [items.map(...)]: only an array has [map]. *)
Definition lineItems `{Builtins} (items : value) : outcome (list line_item) :=
  match items with
  | VArr l => map_lines l
  | _ => Throw (TypeError "items.map is not a function")
  end.

(** [lineItems.reduce((s, i) => s + (i.quantity * i.unit_price), 0)] *)
Definition subtotal_of (ls : list line_item) : float :=
  fold_left (fun s i => (s + l_quantity i * l_unit_price i)%float) ls 0%float.

(** [lineItems.reduce((s, i) => s + i.discount, 0)] *)
Definition discount_of (ls : list line_item) : float :=
  fold_left (fun s i => (s + l_discount i)%float) ls 0%float.

(** POST /api/invoices, over the statement object it looks the patient up
    with ([patientQueries.getById] in [server.js]). *)
Definition post_invoices_with `{Builtins}
    (getById_get : list value -> Q (option patient))
    (e : env) (body : value) : Q response :=
  patient_id <- lift (prop body "patient_id") ;;
  owner_name <- lift (prop body "owner_name") ;;
  date <- lift (prop body "date") ;;
  items <- lift (prop body "items") ;;
  owner_t <- lift (opt_trim owner_name) ;;
  if negb (truthy owner_t) then ret (err "Owner name is required" 400) else
  if negb (truthy date) then ret (err "Date is required" 400) else
  if negb (has_length items) then ret (err "At least one line item is required" 400) else
  let patient_name := js_or (get_field body "patient_name") (VStr "") in
  let patient_type := js_or (get_field body "patient_type") (VStr "") in
  let phone := js_or (get_field body "phone") (VStr "") in
  snapshot <-
    (if truthy patient_id then
       pat <- getById_get [patient_id] ;;
       match pat with
       | Some pat =>
           ret (VStr (p_name pat),
                js_or (of_text (p_type pat)) (VStr ""),
                js_or (of_text (p_phone pat)) (VStr ""))
       | None => ret (patient_name, patient_type, phone)
       end
     else ret (patient_name, patient_type, phone)) ;;
  lines <- lift (lineItems items) ;;
  let subtotal := subtotal_of lines in
  let discount := discount_of lines in
  let total := (subtotal - discount)%float in
  let paid_amount := num_or (parseFloat (get_field body "paid_amount")) 0 in
  let balance := Math_max 0 (total - paid_amount) in
  ref <- generateInvoiceRef e ;;
  saved <- createInvoice (now_localtime e)
    (mkInvoiceObj ref
       (js_or patient_id VNull)
       (fst (fst snapshot)) (snd (fst snapshot))
       (match owner_t with VStr s => s | _ => "" end)
       (snd snapshot)
       date subtotal discount total paid_amount balance
       (js_or (get_field body "method") VNull)
       (js_or (get_field body "status") (VStr "Draft"))
       (js_or (get_field body "notes") VNull))
    lines ;;
  match saved with
  | None => throw (TypeError "Cannot set properties of undefined (setting 'items')")
  | Some saved =>
      its <- invoiceQueries.getItems [VStr (i_ref saved)] ;;
      ret (ok (PInvoice saved its))
  end.

Definition post_invoices `{Builtins} (e : env) (body : value) : DB -> response * DB :=
  handle (post_invoices_with patientQueries.getById e body).

(** PATCH /api/invoices/:ref/status *)
Definition patch_invoice_status `{Builtins} (ref : string) (body : value)
    : DB -> response * DB :=
  handle (
    inv <- invoiceQueries.getById [VStr ref] ;;
    match inv with
    | None => ret (err "Invoice not found" 404)
    | Some inv =>
        st_req <- lift (prop body "status") ;;
        let st := js_or st_req (of_text (i_status inv)) in
        let paid_amount :=
          if negb (nullish (get_field body "paid_amount"))
          then NNum (parseFloat (get_field body "paid_amount"))
          else of_real (i_paid_amount inv) in
        let balance :=
          NNum (Math_max 0 (ToNumber (of_real (i_total inv)) - ToNumber paid_amount)) in
        let paid_amount := if is_str st "Paid" then of_real (i_total inv) else paid_amount in
        let balance := if is_str st "Paid" then NNum 0 else balance in
        let paid_amount := if is_str st "Draft" then NNum 0 else paid_amount in
        let balance := if is_str st "Draft" then of_real (i_total inv) else balance in
        invoiceQueries.updateStatus st (to_real paid_amount) (to_real balance) (VStr ref) ;;;
        updated <- invoiceQueries.getById [VStr ref] ;;
        match updated with
        | None => throw (TypeError "Cannot set properties of undefined (setting 'items')")
        | Some updated =>
            its <- invoiceQueries.getItems [VStr (i_ref updated)] ;;
            ret (ok (PInvoice updated its))
        end
    end).

(** DELETE /api/invoices/:ref *)
Definition delete_invoice `{Builtins} (ref : string) : DB -> response * DB :=
  handle (
    invoiceQueries.delete [VStr ref] ;;;
    ret (ok (PDeleted ref))).

(* ================================================================== *)
(** ** Vocabulary of the specification *)

(** The counter value a patient id was made from. *)
Definition id_number (s : string) : option Z :=
  match s with
  | String _ (String _ (String _ (String _ (String _ (String _ rest))))) =>
      match NilEmpty.uint_of_string rest with
      | Some d => Some (Z.of_uint d)
      | None => None
      end
  | _ => None
  end.






Definition text_or_empty (t : text) : string :=
  match t with
  | Some s => s
  | None => ""
  end.




(** What a failed request leaves of the store: every table as it was (the
    counters may have moved). *)
Definition tables_kept (db db' : DB) : Prop :=
  patients db' = patients db /\ checkins db' = checkins db /\
  invoices db' = invoices db /\ invoice_items db' = invoice_items db /\
  items_seq db' = items_seq db.

(** The invoice PATCH writes over [inv], given the text [t] its status binds to. *)
Definition patched_invoice `{Builtins} (inv : invoice) (body : value) (t : text) : invoice :=
  let st := js_or (get_field body "status") (of_text (i_status inv)) in
  let paid0 :=
    if negb (nullish (get_field body "paid_amount"))
    then NNum (parseFloat (get_field body "paid_amount"))
    else of_real (i_paid_amount inv) in
  let bal0 := NNum (Math_max 0 (ToNumber (of_real (i_total inv)) - ToNumber paid0)) in
  let paid1 := if is_str st "Paid" then of_real (i_total inv) else paid0 in
  let bal1 := if is_str st "Paid" then NNum 0 else bal0 in
  let paid2 := if is_str st "Draft" then NNum 0 else paid1 in
  let bal2 := if is_str st "Draft" then of_real (i_total inv) else bal1 in
  invoice_set_status t (to_real paid2) (to_real bal2) inv.


(** The invoice invariant as the specification words it. *)
Definition spec_invariant (i : invoice) : Prop :=
  i_total i = (i_subtotal i - i_discount i)%float /\
  i_balance i = Math_max 0 (i_total i - i_paid_amount i) /\
  (i_status i = Some "Paid" ->
     i_paid_amount i = i_total i /\ i_balance i = 0%float) /\
  (i_status i = Some "Draft" ->
     i_paid_amount i = 0%float /\ i_balance i = i_total i).

Definition totals_consistent (i : invoice) : Prop :=
  i_total i = (i_subtotal i - i_discount i)%float.

(** A stored line item against the line object it was written from. *)
Definition stores_line (l : line_item) (row : invoice_item) : Prop :=
  it_quantity row = l_quantity l /\
  it_unit_price row = l_unit_price l /\
  it_discount row = l_discount l /\
  it_total row = l_total l.


(* ================================================================== *)
(** ** A runtime and requests to run the handlers on *)

Definition digit_of (c : ascii) : option float :=
  match c with
  | "0"%char => Some 0%float
  | "1"%char => Some 1%float
  | "2"%char => Some 2%float
  | "3"%char => Some 3%float
  | "4"%char => Some 4%float
  | "5"%char => Some 5%float
  | "6"%char => Some 6%float
  | "7"%char => Some 7%float
  | "8"%char => Some 8%float
  | "9"%char => Some 9%float
  | _ => None
  end.

(** Digits read so far, as (integer, count). *)
Fixpoint read_digits (s : string) (acc : float) (n : nat) : float * nat * string :=
  match s with
  | EmptyString => (acc, n, s)
  | String c s' =>
      match digit_of c with
      | Some d => read_digits s' (acc * 10 + d)%float (S n)
      | None => (acc, n, s)
      end
  end.

Fixpoint pow10 (k : nat) : float :=
  match k with
  | O => 1%float
  | S k' => (10 * pow10 k')%float
  end.

(** An unsigned decimal literal with an optional fraction, at the front of
    [s]; NaN when there is none. *)
Definition read_unsigned (s : string) : float :=
  let '(ip, n, rest) := read_digits s 0%float 0 in
  match rest with
  | String "."%char rest' =>
      let '(all, k, _) := read_digits rest' ip 0 in
      if Nat.eqb (n + k) 0 then nan else (all / pow10 k)%float
  | _ => if Nat.eqb n 0 then nan else ip
  end.

Definition read_decimal (s : string) : float :=
  match trimStart s with
  | String "-"%char s' => (- read_unsigned s')%float
  | String "+"%char s' => read_unsigned s'
  | s' => read_unsigned s'
  end.

(** An integral number as text. *)
Definition integer_text (f : float) : string :=
  match Prim2SF f with
  | S754_zero _ => "0"
  | S754_finite s m e =>
      let z := if (0 <=? e)%Z then (Z.pos m * 2 ^ e)%Z else (Z.pos m / 2 ^ (- e))%Z in
      String_of_Z (if s then (- z)%Z else z)
  | _ => ""
  end.

(** A runtime for the examples: it reads short decimal literals (no
    exponent) and prints integers. *)
Definition example_builtins : Builtins :=
  {| parseFloat_string := read_decimal; number_to_text := integer_text |}.

Definition example_env : env :=
  mkEnv 2024 10 1730600000000 "2024-11-03 10:00:00" "k3x9".

Definition rex_body : value :=
  VObj [("name", VStr "Rex"); ("owner_name", VStr "Ann"); ("type", VStr "Canine");
        ("phone", VStr "555-0101")].


(** The store after Rex has been created. *)
Definition rex_db : DB :=
  snd (@post_patients example_builtins example_env rex_body init_db).

Definition rex : patient :=
  mkPatient "PaCPC-10000" "Rex" (Some "Canine") None None None None nan "Ann"
            (Some "555-0101") None None "2024-11-03 10:00:00".

Definition two_items : value :=
  VArr [VObj [("name", VStr "Consultation"); ("quantity", VNum 2);
              ("unit_price", VNum 100); ("discount", VNum 10)];
        VObj [("name", VStr "Vaccine"); ("quantity", VNum 1);
              ("unit_price", VNum 50); ("discount", VNum 0)]].

Definition invoice_body (paid : value) : value :=
  VObj [("owner_name", VStr "Ann"); ("date", VStr "2024-11-03");
        ("items", two_items); ("paid_amount", paid)].

(** One free item with a discount of 10: the total is -10. *)
Definition over_discounted_body : value :=
  VObj [("owner_name", VStr "Ann"); ("date", VStr "2024-11-03");
        ("items", VArr [VObj [("name", VStr "Goodwill"); ("quantity", VNum 1);
                              ("unit_price", VNum 0); ("discount", VNum 10)]])].

(** One item with quantity 0, and a paid amount that is no number. *)
Definition zero_quantity_body : value :=
  VObj [("owner_name", VStr "Ann"); ("date", VStr "2024-11-03");
        ("items", VArr [VObj [("name", VStr "Bandage"); ("quantity", VNum 0);
                              ("unit_price", VNum 50); ("discount", VNum 0)]]);
        ("paid_amount", VBool true)].

(** One item of 100, marked Paid, no payment given. *)
Definition paid_unpaid_body : value :=
  VObj [("owner_name", VStr "Ann"); ("date", VStr "2024-11-03");
        ("items", VArr [VObj [("name", VStr "Consultation"); ("quantity", VNum 1);
                              ("unit_price", VNum 100)]]);
        ("status", VStr "Paid")].

(** The store after the two-item invoice, unpaid, has been created. *)
Definition invoice_db : DB :=
  snd (@post_invoices example_builtins example_env (invoice_body (VNum 0)) init_db).


(** A check-in and an invoice that reference Rex, next to Rex. *)
Definition rex_checkin : checkin :=
  mkCheckin "CI-1" (Some "PaCPC-10000") (Some "Rex") (Some "Ann") "Dr. Lee"
            "2024-11-03" None None None None None None None None (Some "open")
            "2024-11-03 10:00:00".

Definition rex_invoice : invoice :=
  mkInvoice "IN:01-2411-0001" (Some "PaCPC-10000") "Rex" (Some "Canine") "Ann"
            (Some "555-0101") "2024-11-03" 100%float 0%float 100%float 0%float 100%float
            None (Some "Draft") None
            "2024-11-03 10:00:00".

Definition linked_db : DB :=
  mkDB [rex] [rex_checkin] [rex_invoice] [] 0 [("invoice", 2%Z); ("patient", 10001%Z)].



(* ================================================================== *)
(** ** Stores, requests and what the routes keep *)

(** [R] relates the store before a computation to the store it leaves,
    whether it returns or throws. *)
Definition relates {A} (R : DB -> DB -> Prop) (m : Q A) : Prop :=
  forall db, R db (snd (m db)).

(** The store after a DELETE on patients has run with [x] bound. *)
Definition patient_delete_result `{Builtins} (x : sqlval) (db : DB) : DB :=
  let gone := map p_id (filter (fun p => text_eq (p_id p) x) (patients db)) in
  let refers (fk : text) := existsb (cell_is fk) gone in
  mkDB (filter (fun p => negb (text_eq (p_id p) x)) (patients db))
       (filter (fun c => negb (refers (c_patient_id c))) (checkins db))
       (map (fun i => if refers (i_patient_id i) then invoice_clear_patient i else i)
            (invoices db))
       (invoice_items db) (items_seq db) (counters db).

(** A line item may reference [invoices(ref)] only if that row exists. *)
Definition invoice_ref_ok (fk : text) (db : DB) : bool :=
  match fk with
  | None => true
  | Some r => existsb (fun i => i_ref i =? r) (invoices db)
  end.

(** The store after a DELETE on invoices has run with [x] bound. *)
Definition invoice_delete_result `{Builtins} (x : sqlval) (db : DB) : DB :=
  let gone := map i_ref (filter (fun i => text_eq (i_ref i) x) (invoices db)) in
  mkDB (patients db) (checkins db)
       (filter (fun i => negb (text_eq (i_ref i) x)) (invoices db))
       (filter (fun it => negb (existsb (cell_is (it_invoice_ref it)) gone))
               (invoice_items db))
       (items_seq db) (counters db).

(** The primary keys of the schema: no two rows of a table share one, and
    the AUTOINCREMENT sequence of [invoice_items] is at or above every id in
    the table. *)
Definition keys_unique (db : DB) : Prop :=
  NoDup (map p_id (patients db)) /\
  NoDup (map c_id (checkins db)) /\
  NoDup (map i_ref (invoices db)) /\
  NoDup (map it_id (invoice_items db)) /\
  Forall (fun it => (it_id it <= items_seq db)%Z) (invoice_items db) /\
  NoDup (map fst (counters db)).

(** The foreign keys of the schema: a [patient_id] that is not NULL names a
    stored patient, an [invoice_ref] that is not NULL a stored invoice. *)
Definition references_hold (db : DB) : Prop :=
  Forall (fun c => patient_ref_ok (c_patient_id c) db = true) (checkins db) /\
  Forall (fun i => patient_ref_ok (i_patient_id i) db = true) (invoices db) /\
  Forall (fun it => invoice_ref_ok (it_invoice_ref it) db = true) (invoice_items db).

(** An invariant that survives the step from [db] to [db']. *)
Definition keeps (I : DB -> Prop) (db db' : DB) : Prop := I db -> I db'.

(** The routes of [server.js] that read or write one record. *)
Inductive request : Type :=
| GET_patient (id : string)
| POST_patients (e : env) (body : value)
| PUT_patient (id : string) (body : value)
| DELETE_patient (id : string)
| GET_checkin (id : string)
| POST_checkins (e : env) (body : value)
| PATCH_checkin_status (id : string) (body : value)
| DELETE_checkin (id : string)
| GET_invoice (ref : string)
| POST_invoices (e : env) (body : value)
| PATCH_invoice_status (ref : string) (body : value)
| DELETE_invoice (ref : string).

Definition serve `{Builtins} (r : request) : DB -> response * DB :=
  match r with
  | GET_patient id => get_patient id
  | POST_patients e body => post_patients e body
  | PUT_patient id body => put_patient id body
  | DELETE_patient id => delete_patient id
  | GET_checkin id => get_checkin id
  | POST_checkins e body => post_checkins e body
  | PATCH_checkin_status id body => patch_checkin_status id body
  | DELETE_checkin id => delete_checkin id
  | GET_invoice ref => get_invoice ref
  | POST_invoices e body => post_invoices e body
  | PATCH_invoice_status ref body => patch_invoice_status ref body
  | DELETE_invoice ref => delete_invoice ref
  end.

(** The store after a sequence of requests, served one after the other. *)
Fixpoint serve_all `{Builtins} (rs : list request) (db : DB) : DB :=
  match rs with
  | [] => db
  | r :: rest => serve_all rest (snd (serve r db))
  end.

(** Every check-in is open or done. *)
Definition statuses_valid (db : DB) : Prop :=
  Forall (fun c => c_status c = Some "open" \/ c_status c = Some "done") (checkins db).

(** No counter is lost or lowered, and the item sequence is not lowered. *)
Definition numbers_advance (db db' : DB) : Prop :=
  (forall key v, counter_value key (counters db) = Some v ->
                 exists v', counter_value key (counters db') = Some v' /\ (v <= v')%Z) /\
  (items_seq db <= items_seq db')%Z.

(** The tables a family of routes is about. *)
Inductive family : Type := Patients | Checkins | Invoices.

Definition family_of (r : request) : family :=
  match r with
  | GET_patient _ | POST_patients _ _ | PUT_patient _ _ | DELETE_patient _ => Patients
  | GET_checkin _ | POST_checkins _ _ | PATCH_checkin_status _ _ | DELETE_checkin _ =>
      Checkins
  | GET_invoice _ | POST_invoices _ _ | PATCH_invoice_status _ _ | DELETE_invoice _ =>
      Invoices
  end.

Definition is_get (r : request) : bool :=
  match r with
  | GET_patient _ | GET_checkin _ | GET_invoice _ => true
  | _ => false
  end.

(** What the routes of a family leave alone. *)
Definition others_kept (f : family) (db db' : DB) : Prop :=
  match f with
  | Patients =>
      checkins db' = checkins db /\ invoices db' = invoices db /\
      invoice_items db' = invoice_items db /\ items_seq db' = items_seq db /\
      (forall k, ("patient" =? k) = false ->
                 counter_value k (counters db') = counter_value k (counters db))
  | Checkins =>
      patients db' = patients db /\ invoices db' = invoices db /\
      invoice_items db' = invoice_items db /\ items_seq db' = items_seq db /\
      counters db' = counters db
  | Invoices =>
      patients db' = patients db /\ checkins db' = checkins db /\
      (forall k, ("invoice" =? k) = false ->
                 counter_value k (counters db') = counter_value k (counters db))
  end.

(** The two [initCounter.run] calls of [db.js], which every start of the
    program runs on the store as the last run left it. *)
Definition seed_counters (db : DB) : DB :=
  initCounter "patient" 10000 (initCounter "invoice" 1 db).

(** Two lines, the second with a null name, and the invoice they belong to. *)
Definition named_line : line_item := mkLine (VStr "Consultation") 1 100 0 100.
Definition unnamed_line : line_item := mkLine VNull 1 50 0 50.

Definition draft_obj : invoice_obj :=
  mkInvoiceObj "IN:01-2411-0001" VNull (VStr "") (VStr "") "Ann" (VStr "")
               (VStr "2024-11-03") 150 0 150 0 150 VNull (VStr "Draft") VNull.


(** Every stored patient id and invoice ref was built from a number that
    its counter has passed. *)
Definition numbered (db : DB) : Prop :=
  (exists c, counter_value "patient" (counters db) = Some c /\ (0 <= c)%Z /\
     forall p, In p (patients db) ->
               exists k, p_id p = patient_id_of k /\ (0 <= k < c)%Z) /\
  (exists c, counter_value "invoice" (counters db) = Some c /\ (0 <= c)%Z /\
     forall i, In i (invoices db) ->
               exists e k, i_ref i = invoice_ref_of e k /\ (0 <= k < c)%Z).

(** Every patient id, every invoice ref of [db'] is one of [db]. *)
Definition no_new_patient (db db' : DB) : Prop :=
  forall p', In p' (patients db') -> exists p, In p (patients db) /\ p_id p = p_id p'.

Definition no_new_invoice (db db' : DB) : Prop :=
  forall i', In i' (invoices db') -> exists i, In i (invoices db) /\ i_ref i = i_ref i'.

(** An invoice request that pays more than the two items cost. *)
Definition overpaid_body : value := invoice_body (VNum 500).












(* ================================================================== *)
(** * Properties *)

(** ** Numbers and REAL cells *)

Lemma SFcompare_refl (x : spec_float) : x <> S754_nan -> SFcompare x x = Some Eq.
Proof.
  destruct x as [s|s| |s m e]; simpl; intros Hx; try congruence.
  - destruct s; reflexivity.
  - rewrite Z.compare_refl, Pos.compare_refl. destruct s; reflexivity.
Qed.

(** There is one NaN: a REAL cell that is NaN is the NULL cell. *)
Lemma is_nan_eq (c : float) : is_nan c = true -> c = nan.
Proof.
  unfold is_nan. rewrite FloatAxioms.eqb_spec. unfold SFeqb. intros Hc.
  apply Prim2SF_inj.
  destruct (Prim2SF c) eqn:E; try reflexivity;
    rewrite SFcompare_refl in Hc by congruence; discriminate.
Qed.

(** Reading a cell and binding it again stores the same cell. *)
Lemma to_real_of_real (c : real) : to_real (of_real c) = c.
Proof.
  unfold of_real. destruct (is_nan c) eqn:E; simpl;
    [symmetry; now apply is_nan_eq | reflexivity].
Qed.


Lemma num_or_zero (x d : float) : is_zero x = true -> num_or x d = d.
Proof. unfold num_or, number_truthy. intros ->. now rewrite orb_true_r. Qed.

Lemma num_or_nan (x d : float) : is_nan x = true -> num_or x d = d.
Proof. unfold num_or, number_truthy. intros ->. reflexivity. Qed.

Lemma num_or_truthy (x d : float) :
  is_nan x = false -> is_zero x = false -> num_or x d = x.
Proof. unfold num_or, number_truthy. intros -> ->. reflexivity. Qed.

(** ** Patient ids are read back *)

Lemma uint_of_string_zeros (k : nat) (s : string) (d : Decimal.uint) :
  NilEmpty.uint_of_string s = Some d ->
  exists d', NilEmpty.uint_of_string (replicate k "0" ++ s) = Some d' /\
             Z.of_uint d' = Z.of_uint d.
Proof.
  intros Hs. induction k as [|k IH]; simpl.
  - now exists d.
  - destruct IH as [d' [E1 E2]]. rewrite E1. simpl.
    exists (Decimal.D0 d'). split; [reflexivity | exact E2].
Qed.

Lemma String_of_Z_digits (n : Z) : (0 <= n)%Z ->
  exists d, NilEmpty.uint_of_string (String_of_Z n) = Some d /\ Z.of_uint d = n.
Proof.
  intros Hn. unfold String_of_Z.
  destruct n as [|p|p]; [| |lia].
  - simpl. exists (Decimal.D0 Decimal.Nil). split; reflexivity.
  - simpl. unfold NilZero.string_of_uint.
    assert (Hv : Z.of_uint (Pos.to_uint p) = Z.pos p).
    { unfold Z.of_uint. rewrite DecimalPos.Unsigned.of_to. reflexivity. }
    destruct (Pos.to_uint p) eqn:E;
      [ discriminate Hv
      | rewrite <- E in *; exists (Pos.to_uint p);
        split; [apply NilEmpty.usu | exact Hv] .. ].
Qed.

Lemma id_number_patient_id_of (n : Z) :
  (0 <= n)%Z -> id_number (patient_id_of n) = Some n.
Proof.
  intros Hn. unfold patient_id_of, padStart.
  destruct (String_of_Z_digits n Hn) as [d [E1 E2]].
  destruct (uint_of_string_zeros (5 - String.length (String_of_Z n)) _ _ E1)
    as [d' [E3 E4]].
  set (t := (replicate _ _ ++ String_of_Z n)%string) in *.
  cbn [append id_number]. rewrite E3. congruence.
Qed.

Lemma patient_id_of_inj (n m : Z) : (0 <= n)%Z -> (0 <= m)%Z ->
  patient_id_of n = patient_id_of m -> n = m.
Proof.
  intros Hn Hm E. apply (f_equal id_number) in E.
  rewrite !id_number_patient_id_of in E by assumption. congruence.
Qed.

(** ** Lists *)

Lemma existsb_false_iff {A} (f : A -> bool) (l : list A) :
  existsb f l = false <-> forall x, In x l -> f x = false.
Proof.
  split.
  - intros H x Hx. destruct (f x) eqn:E; [|reflexivity].
    assert (existsb f l = true) by (apply existsb_exists; eauto). congruence.
  - intros H. destruct (existsb f l) eqn:E; [|reflexivity].
    apply existsb_exists in E as [x [Hx Hf]]. rewrite (H x Hx) in Hf. discriminate.
Qed.

Lemma find_none_existsb {A} (f : A -> bool) (l : list A) :
  find f l = None -> existsb f l = false.
Proof.
  intros H. apply existsb_false_iff. intros x Hx.
  exact (find_none f l H x Hx).
Qed.

Lemma filter_negb_none {A} (f : A -> bool) (l : list A) :
  find f l = None -> filter (fun x => negb (f x)) l = l.
Proof.
  induction l as [|x l IH]; simpl; [reflexivity|].
  destruct (f x); [discriminate|]. intros H. simpl. f_equal. now apply IH.
Qed.

Lemma map_if_none {A} (f : A -> bool) (g : A -> A) (l : list A) :
  find f l = None -> map (fun x => if f x then g x else x) l = l.
Proof.
  induction l as [|x l IH]; simpl; [reflexivity|].
  destruct (f x); [discriminate|]. intros H. f_equal. now apply IH.
Qed.

(** The first row a key selects, after an update that keeps the key. *)
Lemma find_map_if {A} (f : A -> bool) (g : A -> A) (l : list A) (x : A) :
  (forall y, f y = true -> f (g y) = true) ->
  find f l = Some x ->
  find f (map (fun y => if f y then g y else y) l) = Some (g x).
Proof.
  intros Hg. induction l as [|y l IH]; simpl; [discriminate|].
  destruct (f y) eqn:E.
  - intros [= ->]. simpl. now rewrite (Hg x E).
  - intros H. simpl. rewrite E. now apply IH.
Qed.

(** ** Binding *)


Lemma bind_text_of_text `{Builtins} (t : text) : bind_text (of_text t) = Ret t.
Proof. destruct t; reflexivity. Qed.



(** ** The counter and patient ids *)

Lemma counter_value_incr (key : string) (rows : list (string * Z)) (v : Z) :
  counter_value key rows = Some v ->
  counter_value key (counter_incr key rows) = Some (v + 1)%Z.
Proof.
  induction rows as [|[k w] rows IH]; simpl; [discriminate|].
  destruct (k =? key) eqn:E; simpl; rewrite E; [congruence | exact IH].
Qed.

Lemma counter_value_incr_other (key k' : string) (rows : list (string * Z)) :
  (key =? k') = false ->
  counter_value k' (counter_incr key rows) = counter_value k' rows.
Proof.
  intros Hk. induction rows as [|[k w] rows IH]; simpl; [reflexivity|].
  destruct (k =? key) eqn:E; simpl.
  - apply String.eqb_eq in E. subst k. rewrite Hk. exact IH.
  - destruct (k =? k'); [reflexivity | exact IH].
Qed.

Lemma nextCounter_seeded (key : string) (v : Z) (db : DB) :
  counter_value key (counters db) = Some v ->
  nextCounter key db = (Ret v, set_counters (counter_incr key (counters db)) db).
Proof.
  intros Hv. unfold nextCounter, bind, gets, modify, ret. rewrite Hv. reflexivity.
Qed.





(** ** Patients: lookup and partial update *)

Lemma update_result `{Builtins} (id : string) (name type breed colour age gender : value)
      (weight : real) (owner_name phone email address : value) (db : DB) :
  let r := patientQueries.update (VStr id) name type breed colour age gender weight
             owner_name phone email address db in
  snd r = db \/
  exists name' type' breed' colour' age' gender' owner' phone' email' address',
    bind_text name = Ret (Some name') /\ bind_text type = Ret type' /\
    bind_text breed = Ret breed' /\ bind_text colour = Ret colour' /\
    bind_text age = Ret age' /\ bind_text gender = Ret gender' /\
    bind_text owner_name = Ret (Some owner') /\ bind_text phone = Ret phone' /\
    bind_text email = Ret email' /\ bind_text address = Ret address' /\
    snd r = set_patients
              (map (fun p => if p_id p =? id
                             then patient_set name' type' breed' colour' age' gender'
                                    weight owner' phone' email' address' p
                             else p) (patients db)) db.
Proof.
  cbv zeta. unfold patientQueries.update, bind, lift, gets, modify, ret.
  destruct (bind_text name) as [name'|]; [|now left].
  destruct (bind_text type) as [type'|]; [|now left].
  destruct (bind_text breed) as [breed'|]; [|now left].
  destruct (bind_text colour) as [colour'|]; [|now left].
  destruct (bind_text age) as [age'|]; [|now left].
  destruct (bind_text gender) as [gender'|]; [|now left].
  destruct (bind_text owner_name) as [owner'|]; [|now left].
  destruct (bind_text phone) as [phone'|]; [|now left].
  destruct (bind_text email) as [email'|]; [|now left].
  destruct (bind_text address) as [address'|]; [|now left].
  cbn [bind_value].
  destruct (existsb _ _); [|now left].
  destruct name' as [name'|]; [|now left].
  destruct owner' as [owner'|]; [|now left].
  right. exists name', type', breed', colour', age', gender', owner', phone', email', address'.
  repeat split; reflexivity.
Qed.

Lemma get_patient_found `{Builtins} (id : string) (db : DB) (p : patient) :
  find (fun q => p_id q =? id) (patients db) = Some p ->
  get_patient id db = (ok (PPatient (Some p)), db).
Proof.
  intros Hp. unfold get_patient, handle, patientQueries.getById, bind, lift, gets, ret.
  cbn. unfold text_eq. cbn. rewrite Hp. reflexivity.
Qed.

Lemma get_patient_missing `{Builtins} (id : string) (db : DB) :
  find (fun q => p_id q =? id) (patients db) = None ->
  get_patient id db = (err "Patient not found" 404, db).
Proof.
  intros Hp. unfold get_patient, handle, patientQueries.getById, bind, lift, gets, ret.
  cbn. unfold text_eq. cbn. rewrite Hp. reflexivity.
Qed.

Lemma put_patient_store `{Builtins} (id : string) (body : value) (db : DB) (p : patient) :
  find (fun q => p_id q =? id) (patients db) = Some p ->
  snd (put_patient id body db) =
    match prop body "name" with
    | Throw _ => db
    | Ret name =>
        snd (patientQueries.update
          (VStr id)
          (js_or name (VStr (p_name p)))
          (js_coalesce (get_field body "type") (of_text (p_type p)))
          (js_coalesce (get_field body "breed") (of_text (p_breed p)))
          (js_coalesce (get_field body "colour") (of_text (p_colour p)))
          (js_coalesce (get_field body "age") (of_text (p_age p)))
          (js_coalesce (get_field body "gender") (of_text (p_gender p)))
          (if negb (nullish (get_field body "weight"))
           then parseFloat (get_field body "weight") else p_weight p)
          (js_or (get_field body "owner_name") (VStr (p_owner_name p)))
          (js_coalesce (get_field body "phone") (of_text (p_phone p)))
          (js_coalesce (get_field body "email") (of_text (p_email p)))
          (js_coalesce (get_field body "address") (of_text (p_address p))) db)
    end.
Proof.
  intros Hp. unfold put_patient, handle.
  unfold bind at 1. unfold patientQueries.getById at 1.
  unfold bind at 1. unfold lift at 1. cbn [bind_args bind_arg_list bind_arg bind_value List.length Nat.ltb Nat.leb Datatypes.app].
  unfold gets at 1. unfold text_eq. cbn [as_text]. rewrite Hp.
  unfold bind at 1. unfold lift at 1.
  destruct (prop body "name") as [name|e]; [|reflexivity].
  unfold bind at 1.
  match goal with |- context [patientQueries.update ?a ?b ?c ?d ?e ?f ?g ?h ?i ?j ?k ?l db] =>
    destruct (patientQueries.update a b c d e f g h i j k l db) as [[[]|e'] db1] end;
    reflexivity.
Qed.

Lemma put_patient_frame `{Builtins} (id : string) (body : value) (db : DB) :
  let db' := snd (put_patient id body db) in
  checkins db' = checkins db /\ invoices db' = invoices db /\
  invoice_items db' = invoice_items db /\ items_seq db' = items_seq db /\
  counters db' = counters db.
Proof.
  cbv zeta.
  destruct (find (fun q => p_id q =? id) (patients db)) as [p|] eqn:Hp.
  - rewrite (put_patient_store id body db p Hp).
    destruct (prop body "name") as [name|e]; [|now repeat split].
    match goal with |- context [patientQueries.update ?a ?b ?c ?d ?e ?f ?g ?h ?i ?j ?k ?l db] =>
      destruct (update_result id b c d e f g h i j k l db) as [E|E] end.
    + rewrite E. now repeat split.
    + destruct E as (? & ? & ? & ? & ? & ? & ? & ? & ? & ? & E). 
      repeat match type of E with _ /\ _ => destruct E as [_ E] end.
      rewrite E. now repeat split.
  - unfold put_patient, handle, patientQueries.getById, bind, lift, gets, ret.
    cbn. unfold text_eq. cbn. rewrite Hp. now repeat split.
Qed.

(** C9.  PUT /api/patients/:id on a stored patient: whatever the body holds
    and whether or not the UPDATE goes through, the patient then fetched by
    GET /api/patients/:id has the id and creation time it had, and every
    field whose key is absent from the body has its previous value; the
    other patients and the other tables are as they were. *)
Theorem partial_update_keeps_absent_fields `{Builtins}
    (id : string) (body : value) (db : DB) (p : patient) :
  find (fun q => p_id q =? id) (patients db) = Some p ->
  let db' := snd (put_patient id body db) in
  exists p',
    find (fun q => p_id q =? id) (patients db') = Some p' /\
    get_patient id db' = (ok (PPatient (Some p')), db') /\
    p_id p' = p_id p /\
    p_created_at p' = p_created_at p /\
    (get_field body "name" = VUndefined -> p_name p' = p_name p) /\
    (get_field body "type" = VUndefined -> p_type p' = p_type p) /\
    (get_field body "breed" = VUndefined -> p_breed p' = p_breed p) /\
    (get_field body "colour" = VUndefined -> p_colour p' = p_colour p) /\
    (get_field body "age" = VUndefined -> p_age p' = p_age p) /\
    (get_field body "gender" = VUndefined -> p_gender p' = p_gender p) /\
    (get_field body "weight" = VUndefined -> p_weight p' = p_weight p) /\
    (get_field body "owner_name" = VUndefined -> p_owner_name p' = p_owner_name p) /\
    (get_field body "phone" = VUndefined -> p_phone p' = p_phone p) /\
    (get_field body "email" = VUndefined -> p_email p' = p_email p) /\
    (get_field body "address" = VUndefined -> p_address p' = p_address p) /\
    (forall q, In q (patients db) -> (p_id q =? id) = false -> In q (patients db')) /\
    checkins db' = checkins db /\ invoices db' = invoices db /\
    invoice_items db' = invoice_items db /\ counters db' = counters db.
Proof.
  intros Hp db'.
  assert (Hframe : checkins db' = checkins db /\ invoices db' = invoices db /\
                   invoice_items db' = invoice_items db /\ counters db' = counters db).
  { destruct (put_patient_frame id body db) as (? & ? & ? & ? & ?). now repeat split. }
  assert (Hsame : db' = db -> exists p',
    find (fun q => p_id q =? id) (patients db') = Some p' /\
    get_patient id db' = (ok (PPatient (Some p')), db') /\
    p_id p' = p_id p /\
    p_created_at p' = p_created_at p /\
    (get_field body "name" = VUndefined -> p_name p' = p_name p) /\
    (get_field body "type" = VUndefined -> p_type p' = p_type p) /\
    (get_field body "breed" = VUndefined -> p_breed p' = p_breed p) /\
    (get_field body "colour" = VUndefined -> p_colour p' = p_colour p) /\
    (get_field body "age" = VUndefined -> p_age p' = p_age p) /\
    (get_field body "gender" = VUndefined -> p_gender p' = p_gender p) /\
    (get_field body "weight" = VUndefined -> p_weight p' = p_weight p) /\
    (get_field body "owner_name" = VUndefined -> p_owner_name p' = p_owner_name p) /\
    (get_field body "phone" = VUndefined -> p_phone p' = p_phone p) /\
    (get_field body "email" = VUndefined -> p_email p' = p_email p) /\
    (get_field body "address" = VUndefined -> p_address p' = p_address p) /\
    (forall q, In q (patients db) -> (p_id q =? id) = false -> In q (patients db')) /\
    checkins db' = checkins db /\ invoices db' = invoices db /\
    invoice_items db' = invoice_items db /\ counters db' = counters db).
  { intros E. exists p. rewrite E.
    split; [exact Hp | split; [now apply get_patient_found|]].
    repeat split; auto. }
  subst db'. rewrite (put_patient_store id body db p Hp) in *.
  destruct (prop body "name") as [name|e] eqn:Hname; [|now apply Hsame].
  assert (Ename : name = get_field body "name").
  { destruct body; cbn in Hname |- *; congruence. }
  match goal with |- context [patientQueries.update ?a ?b ?c ?d ?e ?f ?g ?h ?i ?j ?k ?l db] =>
    destruct (update_result id b c d e f g h i j k l db) as [E|E] end;
    [now apply Hsame|]. clear Hsame.
  destruct E as (name' & type' & breed' & colour' & age' & gender' & owner' & phone' &
                 email' & address' & Bn & Bt & Bb & Bc & Ba & Bg & Bo & Bp & Be & Bd & E).
  rewrite E in *. cbn [patients set_patients] in *.
  eexists. split; [|split].
  - apply (find_map_if (fun q => p_id q =? id)
             (patient_set name' type' breed' colour' age' gender' _
                          owner' phone' email' address'));
      [intros y Hy; exact Hy | exact Hp].
  - apply get_patient_found. cbn [patients set_patients].
    apply (find_map_if (fun q => p_id q =? id)
             (patient_set name' type' breed' colour' age' gender' _
                          owner' phone' email' address'));
      [intros y Hy; exact Hy | exact Hp].
  - cbn [patient_set p_id p_created_at p_name p_type p_breed p_colour p_age p_gender p_weight
         p_owner_name p_phone p_email p_address].
    repeat match goal with |- _ /\ _ => split end; try reflexivity;
      try (intros Habs; rewrite ?Ename in *; rewrite Habs in *;
           cbn [js_or js_coalesce truthy nullish negb] in *;
           rewrite ?bind_text_of_text in *; cbn [bind_text bind_value as_text] in *;
           congruence);
      try apply Hframe.
    intros q Hq Hne. apply in_map_iff. exists q. rewrite Hne. auto.
Qed.

(** Rex gets a new phone number: name, type and owner stay. *)
Lemma partial_update_keeps_absent_fields_example :
  exists p',
    fst (@get_patient example_builtins "PaCPC-10000"
           (snd (@put_patient example_builtins "PaCPC-10000"
                   (VObj [("phone", VStr "555-0199")]) rex_db)))
      = ok (PPatient (Some p')) /\
    p_name p' = "Rex" /\ p_type p' = Some "Canine" /\ p_owner_name p' = "Ann".
Proof.
  destruct (@partial_update_keeps_absent_fields example_builtins "PaCPC-10000"
              (VObj [("phone", VStr "555-0199")]) rex_db rex)
    as (p' & _ & Hget & _ & _ & Hname & Htype & _ & _ & _ & _ & _ & Howner & _).
  - vm_compute. reflexivity.
  - exists p'. rewrite Hget. split; [reflexivity|].
    rewrite (Hname eq_refl), (Htype eq_refl), (Howner eq_refl). repeat split.
Defined.

(** ** Unknown ids *)

Lemma set_checkins_same (db : DB) : set_checkins (checkins db) db = db.
Proof. destruct db; reflexivity. Qed.
Lemma set_invoices_same (db : DB) : set_invoices (invoices db) db = db.
Proof. destruct db; reflexivity. Qed.
Lemma set_patients_same (db : DB) : set_patients (patients db) db = db.
Proof. destruct db; reflexivity. Qed.

Lemma filter_none {A} (f : A -> bool) (l : list A) : find f l = None -> filter f l = [].
Proof.
  induction l as [|x l IH]; simpl; [reflexivity|].
  destruct (f x); [discriminate | exact IH].
Qed.

Lemma filter_all {A} (l : list A) : filter (fun _ => true) l = l.
Proof. induction l as [|x l IH]; simpl; [reflexivity | now rewrite IH]. Qed.

Lemma delete_patient_throws `{Builtins} (id : string) (db : DB) :
  delete_patient id db =
    (mkResponse 500 false (PThrown (RangeError "Too few parameter values were provided")), db).
Proof. reflexivity. Qed.

Lemma put_patient_missing `{Builtins} (id : string) (body : value) (db : DB) :
  find (fun q => p_id q =? id) (patients db) = None ->
  put_patient id body db = (err "Patient not found" 404, db).
Proof.
  intros Hp. unfold put_patient, handle, patientQueries.getById, bind, lift, gets, ret.
  cbn. unfold text_eq. cbn. rewrite Hp. reflexivity.
Qed.

Lemma get_checkin_missing `{Builtins} (id : string) (db : DB) :
  find (fun c => c_id c =? id) (checkins db) = None ->
  get_checkin id db = (err "Check-in not found" 404, db).
Proof.
  intros Hc. unfold get_checkin, handle, checkinQueries.getById, bind, lift, gets, ret.
  cbn. unfold text_eq. cbn. rewrite Hc. reflexivity.
Qed.

Lemma delete_checkin_missing `{Builtins} (id : string) (db : DB) :
  find (fun c => c_id c =? id) (checkins db) = None ->
  delete_checkin id db = (ok (PDeleted id), db).
Proof.
  intros Hc. unfold delete_checkin, handle, checkinQueries.delete, bind, lift, modify, ret.
  cbn. unfold text_eq. cbn.
  rewrite (filter_negb_none (fun c => c_id c =? id) _ Hc), set_checkins_same. reflexivity.
Qed.

Lemma patch_checkin_missing `{Builtins} (id : string) (body : value) (db : DB) :
  find (fun c => c_id c =? id) (checkins db) = None ->
  is_str (get_field body "status") "open" || is_str (get_field body "status") "done" = true ->
  patch_checkin_status id body db = (ok (PCheckin None), db).
Proof.
  intros Hc Hst.
  assert (Hprop : prop body "status" = Ret (get_field body "status")).
  { destruct body; cbn in Hst |- *; try discriminate; reflexivity. }
  destruct (get_field body "status") as [| | | |s| |] eqn:Es; try discriminate Hst.
  unfold patch_checkin_status, handle, checkinQueries.updateStatus, checkinQueries.getById,
    bind, lift, modify, gets, ret.
  rewrite Hprop. cbn [is_str]. cbn [is_str] in Hst. rewrite Hst.
  cbn. unfold text_eq. cbn.
  rewrite (map_if_none (fun c => c_id c =? id) _ _ Hc), set_checkins_same.
  cbn. rewrite Hc. reflexivity.
Qed.

Lemma patch_checkin_invalid `{Builtins} (id : string) (body : value) (db : DB) :
  nullish body = false ->
  is_str (get_field body "status") "open" || is_str (get_field body "status") "done" = false ->
  patch_checkin_status id body db = (err "Invalid status" 400, db).
Proof.
  intros Hbody Hst.
  assert (Hprop : prop body "status" = Ret (get_field body "status")).
  { destruct body; try discriminate Hbody; reflexivity. }
  unfold patch_checkin_status, handle, bind, lift, ret.
  rewrite Hprop, Hst. reflexivity.
Qed.

Lemma get_invoice_missing `{Builtins} (ref : string) (db : DB) :
  find (fun i => i_ref i =? ref) (invoices db) = None ->
  get_invoice ref db = (err "Invoice not found" 404, db).
Proof.
  intros Hi. unfold get_invoice, handle, invoiceQueries.getById, bind, lift, gets, ret.
  cbn. unfold text_eq. cbn. rewrite Hi. reflexivity.
Qed.

Lemma patch_invoice_missing `{Builtins} (ref : string) (body : value) (db : DB) :
  find (fun i => i_ref i =? ref) (invoices db) = None ->
  patch_invoice_status ref body db = (err "Invoice not found" 404, db).
Proof.
  intros Hi. unfold patch_invoice_status, handle, invoiceQueries.getById, bind, lift, gets, ret.
  cbn. unfold text_eq. cbn. rewrite Hi. reflexivity.
Qed.

Lemma delete_invoice_missing `{Builtins} (ref : string) (db : DB) :
  find (fun i => i_ref i =? ref) (invoices db) = None ->
  delete_invoice ref db = (ok (PDeleted ref), db).
Proof.
  intros Hi. unfold delete_invoice, handle, invoiceQueries.delete, bind, lift, modify, ret.
  cbn. unfold text_eq. cbn.
  rewrite (filter_negb_none (fun i => i_ref i =? ref) _ Hi).
  rewrite (filter_none (fun i => i_ref i =? ref) _ Hi). cbn.
  rewrite filter_all. destruct db; reflexivity.
Qed.

(** ** Validation of create requests *)





(** ** Invoice creation *)

Lemma bind_text_nn_inv `{Builtins} (col : string) (v : value) (s : string) :
  bind_text_nn col v = Ret s -> bind_text v = Ret (Some s).
Proof.
  unfold bind_text_nn, not_null. destruct (bind_text v) as [[t|]|]; intros E; try discriminate E.
  now injection E as ->.
Qed.

Lemma invoice_insert_inv `{Builtins} (now : string)
    (ref pid pname ptype owner phone date : value)
    (sub disc total paid bal : real) (method st notes : value) (db db1 : DB) :
  invoiceQueries.insert now ref pid pname ptype owner phone date sub disc total paid bal
    method st notes db = (Ret tt, db1) ->
  exists inv,
    db1 = set_invoices (invoices db ++ [inv]) db /\
    bind_text ref = Ret (Some (i_ref inv)) /\
    bind_text pid = Ret (i_patient_id inv) /\
    bind_text pname = Ret (Some (i_patient_name inv)) /\
    bind_text ptype = Ret (i_patient_type inv) /\
    bind_text owner = Ret (Some (i_owner_name inv)) /\
    bind_text phone = Ret (i_phone inv) /\
    bind_text date = Ret (Some (i_date inv)) /\
    i_subtotal inv = sub /\ i_discount inv = disc /\ i_total inv = total /\
    i_paid_amount inv = paid /\ i_balance inv = bal /\
    bind_text method = Ret (i_method inv) /\
    bind_text st = Ret (i_status inv) /\
    bind_text notes = Ret (i_notes inv) /\
    i_created_at inv = now /\
    existsb (fun i => i_ref i =? i_ref inv) (invoices db) = false.
Proof.
  unfold invoiceQueries.insert, bind, lift, gets, modify, throw. intros Hrun.
  destruct (bind_text_nn "invoices.ref" ref) as [ref'|] eqn:E1; [|discriminate].
  destruct (bind_text pid) as [pid'|] eqn:E2; [|discriminate].
  destruct (bind_text_nn "invoices.patient_name" pname) as [pname'|] eqn:E3; [|discriminate].
  destruct (bind_text ptype) as [ptype'|] eqn:E4; [|discriminate].
  destruct (bind_text_nn "invoices.owner_name" owner) as [owner'|] eqn:E5; [|discriminate].
  destruct (bind_text phone) as [phone'|] eqn:E6; [|discriminate].
  destruct (bind_text_nn "invoices.date" date) as [date'|] eqn:E7; [|discriminate].
  destruct (bind_text method) as [method'|] eqn:E8; [|discriminate].
  destruct (bind_text st) as [st'|] eqn:E9; [|discriminate].
  destruct (bind_text notes) as [notes'|] eqn:E10; [|discriminate].
  destruct (existsb _ (invoices db)) eqn:E11; [discriminate|].
  destruct (negb (patient_ref_ok pid' db)); [discriminate|].
  injection Hrun as <-.
  eexists. split; [reflexivity|]. cbn.
  apply bind_text_nn_inv in E1, E3, E5, E7.
  repeat split; assumption.
Qed.

Lemma insert_items_inv `{Builtins} (ref : string) (lines : list line_item) :
  forall (db db1 : DB),
    insert_items ref lines db = (Ret tt, db1) ->
    exists rows,
      db1 = set_items (invoice_items db ++ rows)
                      (items_seq db + Z.of_nat (List.length lines)) db /\
      Forall2 stores_line lines rows /\
      Forall (fun r => it_invoice_ref r = Some ref) rows.
Proof.
  induction lines as [|l lines IH]; intros db db1 Hrun.
  - cbn in Hrun. injection Hrun as <-. exists []. cbn.
    rewrite List.app_nil_r, Z.add_0_r. destruct db. repeat split; constructor.
  - cbn [insert_items] in Hrun. unfold bind at 1 in Hrun.
    destruct (invoiceQueries.insertItem (VStr ref) (l_name l) (l_quantity l)
                (l_unit_price l) (l_discount l) (l_total l) db) as [[[]|e] db2] eqn:E;
      [|discriminate].
    unfold invoiceQueries.insertItem, bind, lift, gets, modify, throw in E.
    cbn [bind_text bind_value as_text] in E.
    destruct (bind_text_nn "invoice_items.name" (l_name l)) as [name'|]; [|discriminate].
    destruct (negb _); [discriminate|].
    injection E as <-.
    destruct (IH _ _ Hrun) as (rows & -> & Hrows & Href).
    eexists (_ :: rows). split; [|split].
    + unfold set_items. cbn. f_equal; [rewrite <- List.app_assoc; reflexivity | lia].
    + constructor; [|exact Hrows]. repeat split; reflexivity.
    + constructor; [reflexivity | exact Href].
Qed.

Lemma existsb_false_find {A} (f : A -> bool) (l : list A) :
  existsb f l = false -> find f l = None.
Proof.
  induction l as [|x l IH]; simpl; [reflexivity|].
  destruct (f x); simpl; [discriminate | exact IH].
Qed.

Lemma find_app_last {A} (f : A -> bool) (l : list A) (x : A) :
  find f l = None -> f x = true -> find f (l ++ [x]) = Some x.
Proof.
  induction l as [|y l IH]; simpl; intros Hl Hx; [now rewrite Hx|].
  destruct (f y); [discriminate | now apply IH].
Qed.

Lemma createInvoice_inv `{Builtins} (now : string) (obj : invoice_obj)
    (lines : list line_item) (db db1 : DB) (saved : option invoice) :
  createInvoice now obj lines db = (Ret saved, db1) ->
  exists inv rows,
    saved = Some inv /\
    db1 = set_items (invoice_items db ++ rows)
            (items_seq db + Z.of_nat (List.length lines))
            (set_invoices (invoices db ++ [inv]) db) /\
    Forall2 stores_line lines rows /\
    Forall (fun r => it_invoice_ref r = Some (i_ref inv)) rows /\
    i_ref inv = o_ref obj /\
    i_owner_name inv = o_owner_name obj /\
    bind_text (o_patient_id obj) = Ret (i_patient_id inv) /\
    bind_text (o_patient_name obj) = Ret (Some (i_patient_name inv)) /\
    bind_text (o_patient_type obj) = Ret (i_patient_type inv) /\
    bind_text (o_phone obj) = Ret (i_phone inv) /\
    i_subtotal inv = o_subtotal obj /\ i_discount inv = o_discount obj /\
    i_total inv = o_total obj /\ i_paid_amount inv = o_paid_amount obj /\
    i_balance inv = o_balance obj /\
    bind_text (o_status obj) = Ret (i_status inv).
Proof.
  unfold createInvoice, transaction. intros Hrun.
  match type of Hrun with (match ?m db with _ => _ end) = _ =>
    destruct (m db) as [[s|e] db2] eqn:E; [|discriminate] end.
  injection Hrun as -> ->.
  unfold bind at 1 in E.
  match type of E with (let (_, _) := ?m in _) = _ =>
    destruct m as [[[]|e] db3] eqn:Eins; [|discriminate] end.
  apply invoice_insert_inv in Eins.
  destruct Eins as (inv & -> & Bref & Bpid & Bpn & Bpt & Bown & Bph & Bdate & Hsub & Hdisc &
                    Htot & Hpaid & Hbal & Bm & Bst & Bnotes & Hnow & Hfresh).
  unfold bind at 1 in E.
  match type of E with (let (_, _) := ?m in _) = _ =>
    destruct m as [[[]|e] db4] eqn:Eitems; [|discriminate] end.
  apply insert_items_inv in Eitems. destruct Eitems as (rows & -> & Hrows & Hrefs).
  cbn [bind_text bind_value as_text] in Bref, Bown.
  injection Bref as Eref. injection Bown as Eown.
  unfold invoiceQueries.getById, bind, lift, gets, ret in E.
  cbn [bind_args bind_arg_list bind_arg bind_value List.length Nat.ltb Nat.leb
       Datatypes.app invoices set_items set_invoices] in E.
  unfold text_eq in E. cbn [as_text] in E.
  rewrite (find_app_last (fun i => i_ref i =? o_ref obj)) in E.
  - injection E as <-. exists inv, rows.
    cbn [invoice_items items_seq set_invoices] .
    rewrite <- Eref.
    repeat split; auto.
  - apply existsb_false_find. rewrite Eref. exact Hfresh.
  - rewrite <- Eref. apply String.eqb_refl.
Qed.

Lemma js_or_text_empty `{Builtins} (t : text) :
  bind_text (js_or (of_text t) (VStr "")) = Ret (Some (text_or_empty t)).
Proof.
  destruct t as [s|]; [|reflexivity].
  unfold js_or. cbn [of_text truthy].
  destruct (s =? "") eqn:E; cbn [negb bind_text bind_value as_text text_or_empty].
  - apply String.eqb_eq in E. now subst s.
  - reflexivity.
Qed.

Lemma createInvoice_throw `{Builtins} (now : string) (obj : invoice_obj)
    (lines : list line_item) (db db1 : DB) (ex : exn) :
  createInvoice now obj lines db = (Throw ex, db1) -> db1 = db.
Proof.
  unfold createInvoice, transaction.
  match goal with |- (match ?m db with _ => _ end) = _ -> _ =>
    destruct (m db) as [[s|e] db2] end; congruence.
Qed.

Lemma tables_kept_refl (db : DB) : tables_kept db db.
Proof. now repeat split. Qed.

Lemma tables_kept_counters (l : list (string * Z)) (db : DB) :
  tables_kept db (set_counters l db).
Proof. now repeat split. Qed.

Create HintDb store.
#[local] Hint Resolve tables_kept_refl tables_kept_counters : store.

Lemma post_invoices_with_cases `{Builtins}
    (lookup : list value -> Q (option patient))
    (e : env) (body : value) (db db' : DB) (resp : response) :
  (forall args s, snd (lookup args s) = s) ->
  handle (post_invoices_with lookup e body) db = (resp, db') ->
  (success resp = false /\ tables_kept db db') \/
  exists elems lines inv rows owner n its,
    get_field body "items" = VArr elems /\
    map_lines elems = Ret lines /\
    get_field body "owner_name" = VStr owner /\
    counter_value "invoice" (counters db) = Some n /\
    resp = ok (PInvoice inv its) /\
    db' = set_items (invoice_items db ++ rows)
            (items_seq db + Z.of_nat (List.length lines))
            (set_invoices (invoices db ++ [inv])
               (set_counters (counter_incr "invoice" (counters db)) db)) /\
    Forall2 stores_line lines rows /\
    Forall (fun r => it_invoice_ref r = Some (i_ref inv)) rows /\
    i_ref inv = invoice_ref_of e n /\
    i_owner_name inv = trim owner /\
    i_subtotal inv = subtotal_of lines /\
    i_discount inv = discount_of lines /\
    i_total inv = (subtotal_of lines - discount_of lines)%float /\
    i_paid_amount inv = num_or (parseFloat (get_field body "paid_amount")) 0 /\
    i_balance inv =
      Math_max 0 (subtotal_of lines - discount_of lines
                  - num_or (parseFloat (get_field body "paid_amount")) 0) /\
    bind_text (js_or (get_field body "status") (VStr "Draft")) = Ret (i_status inv) /\
    (forall pat,
       truthy (get_field body "patient_id") = true ->
       fst (lookup [get_field body "patient_id"] db) = Ret (Some pat) ->
       i_patient_name inv = p_name pat /\
       i_patient_type inv = Some (text_or_empty (p_type pat)) /\
       i_phone inv = Some (text_or_empty (p_phone pat))).
Proof.
  intros Hro Hrun.
  unfold handle, post_invoices_with in Hrun.
  unfold bind at 1 in Hrun. unfold lift at 1 in Hrun.
  destruct body as [| | | | | |fields];
    try (cbn in Hrun; injection Hrun as <- <-; left; auto with store).
  cbn [prop get_field] in Hrun |- *.
  unfold bind at 1 in Hrun. unfold lift at 1 in Hrun.
  unfold bind at 1 in Hrun. unfold lift at 1 in Hrun.
  unfold bind at 1 in Hrun. unfold lift at 1 in Hrun.
  unfold bind at 1 in Hrun. unfold lift at 1 in Hrun.
  destruct (assoc "owner_name" fields) as [| | | |owner| |] eqn:Eo;
    try (cbn in Hrun; injection Hrun as <- <-; left; auto with store).
  cbn [opt_trim truthy] in Hrun.
  destruct (trim owner =? "") eqn:Eow; cbn [negb] in Hrun;
    [cbn in Hrun; injection Hrun as <- <-; left; auto with store|].
  destruct (truthy (assoc "date" fields)) eqn:Ed; cbn [negb] in Hrun;
    [|cbn in Hrun; injection Hrun as <- <-; left; auto with store].
  destruct (has_length (assoc "items" fields)) eqn:Ei; cbn [negb] in Hrun;
    [|cbn in Hrun; injection Hrun as <- <-; left; auto with store].
  unfold bind at 1 in Hrun.
  match type of Hrun with
  | (let (_, _) := (let (_, _) := ?m db in _) in _) = _ =>
      destruct (m db) as [[snap|ex] db1] eqn:Esnap
  end.
  all: assert (Hdb1 : db1 = db) by
    (destruct (truthy (assoc "patient_id" fields));
     [ unfold bind in Esnap; pose proof (Hro [assoc "patient_id" fields] db) as Hs;
       destruct (lookup [assoc "patient_id" fields] db) as [[[pat|]|ex'] s1];
       cbn [snd] in Hs; subst s1; unfold ret in Esnap; congruence
     | unfold ret in Esnap; congruence ]).
  all: subst db1.
  2: { injection Hrun as <- <-. left; auto with store. }
  unfold bind at 1 in Hrun. unfold lift at 1 in Hrun.
  destruct (lineItems (assoc "items" fields)) as [lines|ex] eqn:El;
    [|injection Hrun as <- <-; left; auto with store].
  destruct (assoc "items" fields) as [| | | | |elems|] eqn:Eitems; try discriminate El.
  cbn [lineItems] in El.
  unfold bind at 1 in Hrun. unfold generateInvoiceRef, nextCounter in Hrun.
  unfold bind at 1 2 in Hrun. unfold gets at 1 in Hrun.
  destruct (counter_value "invoice" (counters db)) as [n|] eqn:En;
    [|cbn in Hrun; injection Hrun as <- <-; left; auto with store].
  unfold bind at 1 in Hrun. unfold modify at 1 in Hrun. unfold ret at 1 2 in Hrun.
  unfold bind at 1 in Hrun.
  match type of Hrun with
  | (let (_, _) := (let (_, _) := ?m in _) in _) = _ =>
      destruct m as [[saved|ex] db2] eqn:Ecreate
  end.
  2: { apply createInvoice_throw in Ecreate. subst db2.
       injection Hrun as <- <-. left; auto with store. }
  apply createInvoice_inv in Ecreate.
  destruct Ecreate as (inv & rows & -> & -> & Hrows & Hrefs & Href & Hown & Bpid & Bpn &
                       Bpt & Bph & Hsub & Hdisc & Htot & Hpaid & Hbal & Bst).
  cbn [o_ref o_owner_name o_patient_id o_patient_name o_patient_type o_phone o_subtotal
       o_discount o_total o_paid_amount o_balance o_status] in *.
  unfold invoiceQueries.getItems, bind, lift, gets, ret in Hrun.
  cbn [bind_args bind_arg_list bind_arg bind_value List.length Nat.ltb Nat.leb
       Datatypes.app] in Hrun.
  injection Hrun as <- <-.
  right. exists elems, lines, inv, rows, owner, n. eexists.
  cbn [counters invoices invoice_items items_seq set_counters set_invoices set_items].
  repeat match goal with |- _ /\ _ => split end; try reflexivity; try assumption.
  intros pat Hpid Hlook. rewrite Hpid in Esnap. unfold bind in Esnap.
  destruct (lookup [assoc "patient_id" fields] db) as [[[pat'|]|ex] s1];
    cbn [fst] in Hlook; try discriminate Hlook.
  injection Hlook as ->. unfold ret in Esnap. injection Esnap as <-.
  cbn [fst snd] in Bpn, Bpt, Bph.
  cbn [bind_text bind_value as_text] in Bpn.
  rewrite js_or_text_empty in Bpt, Bph.
  repeat split; congruence.
Qed.

(** ** Line items and totals *)

Lemma getById_read_only `{Builtins} (args : list value) (db : DB) :
  snd (patientQueries.getById args db) = db.
Proof.
  unfold patientQueries.getById, bind, lift, gets, ret.
  destruct (bind_args 2 args) as [xs|e]; [|reflexivity].
  destruct xs as [|x1 [|x2 [|x3 xs]]]; reflexivity.
Qed.


Lemma line_of_fields `{Builtins} (item : value) (l : line_item) :
  line_of item = Ret l ->
  l_quantity l = num_or (parseFloat (get_field item "quantity")) 1 /\
  l_unit_price l = num_or (parseFloat (get_field item "unit_price")) 0 /\
  l_discount l = num_or (parseFloat (get_field item "discount")) 0 /\
  l_total l = (l_quantity l * l_unit_price l - l_discount l)%float.
Proof.
  unfold line_of. destruct (prop item "name"); [|discriminate].
  intros [= <-]. cbn. repeat split; reflexivity.
Qed.

Lemma map_lines_Forall2 `{Builtins} (elems : list value) :
  forall lines, map_lines elems = Ret lines ->
                Forall2 (fun item l => line_of item = Ret l) elems lines.
Proof.
  induction elems as [|item elems IH]; intros lines Hl; cbn in Hl.
  - injection Hl as <-. constructor.
  - destruct (line_of item) as [l|] eqn:E; [|discriminate].
    destruct (map_lines elems) as [ls|]; [|discriminate].
    injection Hl as <-. constructor; [exact E | now apply IH].
Qed.

Lemma Forall2_impl {A B} (P Q : A -> B -> Prop) (l : list A) (l' : list B) :
  (forall a b, P a b -> Q a b) -> Forall2 P l l' -> Forall2 Q l l'.
Proof. intros HPQ HP. induction HP; constructor; auto. Qed.

Lemma Forall2_compose {A B C} (P : A -> B -> Prop) (Q : B -> C -> Prop)
    (l : list A) (m : list B) (n : list C) :
  Forall2 P l m -> Forall2 Q m n -> Forall2 (fun a c => exists b, P a b /\ Q b c) l n.
Proof.
  intros HP. revert n. induction HP; intros n HQ; inversion HQ; subst; constructor; eauto.
Qed.


(** C10.  In POST /api/invoices the fallback of [parseFloat(x) || d] applies
    to the parsed value: in every stored invoice, a line whose quantity
    parses to zero (the number 0, or text the runtime reads as 0) is stored
    with quantity 1 and total 1 * unit_price - discount, a unit price or
    discount that parses to zero is stored as 0, and a paid amount that does
    not parse (NaN) is stored as 0. *)
Theorem zero_quantity_is_stored_as_one `{Builtins} :
  (forall e body db,
     let resp := fst (post_invoices e body db) in
     let db' := snd (post_invoices e body db) in
     (success resp = false /\
      invoices db' = invoices db /\ invoice_items db' = invoice_items db) \/
     (success resp = true /\
      exists elems inv rows,
        get_field body "items" = VArr elems /\
        invoices db' = invoices db ++ [inv] /\
        invoice_items db' = invoice_items db ++ rows /\
        Forall2 (fun item row =>
                   (is_zero (parseFloat (get_field item "quantity")) = true ->
                    it_quantity row = 1%float /\
                    it_total row = (1 * it_unit_price row - it_discount row)%float) /\
                   (is_zero (parseFloat (get_field item "unit_price")) = true ->
                    it_unit_price row = 0%float) /\
                   (is_zero (parseFloat (get_field item "discount")) = true ->
                    it_discount row = 0%float))
                elems rows /\
        (is_nan (parseFloat (get_field body "paid_amount")) = true ->
         i_paid_amount inv = 0%float))) /\
  (is_zero (parseFloat (VNum 0)) = true /\
   (forall s, is_zero (parseFloat_string s) = true ->
              is_zero (parseFloat (VStr s)) = true)) /\
  (exists inv row,
     fst (post_invoices example_env zero_quantity_body init_db)
       = ok (PInvoice inv [row]) /\
     it_quantity row = 1%float /\ it_unit_price row = 50%float /\
     it_discount row = 0%float /\ it_total row = 50%float /\
     i_paid_amount inv = 0%float).
Proof.
  split; [|split].
  - intros e body db resp db'.
    destruct (post_invoices_with_cases _ e body db db' resp getById_read_only
                (surjective_pairing _))
      as [[Hfail (_ & _ & Hi & Hit & _)]|Hcase]; [left; auto|].
    destruct Hcase as (elems & lines & inv & rows & owner & n & its & Hitems & Hlines & _ &
                       _ & Hresp & Hdb & Hrows & _ & _ & _ & _ & _ & _ & Hpaid & _).
    right. split; [now rewrite Hresp|].
    exists elems, inv, rows. rewrite Hdb.
    cbn [invoices invoice_items set_items set_invoices set_counters].
    repeat match goal with |- _ /\ _ => split end; try reflexivity; try assumption.
    + apply map_lines_Forall2 in Hlines.
      pose proof (Forall2_compose _ _ _ _ _ Hlines Hrows) as Hc.
      eapply Forall2_impl; [|exact Hc].
      intros item row (l & Hl & Hq & Hp & Hd & Ht).
      apply line_of_fields in Hl. destruct Hl as (Lq & Lp & Ld & Lt).
      rewrite Ht, Hq, Hp, Hd, Lt. split; [|split].
      * intros Hz. rewrite Lq, (num_or_zero _ _ Hz). split; reflexivity.
      * intros Hz. now rewrite Lp, (num_or_zero _ _ Hz).
      * intros Hz. now rewrite Ld, (num_or_zero _ _ Hz).
    + intros Hnan. now rewrite Hpaid, (num_or_nan _ _ Hnan).
  - split; [reflexivity | intros s Hs; exact Hs].
  - eexists. eexists. vm_compute. repeat split; reflexivity.
Qed.

(** ** Status and payment updates *)

Lemma patch_invoice_run `{Builtins} (ref : string) (body : value) (db : DB)
    (inv : invoice) (t : text) :
  find (fun i => i_ref i =? ref) (invoices db) = Some inv ->
  nullish body = false ->
  bind_text (js_or (get_field body "status") (of_text (i_status inv))) = Ret t ->
  exists its,
    patch_invoice_status ref body db =
      (ok (PInvoice (patched_invoice inv body t) its),
       set_invoices
         (map (fun i => if i_ref i =? ref
                        then invoice_set_status t
                               (i_paid_amount (patched_invoice inv body t))
                               (i_balance (patched_invoice inv body t)) i
                        else i)
              (invoices db)) db).
Proof.
  intros Hfind Hbody Hbind.
  assert (Hprop : prop body "status" = Ret (get_field body "status")).
  { destruct body; try discriminate Hbody; reflexivity. }
  unfold patch_invoice_status, handle.
  unfold bind at 1. unfold invoiceQueries.getById at 1.
  unfold bind at 1. unfold lift at 1.
  cbn [bind_args bind_arg_list bind_arg bind_value List.length Nat.ltb Nat.leb Datatypes.app].
  unfold gets at 1. unfold text_eq at 1. cbn [as_text]. rewrite Hfind.
  unfold bind at 1. unfold lift at 1. rewrite Hprop.
  unfold bind at 1. unfold invoiceQueries.updateStatus.
  unfold bind at 1. unfold lift at 1. rewrite Hbind.
  unfold bind at 1. unfold lift at 1. cbn [bind_value].
  unfold modify at 1.
  unfold bind at 1. unfold invoiceQueries.getById at 1.
  unfold bind at 1. unfold lift at 1.
  cbn [bind_args bind_arg_list bind_arg bind_value List.length Nat.ltb Nat.leb Datatypes.app].
  unfold gets at 1. unfold text_eq. cbn [as_text invoices set_invoices].
  match goal with
  | |- context [map (fun i => if _ then invoice_set_status ?a ?b ?c i else i) _] =>
      rewrite (find_map_if (fun i => i_ref i =? ref) (invoice_set_status a b c) _ inv
                 (fun y Hy => Hy) Hfind)
  end.
  unfold invoiceQueries.getItems, bind, lift, gets, ret.
  cbn [bind_args bind_arg_list bind_arg bind_value List.length Nat.ltb Nat.leb Datatypes.app].
  eexists. reflexivity.
Qed.

Lemma patch_invoice_cases `{Builtins} (ref : string) (body : value) (db : DB) :
  (success (fst (patch_invoice_status ref body db)) = false /\
   snd (patch_invoice_status ref body db) = db) \/
  exists inv t its,
    find (fun i => i_ref i =? ref) (invoices db) = Some inv /\
    nullish body = false /\
    bind_text (js_or (get_field body "status") (of_text (i_status inv))) = Ret t /\
    patch_invoice_status ref body db =
      (ok (PInvoice (patched_invoice inv body t) its),
       set_invoices
         (map (fun i => if i_ref i =? ref
                        then invoice_set_status t
                               (i_paid_amount (patched_invoice inv body t))
                               (i_balance (patched_invoice inv body t)) i
                        else i)
              (invoices db)) db).
Proof.
  destruct (find (fun i => i_ref i =? ref) (invoices db)) as [inv|] eqn:Hfind.
  - destruct (nullish body) eqn:Hbody.
    + left. unfold patch_invoice_status, handle, invoiceQueries.getById, bind, lift, gets.
      cbn [bind_args bind_arg_list bind_arg bind_value List.length Nat.ltb Nat.leb Datatypes.app].
      unfold text_eq. cbn [as_text]. rewrite Hfind.
      destruct body; try discriminate Hbody; split; reflexivity.
    + destruct (bind_text (js_or (get_field body "status") (of_text (i_status inv))))
        as [t|ex] eqn:Hbind.
      * right. destruct (patch_invoice_run ref body db inv t Hfind Hbody Hbind) as [its Hrun].
        exists inv, t, its. auto.
      * left.
        assert (Hprop : prop body "status" = Ret (get_field body "status")).
        { destruct body; try discriminate Hbody; reflexivity. }
        unfold patch_invoice_status, handle, invoiceQueries.getById,
          invoiceQueries.updateStatus, bind, lift, gets.
        cbn [bind_args bind_arg_list bind_arg bind_value List.length Nat.ltb Nat.leb
             Datatypes.app].
        unfold text_eq. cbn [as_text]. rewrite Hfind, Hprop, Hbind. split; reflexivity.
  - left. rewrite (patch_invoice_missing ref body db Hfind). split; reflexivity.
Qed.



Lemma is_str_inv (v : value) (lit : string) : is_str v lit = true -> v = VStr lit.
Proof.
  destruct v; cbn; try discriminate. intros E. apply String.eqb_eq in E. now subst.
Qed.

(** Against C2 as worded.  POST /api/invoices with status 'Paid' and no
    paid_amount stores a Paid invoice with paid_amount 0 and balance 100.
    And an invoice whose discount exceeds its subtotal (total -10), set to
    Draft by PATCH, has paid_amount 0 and balance = total = -10, which is
    not max(0, total - paid_amount): there the two halves of the worded
    invariant exclude each other. *)
Lemma paid_invoice_created_unpaid :
  (exists inv,
     invoices (snd (@post_invoices example_builtins example_env paid_unpaid_body init_db))
       = [inv] /\
     i_status inv = Some "Paid" /\
     ~ spec_invariant inv) /\
  (exists inv,
     invoices
       (snd (@patch_invoice_status example_builtins "IN:01-2411-0001"
               (VObj [("status", VStr "Draft")])
               (snd (@post_invoices example_builtins example_env over_discounted_body
                       init_db))))
       = [inv] /\
     i_status inv = Some "Draft" /\
     i_paid_amount inv = 0%float /\ i_balance inv = i_total inv /\
     ~ spec_invariant inv).
Proof.
  split.
  - eexists. split; [vm_compute; reflexivity|]. split; [reflexivity|].
    intros (_ & _ & Hpaid & _). destruct (Hpaid eq_refl) as [Hp _].
    cbn in Hp. apply (f_equal is_zero) in Hp. vm_compute in Hp. discriminate Hp.
  - eexists. split; [vm_compute; reflexivity|]. repeat split.
    intros (_ & Hbal & _).
    cbn in Hbal. apply (f_equal is_zero) in Hbal. vm_compute in Hbal. discriminate Hbal.
Qed.

(** C2, amended.  total = subtotal - discount holds of every stored invoice
    after POST /api/invoices and after PATCH /api/invoices/:ref/status when
    it held before (PATCH leaves subtotal, discount and total alone).  An
    invoice written by POST has balance = max(0, total - paid_amount), with
    status and paid_amount taken from the request independently of each
    other.  An invoice written by PATCH with effective status Paid has
    paid_amount = total and balance 0, with effective status Draft has
    paid_amount 0 and balance = total, and otherwise has balance =
    max(0, total - paid_amount) on the stored total and the supplied, else
    stored, paid amount as JS reads them. *)
Theorem invoice_invariant_by_operation `{Builtins} (db : DB) :
  Forall totals_consistent (invoices db) ->
  (forall e body,
     let r := post_invoices e body db in
     Forall totals_consistent (invoices (snd r)) /\
     (success (fst r) = true ->
      exists inv,
        invoices (snd r) = invoices db ++ [inv] /\
        i_total inv = (i_subtotal inv - i_discount inv)%float /\
        i_balance inv = Math_max 0 (i_total inv - i_paid_amount inv))) /\
  (forall ref body,
     let r := patch_invoice_status ref body db in
     Forall totals_consistent (invoices (snd r)) /\
     (success (fst r) = true ->
      exists inv inv' its,
        find (fun i => i_ref i =? ref) (invoices db) = Some inv /\
        fst r = ok (PInvoice inv' its) /\
        find (fun i => i_ref i =? ref) (invoices (snd r)) = Some inv' /\
        i_subtotal inv' = i_subtotal inv /\
        i_discount inv' = i_discount inv /\
        i_total inv' = i_total inv /\
        let st := js_or (get_field body "status") (of_text (i_status inv)) in
        (is_str st "Paid" = true ->
         i_status inv' = Some "Paid" /\
         i_paid_amount inv' = i_total inv' /\ i_balance inv' = 0%float) /\
        (is_str st "Draft" = true ->
         i_status inv' = Some "Draft" /\
         i_paid_amount inv' = 0%float /\ i_balance inv' = i_total inv') /\
        (is_str st "Paid" = false -> is_str st "Draft" = false ->
         i_balance inv' =
           Math_max 0
             (ToNumber (of_real (i_total inv))
              - (if nullish (get_field body "paid_amount")
                 then ToNumber (of_real (i_paid_amount inv))
                 else parseFloat (get_field body "paid_amount")))))).
Proof.
  intros Hinv. split.
  - intros e body r.
    destruct r as [resp db'] eqn:Hr. subst r. cbn [fst snd].
    destruct (post_invoices_with_cases _ e body db db' resp getById_read_only Hr)
      as [[Hfail Hkept]|Hcase].
    + split; [|congruence]. destruct Hkept as (_ & _ & -> & _). exact Hinv.
    + destruct Hcase as (elems & lines & inv & rows & owner & n & its & _ & _ & _ &
                         _ & _ & -> & _ & _ & _ & _ & Hsub & Hdisc & Htot & Hpaid &
                         Hbal & _).
      cbn [invoices set_items set_invoices set_counters].
      assert (Ht : i_total inv = (i_subtotal inv - i_discount inv)%float)
        by now rewrite Htot, Hsub, Hdisc.
      split.
      * apply Forall_app. split; [exact Hinv | constructor; [exact Ht | constructor]].
      * intros _. exists inv. split; [reflexivity | split; [exact Ht|]].
        now rewrite Hbal, Htot, Hpaid.
  - intros ref body r.
    destruct (patch_invoice_cases ref body db) as [[Hfail Hsame]|Hcase].
    + subst r. rewrite Hsame. split; [exact Hinv | congruence].
    + destruct Hcase as (inv & t & its & Hfind & Hbody & Hbind & Hrun).
      subst r. rewrite Hrun. cbn [fst snd invoices set_invoices]. split.
      * apply Forall_map. eapply Forall_impl; [|exact Hinv].
        intros i Hi. destruct (i_ref i =? ref); exact Hi.
      * intros _. exists inv, (patched_invoice inv body t), its.
        split; [exact Hfind | split; [reflexivity | split]].
        { apply (find_map_if (fun i => i_ref i =? ref)
                   (invoice_set_status t _ _) _ inv (fun y Hy => Hy) Hfind). }
        unfold patched_invoice.
        cbn [invoice_set_status i_status i_subtotal i_discount i_total i_paid_amount
             i_balance].
        repeat match goal with |- _ /\ _ => split end; try reflexivity.
        { intros Hst. rewrite Hst.
          apply is_str_inv in Hst. rewrite Hst in Hbind.
          cbn [bind_text bind_value as_text] in Hbind. injection Hbind as <-.
          rewrite Hst. cbn [is_str String.eqb Ascii.eqb Bool.eqb to_real].
          rewrite to_real_of_real. repeat split; reflexivity. }
        { intros Hst. rewrite Hst.
          apply is_str_inv in Hst. rewrite Hst in Hbind.
          cbn [bind_text bind_value as_text] in Hbind. injection Hbind as <-.
          rewrite to_real_of_real. repeat split; reflexivity. }
        { intros Hp Hd. rewrite Hp, Hd. cbn [to_real].
          destruct (nullish (get_field body "paid_amount")); reflexivity. }
Qed.

(** The store holding the unpaid invoice, before and after it is marked Paid. *)
Lemma invoice_invariant_by_operation_example :
  Forall totals_consistent (invoices invoice_db) /\
  Forall totals_consistent
    (invoices (snd (@patch_invoice_status example_builtins "IN:01-2411-0001"
                      (VObj [("status", VStr "Paid")]) invoice_db))).
Proof.
  assert (H0 : Forall totals_consistent (invoices invoice_db)).
  { vm_compute. constructor; [reflexivity | constructor]. }
  split; [exact H0|].
  apply (proj2 (@invoice_invariant_by_operation example_builtins invoice_db H0)
           "IN:01-2411-0001" (VObj [("status", VStr "Paid")])).
Defined.

(** ** Deleting a patient; check-in creation *)

Lemma refers_deleted (id : string) (fk : text) (l : list patient) :
  existsb (fun p => p_id p =? id) l = true ->
  existsb (cell_is fk) (map p_id (filter (fun p => p_id p =? id) l)) = cell_is fk id.
Proof.
  induction l as [|q l IH]; cbn [existsb filter]; [discriminate|].
  destruct (p_id q =? id) eqn:E; cbn [orb map existsb].
  - intros _. apply String.eqb_eq in E. rewrite E.
    destruct (cell_is fk id) eqn:Ec; [reflexivity|]. cbn [orb].
    destruct (existsb (fun p => p_id p =? id) l) eqn:El; [now apply IH|].
    rewrite (filter_none (fun p => p_id p =? id) l); [reflexivity|].
    now apply existsb_false_find.
  - exact IH.
Qed.

(** The DELETE statement itself, run on a stored patient, cascades as the
    schema says. *)
Lemma patient_delete_cascades `{Builtins} (id : string) (db : DB) (p : patient) :
  find (fun q => p_id q =? id) (patients db) = Some p ->
  exists db1,
    patientQueries.delete [VStr id] db = (Ret tt, db1) /\
    patients db1 = filter (fun q => negb (p_id q =? id)) (patients db) /\
    checkins db1 = filter (fun c => negb (cell_is (c_patient_id c) id)) (checkins db) /\
    invoices db1 =
      map (fun i => if cell_is (i_patient_id i) id then invoice_clear_patient i else i)
          (invoices db) /\
    invoice_items db1 = invoice_items db.
Proof.
  intros Hp. eexists. split; [reflexivity|].
  assert (He : existsb (fun q => p_id q =? id) (patients db) = true).
  { apply existsb_exists. exists p. apply find_some in Hp. exact Hp. }
  cbn [fst snd patients checkins invoices invoice_items]. unfold text_eq. cbn [as_text].
  repeat split.
  - apply filter_ext. intros c. now rewrite (refers_deleted id _ _ He).
  - apply map_ext. intros i. now rewrite (refers_deleted id _ _ He).
Qed.

(** C7, as the code runs.  DELETE /api/patients/:id looks the patient up
    with one value for the two placeholders of [patientQueries.getById]: the
    lookup throws, the answer is a 500 and the store is as it was, for every
    id and store.  Rex, the check-in and the invoice that reference him are
    all still stored after DELETE /api/patients/PaCPC-10000, the invoice
    with its patient_id; the DELETE statement the handler does not reach
    would have removed Rex and the check-in and nulled the invoice's
    patient_id. *)
Theorem delete_patient_never_deletes `{Builtins} :
  (forall id db,
     delete_patient id db =
       (mkResponse 500 false
          (PThrown (RangeError "Too few parameter values were provided")), db)) /\
  (let db' := snd (delete_patient "PaCPC-10000" linked_db) in
   patients db' = [rex] /\ checkins db' = [rex_checkin] /\ invoices db' = [rex_invoice]) /\
  (let db1 := snd (patientQueries.delete [VStr "PaCPC-10000"] linked_db) in
   patients db1 = [] /\ checkins db1 = [] /\
   invoices db1 = [invoice_clear_patient rex_invoice]).
Proof.
  split; [|split].
  - reflexivity.
  - cbv zeta. repeat split; reflexivity.
  - cbv zeta. repeat split; reflexivity.
Qed.

Lemma checkin_insert_inv `{Builtins} (now : string)
    (id pid pname owner doctor date complaint subjective objective assessment plan
     procedures medications followup st : value) (db db1 : DB) :
  checkinQueries.insert now id pid pname owner doctor date complaint subjective objective
    assessment plan procedures medications followup st db = (Ret tt, db1) ->
  exists c,
    db1 = set_checkins (checkins db ++ [c]) db /\
    bind_text id = Ret (Some (c_id c)) /\
    bind_text pid = Ret (c_patient_id c) /\
    bind_text pname = Ret (c_patient_name c) /\
    bind_text owner = Ret (c_owner_name c) /\
    bind_text doctor = Ret (Some (c_doctor c)) /\
    bind_text date = Ret (Some (c_date c)) /\
    bind_text st = Ret (c_status c) /\
    existsb (fun x => c_id x =? c_id c) (checkins db) = false.
Proof.
  unfold checkinQueries.insert, bind, lift, gets, modify, throw. intros Hrun.
  destruct (bind_text_nn "checkins.id" id) as [id'|] eqn:E1; [|discriminate].
  destruct (bind_text pid) as [pid'|] eqn:E2; [|discriminate].
  destruct (bind_text pname) as [pname'|] eqn:E3; [|discriminate].
  destruct (bind_text owner) as [owner'|] eqn:E4; [|discriminate].
  destruct (bind_text_nn "checkins.doctor" doctor) as [doctor'|] eqn:E5; [|discriminate].
  destruct (bind_text_nn "checkins.date" date) as [date'|] eqn:E6; [|discriminate].
  destruct (bind_text complaint); [|discriminate].
  destruct (bind_text subjective); [|discriminate].
  destruct (bind_text objective); [|discriminate].
  destruct (bind_text assessment); [|discriminate].
  destruct (bind_text plan); [|discriminate].
  destruct (bind_text procedures); [|discriminate].
  destruct (bind_text medications); [|discriminate].
  destruct (bind_text followup); [|discriminate].
  destruct (bind_text st) as [st'|] eqn:E7; [|discriminate].
  destruct (existsb _ (checkins db)) eqn:E8; [discriminate|].
  destruct (negb (patient_ref_ok pid' db)); [discriminate|].
  injection Hrun as <-.
  eexists. split; [reflexivity|]. cbn.
  apply bind_text_nn_inv in E1, E5, E6.
  repeat split; assumption.
Qed.

Lemma post_checkins_with_inv `{Builtins}
    (lookup : list value -> Q (option patient))
    (e : env) (body : value) (db db' : DB) (resp : response) :
  (forall args s, snd (lookup args s) = s) ->
  handle (post_checkins_with lookup e body) db = (resp, db') ->
  success resp = true ->
  exists c,
    db' = set_checkins (checkins db ++ [c]) db /\
    resp = ok (PCheckin (Some c)) /\
    (forall pat,
       truthy (get_field body "patient_id") = true ->
       fst (lookup [get_field body "patient_id"] db) = Ret (Some pat) ->
       c_patient_name c = Some (p_name pat) /\
       c_owner_name c = Some (p_owner_name pat)).
Proof.
  intros Hro Hrun Hok.
  unfold handle, post_checkins_with in Hrun.
  unfold bind at 1 in Hrun. unfold lift at 1 in Hrun.
  destruct body as [| | | | | |fields];
    try (cbn in Hrun; injection Hrun as <- <-; discriminate Hok).
  cbn [prop get_field] in Hrun |- *.
  unfold bind at 1 in Hrun. unfold lift at 1 in Hrun.
  unfold bind at 1 in Hrun. unfold lift at 1 in Hrun.
  unfold bind at 1 in Hrun. unfold lift at 1 in Hrun.
  destruct (assoc "doctor" fields) as [| | | |doctor| |] eqn:Edoc;
    try (cbn in Hrun; injection Hrun as <- <-; discriminate Hok).
  cbn [opt_trim truthy] in Hrun.
  destruct (trim doctor =? "") eqn:Ed; cbn [negb] in Hrun;
    [cbn in Hrun; injection Hrun as <- <-; discriminate Hok|].
  destruct (truthy (assoc "date" fields)) eqn:Edate; cbn [negb] in Hrun;
    [|cbn in Hrun; injection Hrun as <- <-; discriminate Hok].
  unfold bind at 1 in Hrun.
  match type of Hrun with
  | (let (_, _) := (let (_, _) := ?m db in _) in _) = _ =>
      destruct (m db) as [[names|ex] db1] eqn:Enames
  end.
  all: assert (Hdb1 : db1 = db) by
    (destruct (truthy (assoc "patient_id" fields));
     [ unfold bind in Enames; pose proof (Hro [assoc "patient_id" fields] db) as Hs;
       destruct (lookup [assoc "patient_id" fields] db) as [[[pat|]|ex'] s1];
       cbn [snd] in Hs; subst s1; unfold ret in Enames; congruence
     | unfold ret in Enames; congruence ]).
  all: subst db1.
  2: { injection Hrun as <- <-. discriminate Hok. }
  unfold bind at 1 in Hrun.
  match type of Hrun with
  | (let (_, _) := (let (_, _) := ?m in _) in _) = _ =>
      destruct m as [[[]|ex] db2] eqn:Eins;
      [|injection Hrun as <- <-; discriminate Hok]
  end.
  apply checkin_insert_inv in Eins.
  destruct Eins as (c & -> & Bid & Bpid & Bpn & Bown & Bdoc & Bdate & Bst & Hfresh).
  cbn [bind_text bind_value as_text] in Bid. injection Bid as Eid.
  unfold checkinQueries.getById, bind, lift, gets, ret in Hrun.
  cbn [bind_args bind_arg_list bind_arg bind_value List.length Nat.ltb Nat.leb
       Datatypes.app checkins set_checkins] in Hrun.
  unfold text_eq in Hrun. cbn [as_text] in Hrun.
  rewrite (find_app_last (fun x => c_id x =? _)) in Hrun.
  - injection Hrun as <- <-. exists c. split; [reflexivity | split; [reflexivity|]].
    intros pat Hpid Hlook. rewrite Hpid in Enames. unfold bind in Enames.
    destruct (lookup [assoc "patient_id" fields] db) as [[[pat'|]|ex] s1];
      cbn [fst] in Hlook; try discriminate Hlook.
    injection Hlook as ->. unfold ret in Enames. injection Enames as <-.
    cbn [fst snd bind_text bind_value as_text] in Bpn, Bown. split; congruence.
  - apply existsb_false_find. rewrite <- Eid in Hfresh. exact Hfresh.
  - rewrite <- Eid. apply String.eqb_refl.
Qed.

(** ** Responses to unknown ids, rejected creates, snapshots *)

(** C4, as the code runs.  For an id or ref that matches no stored record:
    GET and PUT on patients, GET on check-ins, GET and PATCH-status on
    invoices answer 404 with success false; DELETE on check-ins and on
    invoices answer 200 with success true, as does PATCH-status on check-ins
    for a valid status (400 for an invalid one); DELETE on patients answers
    500.  None changes the store. *)
Theorem unknown_id_responses `{Builtins} (id : string) (body : value) (db : DB) :
  (find (fun p => p_id p =? id) (patients db) = None ->
   get_patient id db = (err "Patient not found" 404, db) /\
   put_patient id body db = (err "Patient not found" 404, db) /\
   delete_patient id db =
     (mkResponse 500 false
        (PThrown (RangeError "Too few parameter values were provided")), db)) /\
  (find (fun c => c_id c =? id) (checkins db) = None ->
   get_checkin id db = (err "Check-in not found" 404, db) /\
   delete_checkin id db = (ok (PDeleted id), db) /\
   (is_str (get_field body "status") "open" || is_str (get_field body "status") "done"
      = true ->
    patch_checkin_status id body db = (ok (PCheckin None), db)) /\
   (nullish body = false ->
    is_str (get_field body "status") "open" || is_str (get_field body "status") "done"
      = false ->
    patch_checkin_status id body db = (err "Invalid status" 400, db))) /\
  (find (fun i => i_ref i =? id) (invoices db) = None ->
   get_invoice id db = (err "Invoice not found" 404, db) /\
   patch_invoice_status id body db = (err "Invoice not found" 404, db) /\
   delete_invoice id db = (ok (PDeleted id), db)).
Proof.
  split; [|split].
  - intros Hp. split; [now apply get_patient_missing | split].
    + now apply put_patient_missing.
    + reflexivity.
  - intros Hc. split; [now apply get_checkin_missing | split; [|split]].
    + now apply delete_checkin_missing.
    + intros Hst. now apply patch_checkin_missing.
    + intros Hbody Hst. now apply patch_checkin_invalid.
  - intros Hi. split; [now apply get_invoice_missing | split].
    + now apply patch_invoice_missing.
    + now apply delete_invoice_missing.
Qed.

Lemma unknown_id_responses_example :
  @delete_checkin example_builtins "CI-0" init_db = (ok (PDeleted "CI-0"), init_db) /\
  @delete_invoice example_builtins "IN:01-2411-0009" init_db
    = (ok (PDeleted "IN:01-2411-0009"), init_db) /\
  @get_invoice example_builtins "IN:01-2411-0009" init_db
    = (err "Invoice not found" 404, init_db).
Proof.
  split; [|split].
  - apply (proj2 (proj1 (proj2 (@unknown_id_responses example_builtins "CI-0" VNull init_db))
                    eq_refl)).
  - apply (proj2 (proj2 (@unknown_id_responses example_builtins "IN:01-2411-0009" VNull
                           init_db)) eq_refl).
  - apply (proj2 (proj2 (@unknown_id_responses example_builtins "IN:01-2411-0009" VNull
                           init_db)) eq_refl).
Defined.







(* ================================================================== *)
(** * The routes as operations on the store *)

Section Relates.
Context {A B : Type}.
Variable R : DB -> DB -> Prop.
Hypothesis R_refl : forall db, R db db.
Hypothesis R_trans : forall a b c, R a b -> R b c -> R a c.

Lemma relates_ret (a : A) : relates R (ret a).
Proof. intros db. apply R_refl. Qed.

Lemma relates_throw (e : exn) : relates R (@throw DB A e).
Proof. intros db. apply R_refl. Qed.

Lemma relates_lift (o : outcome A) : relates R (lift o).
Proof. intros db. apply R_refl. Qed.

Lemma relates_gets (f : DB -> A) : relates R (gets f).
Proof. intros db. apply R_refl. Qed.

Lemma relates_bind (m : Q A) (k : A -> Q B) :
  relates R m -> (forall a, relates R (k a)) -> relates R (bind m k).
Proof.
  intros Hm Hk db. unfold bind. specialize (Hm db).
  destruct (m db) as [[a|e] s]; cbn [snd] in *.
  - apply (R_trans _ s); [exact Hm | apply Hk].
  - exact Hm.
Qed.

Lemma relates_transaction (m : Q A) : relates R m -> relates R (transaction m).
Proof.
  intros Hm db. unfold transaction. specialize (Hm db).
  destruct (m db) as [[a|e] s]; cbn [snd] in *; [exact Hm | apply R_refl].
Qed.

End Relates.

Lemma relates_read_only {A} (R : DB -> DB -> Prop) (m : Q A) :
  (forall db, R db db) -> (forall db, snd (m db) = db) -> relates R m.
Proof. intros Hr Hm db. rewrite Hm. apply Hr. Qed.

Lemma snd_handle (m : Q response) (db : DB) : snd (handle m db) = snd (m db).
Proof. unfold handle. destruct (m db) as [[r|e] s]; reflexivity. Qed.

Lemma relates_handle (R : DB -> DB -> Prop) (m : Q response) :
  relates R m -> forall db, R db (snd (handle m db)).
Proof. intros Hm db. rewrite snd_handle. apply Hm. Qed.

Lemma checkin_getById_read_only `{Builtins} (args : list value) (db : DB) :
  snd (checkinQueries.getById args db) = db.
Proof.
  unfold checkinQueries.getById, bind, lift, gets, ret.
  destruct (bind_args 1 args) as [xs|e]; [|reflexivity].
  destruct xs as [|x1 [|x2 xs]]; reflexivity.
Qed.

Lemma invoice_getById_read_only `{Builtins} (args : list value) (db : DB) :
  snd (invoiceQueries.getById args db) = db.
Proof.
  unfold invoiceQueries.getById, bind, lift, gets, ret.
  destruct (bind_args 1 args) as [xs|e]; [|reflexivity].
  destruct xs as [|x1 [|x2 xs]]; reflexivity.
Qed.

Lemma getItems_read_only `{Builtins} (args : list value) (db : DB) :
  snd (invoiceQueries.getItems args db) = db.
Proof.
  unfold invoiceQueries.getItems, bind, lift, gets, ret.
  destruct (bind_args 1 args) as [xs|e]; [|reflexivity].
  destruct xs as [|x1 [|x2 xs]]; reflexivity.
Qed.

(** Any relation on stores that is reflexive and transitive and that each
    prepared statement keeps, as the routes call it, is kept by the routes. *)
Section Routes.
Context `{Builtins}.
Variable R : DB -> DB -> Prop.
Hypothesis R_refl : forall db, R db db.
Hypothesis R_trans : forall a b c, R a b -> R b c -> R a c.

Ltac relates_step :=
  first
    [ match goal with Hs : context [relates] |- _ => solve [apply Hs] end
    | apply relates_ret; assumption
    | apply relates_throw; assumption
    | apply relates_lift; assumption
    | apply relates_gets; assumption
    | apply relates_transaction; [assumption |]
    | apply relates_read_only; [assumption | solve
        [ apply getById_read_only | apply checkin_getById_read_only
        | apply invoice_getById_read_only | apply getItems_read_only
        | intros; auto ] ]
    | apply relates_bind; [assumption | | intros ?]
    | match goal with
      | |- relates _ (if ?c then _ else _) => destruct c eqn:?
      | |- relates _ (match ?x with _ => _ end) => destruct x
      end ].

Section Patients.
Hypothesis H_nextCounter : relates R (nextCounter "patient").
Hypothesis H_insert :
  forall now id name type breed colour age gender weight owner phone email address,
    relates R (patientQueries.insert now id name type breed colour age gender weight
                 owner phone email address).
Hypothesis H_update :
  forall id name type breed colour age gender weight owner phone email address,
    relates R (patientQueries.update id name type breed colour age gender weight
                 owner phone email address).

Lemma put_patient_relates (id : string) (body : value) (db : DB) :
  R db (snd (put_patient id body db)).
Proof.
  unfold put_patient. apply (relates_handle R). repeat relates_step.
Qed.

(** DELETE /api/patients/:id stops at its lookup, before the DELETE
    statement: nothing is asked of that statement. *)
Lemma patient_routes_relate (db : DB) :
  (forall id, R db (snd (get_patient id db))) /\
  (forall e body, R db (snd (post_patients e body db))) /\
  (forall id body, R db (snd (put_patient id body db))) /\
  (forall id, R db (snd (delete_patient id db))).
Proof.
  repeat split; intros.
  - unfold get_patient. apply (relates_handle R). repeat relates_step.
  - unfold post_patients. apply (relates_handle R). unfold generatePatientId. repeat relates_step.
    all: auto.
  - apply put_patient_relates.
  - unfold delete_patient. apply (relates_handle R). repeat relates_step. all: auto.
Qed.
End Patients.

Section Checkins.
Hypothesis H_insert :
  forall now id pid pname owner doctor date complaint subjective objective assessment
         plan procedures medications followup,
    relates R (checkinQueries.insert now id pid pname owner doctor date complaint
                 subjective objective assessment plan procedures medications followup
                 (VStr "open")).
Hypothesis H_update :
  forall st id,
    is_str st "open" || is_str st "done" = true ->
    relates R (checkinQueries.updateStatus [st; id]).
Hypothesis H_delete : forall args, relates R (checkinQueries.delete args).

Lemma checkin_routes_relate (db : DB) :
  (forall id, R db (snd (get_checkin id db))) /\
  (forall e body, R db (snd (post_checkins e body db))) /\
  (forall id body, R db (snd (patch_checkin_status id body db))) /\
  (forall id, R db (snd (delete_checkin id db))).
Proof.
  repeat split; intros.
  - unfold get_checkin. apply (relates_handle R). repeat relates_step.
  - unfold post_checkins, post_checkins_with. apply (relates_handle R). cbv zeta.
    repeat relates_step.
  - unfold patch_checkin_status. apply (relates_handle R).
    apply relates_bind; [assumption | relates_step | intros st].
    destruct (negb _) eqn:Hst; [relates_step|].
    apply negb_false_iff in Hst.
    apply relates_bind; [assumption | now apply H_update | intros _].
    repeat relates_step.
  - unfold delete_checkin. apply (relates_handle R). repeat relates_step.
Qed.
End Checkins.

Section Invoices.
Hypothesis H_nextCounter : relates R (nextCounter "invoice").
Hypothesis H_insert :
  forall now ref pid pname ptype owner phone date sub disc total paid bal method st notes,
    relates R (invoiceQueries.insert now ref pid pname ptype owner phone date sub disc
                 total paid bal method st notes).
Hypothesis H_insertItem :
  forall ref name q p d t, relates R (invoiceQueries.insertItem ref name q p d t).
Hypothesis H_update :
  forall st paid bal ref, relates R (invoiceQueries.updateStatus st paid bal ref).
Hypothesis H_delete : forall args, relates R (invoiceQueries.delete args).

Lemma insert_items_relates (ref : string) (items : list line_item) :
  relates R (insert_items ref items).
Proof.
  induction items as [|item items IH]; cbn [insert_items]; repeat relates_step.
Qed.

Lemma createInvoice_relates (now : string) (inv : invoice_obj) (items : list line_item) :
  relates R (createInvoice now inv items).
Proof.
  unfold createInvoice. pose proof insert_items_relates. repeat relates_step.
Qed.

Lemma invoice_routes_relate (db : DB) :
  (forall ref, R db (snd (get_invoice ref db))) /\
  (forall e body, R db (snd (post_invoices e body db))) /\
  (forall ref body, R db (snd (patch_invoice_status ref body db))) /\
  (forall ref, R db (snd (delete_invoice ref db))).
Proof.
  pose proof createInvoice_relates.
  repeat split; intros.
  - unfold get_invoice. apply (relates_handle R). repeat relates_step.
  - unfold post_invoices, post_invoices_with, generateInvoiceRef. apply (relates_handle R).
    cbv zeta. repeat relates_step.
  - unfold patch_invoice_status. apply (relates_handle R). cbv zeta. repeat relates_step.
  - unfold delete_invoice. apply (relates_handle R). repeat relates_step.
Qed.
End Invoices.
End Routes.

(** ** What each prepared statement does to the store *)

Ltac run_stmt :=
  unfold bind, lift, gets, modify, ret, throw; cbv beta iota;
  repeat (match goal with
          | |- context [match ?o with Ret _ => _ | Throw _ => _ end] =>
              destruct o eqn:?
          | |- context [if ?c then _ else _] => destruct c eqn:?
          end; cbv beta iota).

Lemma nextCounter_effect (key : string) (db : DB) :
  snd (nextCounter key db) = db \/
  snd (nextCounter key db) = set_counters (counter_incr key (counters db)) db.
Proof.
  unfold nextCounter, bind, gets, modify, ret, throw. cbv beta iota.
  destruct (counter_value key (counters db)); [right | left]; reflexivity.
Qed.

Lemma patient_insert_effect `{Builtins} (now : string)
    (id name type breed colour age gender : value) (weight : real)
    (owner phone email address : value) (db : DB) :
  let db' := snd (patientQueries.insert now id name type breed colour age gender weight
                    owner phone email address db) in
  db' = db \/
  exists p,
    existsb (fun q => p_id q =? p_id p) (patients db) = false /\
    db' = set_patients (patients db ++ [p]) db.
Proof.
  cbv zeta. unfold patientQueries.insert. run_stmt; auto.
  right. eexists. split; [|reflexivity]. assumption.
Qed.

Lemma patient_update_effect `{Builtins}
    (id name type breed colour age gender : value) (weight : real)
    (owner phone email address : value) (db : DB) :
  let db' := snd (patientQueries.update id name type breed colour age gender weight
                    owner phone email address db) in
  db' = db \/
  exists g : patient -> patient,
    (forall p, p_id (g p) = p_id p) /\
    db' = set_patients (map g (patients db)) db.
Proof.
  cbv zeta. unfold patientQueries.update. run_stmt; auto.
  right. eexists. split; [|reflexivity].
  intros p. cbv beta. destruct (text_eq (p_id p) _); reflexivity.
Qed.

Lemma patient_delete_effect `{Builtins} (args : list value) (db : DB) :
  snd (patientQueries.delete args db) = db \/
  exists x, snd (patientQueries.delete args db) = patient_delete_result x db.
Proof.
  unfold patientQueries.delete. run_stmt; auto.
  match goal with |- context [match ?l with [] => _ | _ => _ end] =>
    destruct l as [|x [|y l]] end; auto.
  right. exists x. reflexivity.
Qed.

Lemma checkin_insert_effect `{Builtins} (now : string)
    (id pid pname owner doctor date complaint subjective objective assessment plan
     procedures medications followup st : value) (db : DB) :
  let db' := snd (checkinQueries.insert now id pid pname owner doctor date complaint
                    subjective objective assessment plan procedures medications
                    followup st db) in
  db' = db \/
  exists c,
    existsb (fun x => c_id x =? c_id c) (checkins db) = false /\
    patient_ref_ok (c_patient_id c) db = true /\
    bind_text st = Ret (c_status c) /\
    db' = set_checkins (checkins db ++ [c]) db.
Proof.
  cbv zeta. unfold checkinQueries.insert. run_stmt; auto.
  right. eexists. split; [|split; [|split; [|reflexivity]]];
    cbn [c_id c_patient_id c_status]; try assumption; try reflexivity.
  now apply negb_false_iff.
Qed.

Lemma bind_args_inv (n : nat) (args : list value) (xs : list sqlval) :
  bind_args n args = Ret xs -> bind_arg_list args = Ret xs /\ List.length xs = n.
Proof.
  unfold bind_args. destruct (bind_arg_list args) as [ys|]; [|discriminate].
  destruct (_ <? n)%nat eqn:E1; [discriminate|].
  destruct (n <? _)%nat eqn:E2; [discriminate|].
  intros [= ->]. apply Nat.ltb_ge in E1, E2. split; [reflexivity | lia].
Qed.

Lemma checkin_update_effect `{Builtins} (args : list value) (db : DB) :
  let db' := snd (checkinQueries.updateStatus args db) in
  db' = db \/
  exists st x,
    bind_arg_list args = Ret [st; x] /\
    db' = set_checkins
            (map (fun c => if text_eq (c_id c) x then checkin_set_status (as_text st) c
                           else c) (checkins db)) db.
Proof.
  cbv zeta. unfold checkinQueries.updateStatus. run_stmt; auto.
  match goal with |- context [match ?l with [] => _ | _ => _ end] =>
    destruct l as [|st [|x [|y l]]] end; auto.
  right. exists st, x. split; [|reflexivity].
  match goal with E : bind_args _ _ = _ |- _ => apply bind_args_inv in E as [E _]; exact E end.
Qed.

Lemma checkin_delete_effect `{Builtins} (args : list value) (db : DB) :
  snd (checkinQueries.delete args db) = db \/
  exists x, snd (checkinQueries.delete args db) =
            set_checkins (filter (fun c => negb (text_eq (c_id c) x)) (checkins db)) db.
Proof.
  unfold checkinQueries.delete. run_stmt; auto.
  match goal with |- context [match ?l with [] => _ | _ => _ end] =>
    destruct l as [|x [|y l]] end; auto.
  right. exists x. reflexivity.
Qed.

Lemma invoice_insert_effect `{Builtins} (now : string)
    (ref pid pname ptype owner phone date : value)
    (sub disc total paid bal : real) (method st notes : value) (db : DB) :
  let db' := snd (invoiceQueries.insert now ref pid pname ptype owner phone date sub disc
                    total paid bal method st notes db) in
  db' = db \/
  exists inv,
    existsb (fun i => i_ref i =? i_ref inv) (invoices db) = false /\
    patient_ref_ok (i_patient_id inv) db = true /\
    db' = set_invoices (invoices db ++ [inv]) db.
Proof.
  cbv zeta. unfold invoiceQueries.insert. run_stmt; auto.
  right. eexists. split; [|split; [|reflexivity]];
    cbn [i_ref i_patient_id]; try assumption.
  now apply negb_false_iff.
Qed.

Lemma insertItem_effect `{Builtins} (ref name : value) (q p d t : real) (db : DB) :
  let db' := snd (invoiceQueries.insertItem ref name q p d t db) in
  db' = db \/
  exists it,
    it_id it = (items_seq db + 1)%Z /\
    invoice_ref_ok (it_invoice_ref it) db = true /\
    db' = set_items (invoice_items db ++ [it]) (items_seq db + 1) db.
Proof.
  cbv zeta. unfold invoiceQueries.insertItem. run_stmt; auto.
  right. eexists. split; [|split; [|reflexivity]];
    cbn [it_id it_invoice_ref]; [reflexivity|].
  unfold invoice_ref_ok. now apply negb_false_iff.
Qed.

Lemma invoice_update_effect `{Builtins} (st : value) (paid bal : real) (ref : value)
    (db : DB) :
  let db' := snd (invoiceQueries.updateStatus st paid bal ref db) in
  db' = db \/
  exists g : invoice -> invoice,
    (forall i, i_ref (g i) = i_ref i /\ i_patient_id (g i) = i_patient_id i) /\
    db' = set_invoices (map g (invoices db)) db.
Proof.
  cbv zeta. unfold invoiceQueries.updateStatus. run_stmt; auto.
  right. eexists. split; [|reflexivity].
  intros i. cbv beta. destruct (text_eq (i_ref i) _); split; reflexivity.
Qed.

Lemma invoice_delete_effect `{Builtins} (args : list value) (db : DB) :
  snd (invoiceQueries.delete args db) = db \/
  exists x, snd (invoiceQueries.delete args db) = invoice_delete_result x db.
Proof.
  unfold invoiceQueries.delete. run_stmt; auto.
  match goal with |- context [match ?l with [] => _ | _ => _ end] =>
    destruct l as [|x [|y l]] end; auto.
  right. exists x. reflexivity.
Qed.

(** ** Primary keys *)

Lemma keeps_refl (I : DB -> Prop) (db : DB) : keeps I db db.
Proof. intros HI. exact HI. Qed.

Lemma keeps_trans (I : DB -> Prop) (a b c : DB) :
  keeps I a b -> keeps I b c -> keeps I a c.
Proof. unfold keeps. auto. Qed.

Lemma map_key_map {A K} (f : A -> K) (g : A -> A) (l : list A) :
  (forall x, f (g x) = f x) -> map f (map g l) = map f l.
Proof. intros Hg. rewrite map_map. apply map_ext. exact Hg. Qed.

Lemma NoDup_map_filter {A K} (f : A -> K) (g : A -> bool) (l : list A) :
  NoDup (map f l) -> NoDup (map f (filter g l)).
Proof.
  induction l as [|x l IH]; cbn [map filter]; intros Hl; [constructor|].
  inversion Hl as [|? ? Hx Hl']; subst.
  destruct (g x); cbn [map]; [|now apply IH].
  constructor; [|now apply IH].
  intros Hin. apply Hx. apply in_map_iff in Hin as [y [Hy Hin]].
  apply filter_In in Hin as [Hin _]. apply in_map_iff. eauto.
Qed.

Lemma NoDup_snoc {K} (l : list K) (k : K) :
  NoDup l -> ~ In k l -> NoDup (l ++ [k]).
Proof.
  intros Hl Hk. apply NoDup_app; [exact Hl | repeat constructor; intros [] |].
  intros x Hx [<-|[]]. contradiction.
Qed.

Lemma fresh_key_not_in {A} (f : A -> string) (l : list A) (k : string) :
  existsb (fun x => f x =? k) l = false -> ~ In k (map f l).
Proof.
  intros Hf Hin. apply in_map_iff in Hin as [x [Hx Hin]].
  rewrite existsb_false_iff in Hf. specialize (Hf x Hin).
  rewrite Hx, String.eqb_refl in Hf. discriminate.
Qed.

Lemma counter_incr_keys (key : string) (rows : list (string * Z)) :
  map fst (counter_incr key rows) = map fst rows.
Proof.
  unfold counter_incr. rewrite map_map. apply map_ext.
  intros [k v]. cbn. destruct (k =? key); reflexivity.
Qed.

Section Keys.
Context `{Builtins}.

Lemma nextCounter_keys (key : string) : relates (keeps keys_unique) (nextCounter key).
Proof.
  intros db. destruct (nextCounter_effect key db) as [E|E]; rewrite E;
    [apply keeps_refl|].
  intros (Hp & Hc & Hi & Hit & Hseq & Hk). unfold keys_unique.
  cbn [patients checkins invoices invoice_items items_seq counters set_counters].
  rewrite counter_incr_keys. auto 10.
Qed.

Lemma patient_insert_keys now id name type breed colour age gender weight owner phone
    email address :
  relates (keeps keys_unique)
    (patientQueries.insert now id name type breed colour age gender weight owner phone
       email address).
Proof.
  intros db.
  destruct (patient_insert_effect now id name type breed colour age gender weight owner
              phone email address db) as [E|(p & Hfresh & E)]; cbv zeta in E; rewrite E;
    [apply keeps_refl|].
  intros (Hp & Hc & Hi & Hit & Hseq & Hk). unfold keys_unique.
  cbn [patients checkins invoices invoice_items items_seq counters set_patients].
  repeat split; auto.
  rewrite List.map_app. cbn [map]. apply NoDup_snoc; [exact Hp|].
  now apply fresh_key_not_in.
Qed.

Lemma patient_update_keys id name type breed colour age gender weight owner phone
    email address :
  relates (keeps keys_unique)
    (patientQueries.update id name type breed colour age gender weight owner phone
       email address).
Proof.
  intros db.
  destruct (patient_update_effect id name type breed colour age gender weight owner
              phone email address db) as [E|(g & Hg & E)]; cbv zeta in E; rewrite E;
    [apply keeps_refl|].
  intros (Hp & Hc & Hi & Hit & Hseq & Hk). unfold keys_unique.
  cbn [patients checkins invoices invoice_items items_seq counters set_patients].
  rewrite (map_key_map p_id g _ Hg). auto 10.
Qed.

Lemma patient_delete_keys args : relates (keeps keys_unique) (patientQueries.delete args).
Proof.
  intros db. destruct (patient_delete_effect args db) as [E|[x E]]; rewrite E;
    [apply keeps_refl|].
  intros (Hp & Hc & Hi & Hit & Hseq & Hk). unfold keys_unique, patient_delete_result.
  cbn [patients checkins invoices invoice_items items_seq counters].
  repeat split; auto using NoDup_map_filter.
  rewrite map_key_map; [exact Hi|].
  intros i. destruct (existsb _ _); reflexivity.
Qed.

Lemma checkin_insert_keys now id pid pname owner doctor date complaint subjective
    objective assessment plan procedures medications followup st :
  relates (keeps keys_unique)
    (checkinQueries.insert now id pid pname owner doctor date complaint subjective
       objective assessment plan procedures medications followup st).
Proof.
  intros db.
  destruct (checkin_insert_effect now id pid pname owner doctor date complaint subjective
              objective assessment plan procedures medications followup st db)
    as [E|(c & Hfresh & _ & _ & E)]; cbv zeta in E; rewrite E; [apply keeps_refl|].
  intros (Hp & Hc & Hi & Hit & Hseq & Hk). unfold keys_unique.
  cbn [patients checkins invoices invoice_items items_seq counters set_checkins].
  repeat split; auto.
  rewrite List.map_app. cbn [map]. apply NoDup_snoc; [exact Hc|].
  now apply fresh_key_not_in.
Qed.

Lemma checkin_update_keys args : relates (keeps keys_unique) (checkinQueries.updateStatus args).
Proof.
  intros db. destruct (checkin_update_effect args db) as [E|(st & x & _ & E)];
    cbv zeta in E; rewrite E; [apply keeps_refl|].
  intros (Hp & Hc & Hi & Hit & Hseq & Hk). unfold keys_unique.
  cbn [patients checkins invoices invoice_items items_seq counters set_checkins].
  rewrite map_key_map; [auto 10|].
  intros c. destruct (text_eq _ _); reflexivity.
Qed.

Lemma checkin_delete_keys args : relates (keeps keys_unique) (checkinQueries.delete args).
Proof.
  intros db. destruct (checkin_delete_effect args db) as [E|[x E]]; rewrite E;
    [apply keeps_refl|].
  intros (Hp & Hc & Hi & Hit & Hseq & Hk). unfold keys_unique.
  cbn [patients checkins invoices invoice_items items_seq counters set_checkins].
  repeat split; auto using NoDup_map_filter.
Qed.

Lemma invoice_insert_keys now ref pid pname ptype owner phone date sub disc total paid
    bal method st notes :
  relates (keeps keys_unique)
    (invoiceQueries.insert now ref pid pname ptype owner phone date sub disc total paid
       bal method st notes).
Proof.
  intros db.
  destruct (invoice_insert_effect now ref pid pname ptype owner phone date sub disc total
              paid bal method st notes db) as [E|(inv & Hfresh & _ & E)];
    cbv zeta in E; rewrite E; [apply keeps_refl|].
  intros (Hp & Hc & Hi & Hit & Hseq & Hk). unfold keys_unique.
  cbn [patients checkins invoices invoice_items items_seq counters set_invoices].
  repeat split; auto.
  rewrite List.map_app. cbn [map]. apply NoDup_snoc; [exact Hi|].
  now apply fresh_key_not_in.
Qed.

Lemma insertItem_keys ref name q p d t :
  relates (keeps keys_unique) (invoiceQueries.insertItem ref name q p d t).
Proof.
  intros db.
  destruct (insertItem_effect ref name q p d t db) as [E|(it & Hid & _ & E)];
    cbv zeta in E; rewrite E; [apply keeps_refl|].
  intros (Hp & Hc & Hi & Hit & Hseq & Hk). unfold keys_unique.
  cbn [patients checkins invoices invoice_items items_seq counters set_items].
  repeat split; auto.
  - rewrite List.map_app. cbn [map]. apply NoDup_snoc; [exact Hit|].
    intros Hin. apply in_map_iff in Hin as [y [Hy Hin]].
    rewrite Forall_forall in Hseq. specialize (Hseq y Hin). lia.
  - apply Forall_app. split.
    + eapply Forall_impl; [|exact Hseq]. cbv beta. intros y Hy. lia.
    + constructor; [lia | constructor].
Qed.

Lemma invoice_update_keys st paid bal ref :
  relates (keeps keys_unique) (invoiceQueries.updateStatus st paid bal ref).
Proof.
  intros db. destruct (invoice_update_effect st paid bal ref db) as [E|(g & Hg & E)];
    cbv zeta in E; rewrite E; [apply keeps_refl|].
  intros (Hp & Hc & Hi & Hit & Hseq & Hk). unfold keys_unique.
  cbn [patients checkins invoices invoice_items items_seq counters set_invoices].
  rewrite map_key_map; [auto 10|]. intros i. apply Hg.
Qed.

Lemma invoice_delete_keys args : relates (keeps keys_unique) (invoiceQueries.delete args).
Proof.
  intros db. destruct (invoice_delete_effect args db) as [E|[x E]]; rewrite E;
    [apply keeps_refl|].
  intros (Hp & Hc & Hi & Hit & Hseq & Hk). unfold keys_unique, invoice_delete_result.
  cbn [patients checkins invoices invoice_items items_seq counters].
  repeat split; auto using NoDup_map_filter.
  apply Forall_forall. intros y Hy. apply filter_In in Hy as [Hy _].
  rewrite Forall_forall in Hseq. now apply Hseq.
Qed.

End Keys.

(** ** Sequences of requests *)

Lemma serve_all_relates `{Builtins} (R : DB -> DB -> Prop) :
  (forall db, R db db) ->
  (forall a b c, R a b -> R b c -> R a c) ->
  (forall r db, R db (snd (serve r db))) ->
  forall rs db, R db (serve_all rs db).
Proof.
  intros Hrefl Htrans Hstep rs. induction rs as [|r rs IH]; intros db; cbn [serve_all].
  - apply Hrefl.
  - apply (Htrans _ (snd (serve r db))); [apply Hstep | apply IH].
Qed.

Lemma serve_keeps_keys `{Builtins} (r : request) (db : DB) :
  keeps keys_unique db (snd (serve r db)).
Proof.
  pose proof (patient_routes_relate (keeps keys_unique) (keeps_refl _) (keeps_trans _)
                (nextCounter_keys _) patient_insert_keys patient_update_keys db)
    as (P1 & P2 & P3 & P4).
  pose proof (checkin_routes_relate (keeps keys_unique) (keeps_refl _) (keeps_trans _)
                (fun now id pid pname owner doctor date a b c d e f g h =>
                   checkin_insert_keys now id pid pname owner doctor date a b c d e f g h
                     (VStr "open"))
                (fun st id _ => checkin_update_keys [st; id])
                checkin_delete_keys db) as (C1 & C2 & C3 & C4).
  pose proof (invoice_routes_relate (keeps keys_unique) (keeps_refl _) (keeps_trans _)
                (nextCounter_keys _) invoice_insert_keys insertItem_keys invoice_update_keys
                invoice_delete_keys db) as (I1 & I2 & I3 & I4).
  destruct r; cbn [serve]; auto.
Qed.

(** ** Foreign keys *)

Lemma survivor {A} (f : A -> string) (d : A -> bool) (l : list A) (s : string) :
  existsb (fun a => f a =? s) l = true ->
  existsb (cell_is (Some s)) (map f (filter d l)) = false ->
  existsb (fun a => f a =? s) (filter (fun a => negb (d a)) l) = true.
Proof.
  intros Hex Hgone. apply existsb_exists in Hex as [a [Ha Hfa]].
  apply existsb_exists. exists a. split; [|exact Hfa].
  apply filter_In. split; [exact Ha|].
  destruct (d a) eqn:Hd; [|reflexivity]. exfalso.
  rewrite existsb_false_iff in Hgone.
  specialize (Hgone (f a)). cbn [cell_is] in Hgone.
  apply String.eqb_eq in Hfa. rewrite Hfa, String.eqb_refl in Hgone.
  assert (true = false); [|discriminate].
  apply Hgone. apply in_map_iff. exists a. split; [exact Hfa|].
  apply filter_In. auto.
Qed.

Lemma existsb_key_map {A} (f : A -> string) (g : A -> A) (l : list A) (s : string) :
  (forall x, f (g x) = f x) ->
  existsb (fun a => f a =? s) (map g l) = existsb (fun a => f a =? s) l.
Proof.
  intros Hg. induction l as [|x l IH]; cbn [map existsb]; [reflexivity|].
  now rewrite Hg, IH.
Qed.

Lemma patient_ref_ok_same (fk : text) (db db' : DB) :
  patients db' = patients db -> patient_ref_ok fk db' = patient_ref_ok fk db.
Proof. unfold patient_ref_ok. now intros ->. Qed.

Lemma invoice_ref_ok_same (fk : text) (db db' : DB) :
  invoices db' = invoices db -> invoice_ref_ok fk db' = invoice_ref_ok fk db.
Proof. unfold invoice_ref_ok. now intros ->. Qed.

Section References.
Context `{Builtins}.

Lemma nextCounter_refs (key : string) : relates (keeps references_hold) (nextCounter key).
Proof.
  intros db. destruct (nextCounter_effect key db) as [E|E]; rewrite E;
    [apply keeps_refl|].
  intros HI. exact HI.
Qed.

Lemma patient_insert_refs now id name type breed colour age gender weight owner phone
    email address :
  relates (keeps references_hold)
    (patientQueries.insert now id name type breed colour age gender weight owner phone
       email address).
Proof.
  intros db.
  destruct (patient_insert_effect now id name type breed colour age gender weight owner
              phone email address db) as [E|(p & _ & E)]; cbv zeta in E; rewrite E;
    [apply keeps_refl|].
  assert (Hgrow : forall fk, patient_ref_ok fk db = true ->
                             patient_ref_ok fk (set_patients (patients db ++ [p]) db) = true).
  { intros [s|]; [|reflexivity]. cbn. rewrite existsb_app. now intros ->. }
  intros (Hc & Hi & Hit). repeat split;
    cbn [checkins invoices invoice_items set_patients].
  - eapply Forall_impl; [|exact Hc]. intros c. apply Hgrow.
  - eapply Forall_impl; [|exact Hi]. intros i. apply Hgrow.
  - exact Hit.
Qed.

Lemma patient_update_refs id name type breed colour age gender weight owner phone
    email address :
  relates (keeps references_hold)
    (patientQueries.update id name type breed colour age gender weight owner phone
       email address).
Proof.
  intros db.
  destruct (patient_update_effect id name type breed colour age gender weight owner
              phone email address db) as [E|(g & Hg & E)]; cbv zeta in E; rewrite E;
    [apply keeps_refl|].
  assert (Hsame : forall fk, patient_ref_ok fk (set_patients (map g (patients db)) db)
                             = patient_ref_ok fk db).
  { intros [s|]; [|reflexivity]. cbn. now apply existsb_key_map. }
  intros (Hc & Hi & Hit). repeat split;
    cbn [checkins invoices invoice_items set_patients].
  - eapply Forall_impl; [|exact Hc]. intros c. now rewrite Hsame.
  - eapply Forall_impl; [|exact Hi]. intros i. now rewrite Hsame.
  - exact Hit.
Qed.

Lemma patient_delete_refs args : relates (keeps references_hold) (patientQueries.delete args).
Proof.
  intros db. destruct (patient_delete_effect args db) as [E|[x E]]; rewrite E;
    [apply keeps_refl|].
  intros (Hc & Hi & Hit). unfold references_hold, patient_delete_result.
  cbn [checkins invoices invoice_items].
  set (d := fun p => text_eq (p_id p) x).
  set (gone := map p_id (filter d (patients db))).
  assert (Hkeep : forall fk, patient_ref_ok fk db = true ->
                             existsb (cell_is fk) gone = false ->
                             patient_ref_ok fk (patient_delete_result x db) = true).
  { intros [s|]; [|reflexivity]. cbn [patient_ref_ok patient_delete_result patients].
    intros Hs Hg. now apply (survivor p_id d). }
  repeat split.
  - apply Forall_forall. intros c Hin. apply filter_In in Hin as [Hin Hr].
    apply negb_true_iff in Hr. rewrite Forall_forall in Hc. now apply Hkeep; [apply Hc|].
  - apply Forall_forall. intros i Hin. apply in_map_iff in Hin as [j [<- Hin]].
    rewrite Forall_forall in Hi. specialize (Hi j Hin).
    destruct (existsb (cell_is (i_patient_id j)) gone) eqn:Hr; [reflexivity|].
    now apply Hkeep.
  - eapply Forall_impl; [|exact Hit]. intros it Hok. rewrite <- Hok.
    destruct (it_invoice_ref it) as [r|]; [|reflexivity].
    unfold invoice_ref_ok. cbn [invoices]. apply existsb_key_map.
    intros i. destruct (existsb _ _); reflexivity.
Qed.

Lemma checkin_insert_refs now id pid pname owner doctor date complaint subjective
    objective assessment plan procedures medications followup st :
  relates (keeps references_hold)
    (checkinQueries.insert now id pid pname owner doctor date complaint subjective
       objective assessment plan procedures medications followup st).
Proof.
  intros db.
  destruct (checkin_insert_effect now id pid pname owner doctor date complaint subjective
              objective assessment plan procedures medications followup st db)
    as [E|(c & _ & Hok & _ & E)]; cbv zeta in E; rewrite E; [apply keeps_refl|].
  intros (Hc & Hi & Hit). repeat split;
    cbn [checkins invoices invoice_items set_checkins]; auto.
  apply Forall_app. split; [exact Hc | constructor; [exact Hok | constructor]].
Qed.

Lemma checkin_update_refs args :
  relates (keeps references_hold) (checkinQueries.updateStatus args).
Proof.
  intros db. destruct (checkin_update_effect args db) as [E|(st & x & _ & E)];
    cbv zeta in E; rewrite E; [apply keeps_refl|].
  intros (Hc & Hi & Hit). repeat split;
    cbn [checkins invoices invoice_items set_checkins]; auto.
  apply Forall_map. eapply Forall_impl; [|exact Hc].
  intros c Hok. destruct (text_eq _ _); exact Hok.
Qed.

Lemma checkin_delete_refs args : relates (keeps references_hold) (checkinQueries.delete args).
Proof.
  intros db. destruct (checkin_delete_effect args db) as [E|[x E]]; rewrite E;
    [apply keeps_refl|].
  intros (Hc & Hi & Hit). repeat split;
    cbn [checkins invoices invoice_items set_checkins]; auto.
  apply Forall_forall. intros c Hin. apply filter_In in Hin as [Hin _].
  rewrite Forall_forall in Hc. now apply Hc.
Qed.

Lemma invoice_insert_refs now ref pid pname ptype owner phone date sub disc total paid
    bal method st notes :
  relates (keeps references_hold)
    (invoiceQueries.insert now ref pid pname ptype owner phone date sub disc total paid
       bal method st notes).
Proof.
  intros db.
  destruct (invoice_insert_effect now ref pid pname ptype owner phone date sub disc total
              paid bal method st notes db) as [E|(inv & _ & Hok & E)];
    cbv zeta in E; rewrite E; [apply keeps_refl|].
  intros (Hc & Hi & Hit). repeat split;
    cbn [checkins invoices invoice_items set_invoices]; auto.
  - apply Forall_app. split; [exact Hi | constructor; [exact Hok | constructor]].
  - eapply Forall_impl; [|exact Hit]. intros it. cbv beta.
    destruct (it_invoice_ref it) as [r|]; [|reflexivity].
    unfold invoice_ref_ok. cbn [invoices set_invoices]. rewrite existsb_app.
    now intros ->.
Qed.

Lemma insertItem_refs ref name q p d t :
  relates (keeps references_hold) (invoiceQueries.insertItem ref name q p d t).
Proof.
  intros db.
  destruct (insertItem_effect ref name q p d t db) as [E|(it & _ & Hok & E)];
    cbv zeta in E; rewrite E; [apply keeps_refl|].
  intros (Hc & Hi & Hit). repeat split;
    cbn [checkins invoices invoice_items set_items]; auto.
  apply Forall_app. split; [exact Hit | constructor; [exact Hok | constructor]].
Qed.

Lemma invoice_update_refs st paid bal ref :
  relates (keeps references_hold) (invoiceQueries.updateStatus st paid bal ref).
Proof.
  intros db. destruct (invoice_update_effect st paid bal ref db) as [E|(g & Hg & E)];
    cbv zeta in E; rewrite E; [apply keeps_refl|].
  intros (Hc & Hi & Hit). repeat split;
    cbn [checkins invoices invoice_items set_invoices]; auto.
  - apply Forall_map. eapply Forall_impl; [|exact Hi].
    intros i Hok. now rewrite (proj2 (Hg i)).
  - eapply Forall_impl; [|exact Hit]. intros it. cbv beta. intros Hok. rewrite <- Hok.
    destruct (it_invoice_ref it) as [r|]; [|reflexivity].
    unfold invoice_ref_ok. cbn [invoices set_invoices]. apply existsb_key_map.
    intros i. apply Hg.
Qed.

Lemma invoice_delete_refs args : relates (keeps references_hold) (invoiceQueries.delete args).
Proof.
  intros db. destruct (invoice_delete_effect args db) as [E|[x E]]; rewrite E;
    [apply keeps_refl|].
  intros (Hc & Hi & Hit). unfold references_hold, invoice_delete_result.
  cbn [checkins invoices invoice_items].
  repeat split; auto.
  - apply Forall_forall. intros i Hin. apply filter_In in Hin as [Hin _].
    rewrite Forall_forall in Hi. now apply Hi.
  - apply Forall_forall. intros it Hin. apply filter_In in Hin as [Hin Hr].
    apply negb_true_iff in Hr. rewrite Forall_forall in Hit. specialize (Hit it Hin).
    destruct (it_invoice_ref it) as [r|]; [|reflexivity].
    unfold invoice_ref_ok in *. cbn [invoices].
    now apply (survivor i_ref (fun i => text_eq (i_ref i) x)).
Qed.

End References.

Lemma serve_keeps_references `{Builtins} (r : request) (db : DB) :
  keeps references_hold db (snd (serve r db)).
Proof.
  pose proof (patient_routes_relate (keeps references_hold) (keeps_refl _) (keeps_trans _)
                (nextCounter_refs _) patient_insert_refs patient_update_refs db)
    as (P1 & P2 & P3 & P4).
  pose proof (checkin_routes_relate (keeps references_hold) (keeps_refl _) (keeps_trans _)
                (fun now id pid pname owner doctor date a b c d e f g h =>
                   checkin_insert_refs now id pid pname owner doctor date a b c d e f g h
                     (VStr "open"))
                (fun st id _ => checkin_update_refs [st; id])
                checkin_delete_refs db) as (C1 & C2 & C3 & C4).
  pose proof (invoice_routes_relate (keeps references_hold) (keeps_refl _) (keeps_trans _)
                (nextCounter_refs _) invoice_insert_refs insertItem_refs invoice_update_refs
                invoice_delete_refs db) as (I1 & I2 & I3 & I4).
  destruct r; cbn [serve]; auto.
Qed.

(** ** Check-in statuses *)

Lemma statuses_same (db db' : DB) :
  checkins db' = checkins db -> keeps statuses_valid db db'.
Proof. unfold keeps, statuses_valid. now intros ->. Qed.

Section Statuses.
Context `{Builtins}.

Lemma nextCounter_statuses (key : string) : relates (keeps statuses_valid) (nextCounter key).
Proof.
  intros db. destruct (nextCounter_effect key db) as [E|E]; rewrite E;
    now apply statuses_same.
Qed.

Lemma patient_insert_statuses now id name type breed colour age gender weight owner phone
    email address :
  relates (keeps statuses_valid)
    (patientQueries.insert now id name type breed colour age gender weight owner phone
       email address).
Proof.
  intros db.
  destruct (patient_insert_effect now id name type breed colour age gender weight owner
              phone email address db) as [E|(p & _ & E)]; cbv zeta in E; rewrite E;
    now apply statuses_same.
Qed.

Lemma patient_update_statuses id name type breed colour age gender weight owner phone
    email address :
  relates (keeps statuses_valid)
    (patientQueries.update id name type breed colour age gender weight owner phone
       email address).
Proof.
  intros db.
  destruct (patient_update_effect id name type breed colour age gender weight owner
              phone email address db) as [E|(g & _ & E)]; cbv zeta in E; rewrite E;
    now apply statuses_same.
Qed.

Lemma checkin_insert_statuses now id pid pname owner doctor date complaint subjective
    objective assessment plan procedures medications followup :
  relates (keeps statuses_valid)
    (checkinQueries.insert now id pid pname owner doctor date complaint subjective
       objective assessment plan procedures medications followup (VStr "open")).
Proof.
  intros db.
  destruct (checkin_insert_effect now id pid pname owner doctor date complaint subjective
              objective assessment plan procedures medications followup (VStr "open") db)
    as [E|(c & _ & _ & Hst & E)]; cbv zeta in E; rewrite E; [apply keeps_refl|].
  intros Hc. unfold statuses_valid. cbn [checkins set_checkins].
  apply Forall_app. split; [exact Hc|].
  constructor; [|constructor]. left.
  cbn [bind_text bind_value as_text] in Hst. congruence.
Qed.

Lemma checkin_update_statuses (st id : value) :
  is_str st "open" || is_str st "done" = true ->
  relates (keeps statuses_valid) (checkinQueries.updateStatus [st; id]).
Proof.
  intros Hst db. destruct (checkin_update_effect [st; id] db) as [E|(s & x & Hargs & E)];
    cbv zeta in E; rewrite E; [apply keeps_refl|].
  assert (Hs : as_text s = Some "open" \/ as_text s = Some "done").
  { apply orb_true_iff in Hst as [Hst|Hst]; apply is_str_inv in Hst; subst st;
      cbn [bind_arg_list bind_arg bind_value] in Hargs;
      destruct (bind_arg id) as [ys|]; try discriminate Hargs;
      cbn [Datatypes.app] in Hargs; injection Hargs as <- _; cbn; auto. }
  intros Hc. unfold statuses_valid. cbn [checkins set_checkins].
  apply Forall_map. eapply Forall_impl; [|exact Hc].
  intros c Hok. destruct (text_eq _ _); [exact Hs | exact Hok].
Qed.

Lemma checkin_delete_statuses args :
  relates (keeps statuses_valid) (checkinQueries.delete args).
Proof.
  intros db. destruct (checkin_delete_effect args db) as [E|[x E]]; rewrite E;
    [apply keeps_refl|].
  intros Hc. unfold statuses_valid in *. cbn [checkins set_checkins].
  apply Forall_forall. intros c Hin. apply filter_In in Hin as [Hin _].
  rewrite Forall_forall in Hc. now apply Hc.
Qed.

Lemma invoice_insert_statuses now ref pid pname ptype owner phone date sub disc total paid
    bal method st notes :
  relates (keeps statuses_valid)
    (invoiceQueries.insert now ref pid pname ptype owner phone date sub disc total paid
       bal method st notes).
Proof.
  intros db.
  destruct (invoice_insert_effect now ref pid pname ptype owner phone date sub disc total
              paid bal method st notes db) as [E|(inv & _ & _ & E)];
    cbv zeta in E; rewrite E; now apply statuses_same.
Qed.

Lemma insertItem_statuses ref name q p d t :
  relates (keeps statuses_valid) (invoiceQueries.insertItem ref name q p d t).
Proof.
  intros db.
  destruct (insertItem_effect ref name q p d t db) as [E|(it & _ & _ & E)];
    cbv zeta in E; rewrite E; now apply statuses_same.
Qed.

Lemma invoice_update_statuses st paid bal ref :
  relates (keeps statuses_valid) (invoiceQueries.updateStatus st paid bal ref).
Proof.
  intros db. destruct (invoice_update_effect st paid bal ref db) as [E|(g & _ & E)];
    cbv zeta in E; rewrite E; now apply statuses_same.
Qed.

Lemma invoice_delete_statuses args :
  relates (keeps statuses_valid) (invoiceQueries.delete args).
Proof.
  intros db. destruct (invoice_delete_effect args db) as [E|[x E]]; rewrite E;
    now apply statuses_same.
Qed.

End Statuses.

Lemma serve_keeps_statuses `{Builtins} (r : request) (db : DB) :
  keeps statuses_valid db (snd (serve r db)).
Proof.
  pose proof (patient_routes_relate (keeps statuses_valid) (keeps_refl _) (keeps_trans _)
                (nextCounter_statuses _) patient_insert_statuses patient_update_statuses db)
    as (P1 & P2 & P3 & P4).
  pose proof (checkin_routes_relate (keeps statuses_valid) (keeps_refl _) (keeps_trans _)
                checkin_insert_statuses checkin_update_statuses
                checkin_delete_statuses db) as (C1 & C2 & C3 & C4).
  pose proof (invoice_routes_relate (keeps statuses_valid) (keeps_refl _) (keeps_trans _)
                (nextCounter_statuses _) invoice_insert_statuses insertItem_statuses
                invoice_update_statuses invoice_delete_statuses db) as (I1 & I2 & I3 & I4).
  destruct r; cbn [serve]; auto.
Qed.

(** ** Counters and the item sequence *)

Lemma numbers_advance_refl (db : DB) : numbers_advance db db.
Proof. split; [|lia]. intros key v Hv. exists v. split; [exact Hv | lia]. Qed.

Lemma numbers_advance_trans (a b c : DB) :
  numbers_advance a b -> numbers_advance b c -> numbers_advance a c.
Proof.
  intros [Hab Sab] [Hbc Sbc]. split; [|lia].
  intros key v Hv. destruct (Hab key v Hv) as (v1 & Hv1 & L1).
  destruct (Hbc key v1 Hv1) as (v2 & Hv2 & L2). exists v2. split; [exact Hv2 | lia].
Qed.

Lemma numbers_advance_same (db db' : DB) :
  counters db' = counters db -> (items_seq db <= items_seq db')%Z ->
  numbers_advance db db'.
Proof.
  intros Hc Hs. split; [|exact Hs]. rewrite Hc.
  intros key v Hv. exists v. split; [exact Hv | lia].
Qed.

Section Numbers.
Context `{Builtins}.

Lemma nextCounter_advances (key : string) : relates numbers_advance (nextCounter key).
Proof.
  intros db. destruct (nextCounter_effect key db) as [E|E]; rewrite E;
    [apply numbers_advance_refl|].
  split; [|cbn; lia]. cbn [counters set_counters]. intros k v Hv.
  destruct (key =? k) eqn:Ek.
  - apply String.eqb_eq in Ek. subst k. exists (v + 1)%Z.
    split; [now apply counter_value_incr | lia].
  - exists v. split; [|lia]. now rewrite counter_value_incr_other.
Qed.

Lemma patient_insert_advances now id name type breed colour age gender weight owner phone
    email address :
  relates numbers_advance
    (patientQueries.insert now id name type breed colour age gender weight owner phone
       email address).
Proof.
  intros db.
  destruct (patient_insert_effect now id name type breed colour age gender weight owner
              phone email address db) as [E|(p & _ & E)]; cbv zeta in E; rewrite E;
    apply numbers_advance_same; cbn; solve [reflexivity | lia].
Qed.

Lemma patient_update_advances id name type breed colour age gender weight owner phone
    email address :
  relates numbers_advance
    (patientQueries.update id name type breed colour age gender weight owner phone
       email address).
Proof.
  intros db.
  destruct (patient_update_effect id name type breed colour age gender weight owner
              phone email address db) as [E|(g & _ & E)]; cbv zeta in E; rewrite E;
    apply numbers_advance_same; cbn; solve [reflexivity | lia].
Qed.

Lemma checkin_insert_advances now id pid pname owner doctor date complaint subjective
    objective assessment plan procedures medications followup st :
  relates numbers_advance
    (checkinQueries.insert now id pid pname owner doctor date complaint subjective
       objective assessment plan procedures medications followup st).
Proof.
  intros db.
  destruct (checkin_insert_effect now id pid pname owner doctor date complaint subjective
              objective assessment plan procedures medications followup st db)
    as [E|(c & _ & _ & _ & E)]; cbv zeta in E; rewrite E;
    apply numbers_advance_same; cbn; solve [reflexivity | lia].
Qed.

Lemma checkin_update_advances args :
  relates numbers_advance (checkinQueries.updateStatus args).
Proof.
  intros db. destruct (checkin_update_effect args db) as [E|(st & x & _ & E)];
    cbv zeta in E; rewrite E;
    apply numbers_advance_same; cbn; solve [reflexivity | lia].
Qed.

Lemma checkin_delete_advances args : relates numbers_advance (checkinQueries.delete args).
Proof.
  intros db. destruct (checkin_delete_effect args db) as [E|[x E]]; rewrite E;
    apply numbers_advance_same; cbn; solve [reflexivity | lia].
Qed.

Lemma invoice_insert_advances now ref pid pname ptype owner phone date sub disc total paid
    bal method st notes :
  relates numbers_advance
    (invoiceQueries.insert now ref pid pname ptype owner phone date sub disc total paid
       bal method st notes).
Proof.
  intros db.
  destruct (invoice_insert_effect now ref pid pname ptype owner phone date sub disc total
              paid bal method st notes db) as [E|(inv & _ & _ & E)];
    cbv zeta in E; rewrite E;
    apply numbers_advance_same; cbn; solve [reflexivity | lia].
Qed.

Lemma insertItem_advances ref name q p d t :
  relates numbers_advance (invoiceQueries.insertItem ref name q p d t).
Proof.
  intros db.
  destruct (insertItem_effect ref name q p d t db) as [E|(it & _ & _ & E)];
    cbv zeta in E; rewrite E;
    apply numbers_advance_same; cbn; solve [reflexivity | lia].
Qed.

Lemma invoice_update_advances st paid bal ref :
  relates numbers_advance (invoiceQueries.updateStatus st paid bal ref).
Proof.
  intros db. destruct (invoice_update_effect st paid bal ref db) as [E|(g & _ & E)];
    cbv zeta in E; rewrite E;
    apply numbers_advance_same; cbn; solve [reflexivity | lia].
Qed.

Lemma invoice_delete_advances args : relates numbers_advance (invoiceQueries.delete args).
Proof.
  intros db. destruct (invoice_delete_effect args db) as [E|[x E]]; rewrite E;
    apply numbers_advance_same; cbn; solve [reflexivity | lia].
Qed.

End Numbers.

Lemma serve_advances `{Builtins} (r : request) (db : DB) :
  numbers_advance db (snd (serve r db)).
Proof.
  pose proof (patient_routes_relate numbers_advance numbers_advance_refl
                numbers_advance_trans
                (nextCounter_advances _) patient_insert_advances patient_update_advances db)
    as (P1 & P2 & P3 & P4).
  pose proof (checkin_routes_relate numbers_advance numbers_advance_refl
                numbers_advance_trans
                (fun now id pid pname owner doctor date a b c d e f g h =>
                   checkin_insert_advances now id pid pname owner doctor date a b c d e f
                     g h (VStr "open"))
                (fun st id _ => checkin_update_advances [st; id])
                checkin_delete_advances db) as (C1 & C2 & C3 & C4).
  pose proof (invoice_routes_relate numbers_advance numbers_advance_refl
                numbers_advance_trans
                (nextCounter_advances _) invoice_insert_advances insertItem_advances
                invoice_update_advances invoice_delete_advances db) as (I1 & I2 & I3 & I4).
  destruct r; cbn [serve]; auto.
Qed.

(** ** Which tables a route writes *)

Lemma others_kept_refl (f : family) (db : DB) : others_kept f db db.
Proof. destruct f; cbn; repeat split; reflexivity. Qed.

Lemma others_kept_trans (f : family) (a b c : DB) :
  others_kept f a b -> others_kept f b c -> others_kept f a c.
Proof.
  destruct f; cbn.
  - intros (A1 & A2 & A3 & A4 & A5) (B1 & B2 & B3 & B4 & B5).
    repeat split; try congruence. intros k Hk. rewrite B5, A5; auto.
  - intros (A1 & A2 & A3 & A4 & A5) (B1 & B2 & B3 & B4 & B5).
    repeat split; congruence.
  - intros (A1 & A2 & A3) (B1 & B2 & B3).
    repeat split; try congruence. intros k Hk. rewrite B3, A3; auto.
Qed.

Section Frames.
Context `{Builtins}.

Lemma nextCounter_patient_frame : relates (others_kept Patients) (nextCounter "patient").
Proof.
  intros db. destruct (nextCounter_effect "patient" db) as [E|E]; rewrite E;
    [apply others_kept_refl|].
  cbn. repeat split. intros k Hk. now apply counter_value_incr_other.
Qed.

Lemma nextCounter_invoice_frame : relates (others_kept Invoices) (nextCounter "invoice").
Proof.
  intros db. destruct (nextCounter_effect "invoice" db) as [E|E]; rewrite E;
    [apply others_kept_refl|].
  cbn. repeat split. intros k Hk. now apply counter_value_incr_other.
Qed.

Lemma patient_insert_frame now id name type breed colour age gender weight owner phone
    email address :
  relates (others_kept Patients)
    (patientQueries.insert now id name type breed colour age gender weight owner phone
       email address).
Proof.
  intros db.
  destruct (patient_insert_effect now id name type breed colour age gender weight owner
              phone email address db) as [E|(p & _ & E)]; cbv zeta in E; rewrite E;
    [apply others_kept_refl|]. cbn. repeat split.
Qed.

Lemma patient_update_frame id name type breed colour age gender weight owner phone
    email address :
  relates (others_kept Patients)
    (patientQueries.update id name type breed colour age gender weight owner phone
       email address).
Proof.
  intros db.
  destruct (patient_update_effect id name type breed colour age gender weight owner
              phone email address db) as [E|(g & _ & E)]; cbv zeta in E; rewrite E;
    [apply others_kept_refl|]. cbn. repeat split.
Qed.

Lemma checkin_insert_frame now id pid pname owner doctor date complaint subjective
    objective assessment plan procedures medications followup st :
  relates (others_kept Checkins)
    (checkinQueries.insert now id pid pname owner doctor date complaint subjective
       objective assessment plan procedures medications followup st).
Proof.
  intros db.
  destruct (checkin_insert_effect now id pid pname owner doctor date complaint subjective
              objective assessment plan procedures medications followup st db)
    as [E|(c & _ & _ & _ & E)]; cbv zeta in E; rewrite E;
    [apply others_kept_refl|]. cbn. repeat split.
Qed.

Lemma checkin_update_frame args :
  relates (others_kept Checkins) (checkinQueries.updateStatus args).
Proof.
  intros db. destruct (checkin_update_effect args db) as [E|(st & x & _ & E)];
    cbv zeta in E; rewrite E; [apply others_kept_refl|]. cbn. repeat split.
Qed.

Lemma checkin_delete_frame args : relates (others_kept Checkins) (checkinQueries.delete args).
Proof.
  intros db. destruct (checkin_delete_effect args db) as [E|[x E]]; rewrite E;
    [apply others_kept_refl|]. cbn. repeat split.
Qed.

Lemma invoice_insert_frame now ref pid pname ptype owner phone date sub disc total paid
    bal method st notes :
  relates (others_kept Invoices)
    (invoiceQueries.insert now ref pid pname ptype owner phone date sub disc total paid
       bal method st notes).
Proof.
  intros db.
  destruct (invoice_insert_effect now ref pid pname ptype owner phone date sub disc total
              paid bal method st notes db) as [E|(inv & _ & _ & E)];
    cbv zeta in E; rewrite E; [apply others_kept_refl|]. cbn. repeat split.
Qed.

Lemma insertItem_frame ref name q p d t :
  relates (others_kept Invoices) (invoiceQueries.insertItem ref name q p d t).
Proof.
  intros db.
  destruct (insertItem_effect ref name q p d t db) as [E|(it & _ & _ & E)];
    cbv zeta in E; rewrite E; [apply others_kept_refl|]. cbn. repeat split.
Qed.

Lemma invoice_update_frame st paid bal ref :
  relates (others_kept Invoices) (invoiceQueries.updateStatus st paid bal ref).
Proof.
  intros db. destruct (invoice_update_effect st paid bal ref db) as [E|(g & _ & E)];
    cbv zeta in E; rewrite E; [apply others_kept_refl|]. cbn. repeat split.
Qed.

Lemma invoice_delete_frame args : relates (others_kept Invoices) (invoiceQueries.delete args).
Proof.
  intros db. destruct (invoice_delete_effect args db) as [E|[x E]]; rewrite E;
    [apply others_kept_refl|]. cbn. repeat split.
Qed.

End Frames.

Lemma serve_keeps_others `{Builtins} (r : request) (db : DB) :
  others_kept (family_of r) db (snd (serve r db)).
Proof.
  pose proof (patient_routes_relate (others_kept Patients) (others_kept_refl _)
                (others_kept_trans _)
                nextCounter_patient_frame patient_insert_frame patient_update_frame db)
    as (P1 & P2 & P3 & P4).
  pose proof (checkin_routes_relate (others_kept Checkins) (others_kept_refl _)
                (others_kept_trans _)
                (fun now id pid pname owner doctor date a b c d e f g h =>
                   checkin_insert_frame now id pid pname owner doctor date a b c d e f
                     g h (VStr "open"))
                (fun st id _ => checkin_update_frame [st; id])
                checkin_delete_frame db) as (C1 & C2 & C3 & C4).
  pose proof (invoice_routes_relate (others_kept Invoices) (others_kept_refl _)
                (others_kept_trans _)
                nextCounter_invoice_frame invoice_insert_frame insertItem_frame
                invoice_update_frame invoice_delete_frame db) as (I1 & I2 & I3 & I4).
  destruct r; cbn [serve family_of]; auto.
Qed.

Lemma get_serves_read_only `{Builtins} (r : request) (db : DB) :
  is_get r = true -> snd (serve r db) = db.
Proof.
  destruct r; try discriminate; intros _; cbn [serve].
  - unfold get_patient. rewrite snd_handle. unfold bind.
    pose proof (getById_read_only [VStr id; VStr id] db) as E.
    destruct (patientQueries.getById _ db) as [[[p|]|e] s]; cbn [snd] in *; now subst.
  - unfold get_checkin. rewrite snd_handle. unfold bind.
    pose proof (checkin_getById_read_only [VStr id] db) as E.
    destruct (checkinQueries.getById _ db) as [[[p|]|e] s]; cbn [snd] in *; now subst.
  - unfold get_invoice. rewrite snd_handle. unfold bind.
    pose proof (invoice_getById_read_only [VStr ref] db) as E.
    destruct (invoiceQueries.getById _ db) as [[[p|]|e] s]; cbn [snd] in *; subst;
      [|reflexivity..].
    pose proof (getItems_read_only [VStr (i_ref p)] db) as E.
    destruct (invoiceQueries.getItems _ db) as [[its|e] s]; cbn [snd] in *; now subst.
Qed.

Lemma find_filter_negb {A} (f : A -> bool) (l : list A) :
  find f (filter (fun x => negb (f x)) l) = None.
Proof.
  induction l as [|x l IH]; cbn [filter find]; [reflexivity|].
  destruct (f x) eqn:E; cbn [negb]; [exact IH|]. cbn [find]. now rewrite E.
Qed.

(** The keys a DELETE removed, as a foreign key sees them. *)
Lemma refers_gone {A} (f : A -> string) (id : string) (fk : text) (l : list A) :
  existsb (fun a => f a =? id) l = true ->
  existsb (cell_is fk) (map f (filter (fun a => f a =? id) l)) = cell_is fk id.
Proof.
  induction l as [|q l IH]; cbn [existsb filter]; [discriminate|].
  destruct (f q =? id) eqn:E; cbn [orb map existsb].
  - intros _. apply String.eqb_eq in E. rewrite E.
    destruct (cell_is fk id) eqn:Ec; [reflexivity|]. cbn [orb].
    destruct (existsb (fun a => f a =? id) l) eqn:El; [now apply IH|].
    rewrite (filter_none (fun a => f a =? id) l); [reflexivity|].
    now apply existsb_false_find.
  - exact IH.
Qed.

Lemma delete_invoice_run `{Builtins} (ref : string) (db : DB) :
  delete_invoice ref db = (ok (PDeleted ref), invoice_delete_result (SqlText ref) db).
Proof. reflexivity. Qed.

Lemma delete_checkin_run `{Builtins} (id : string) (db : DB) :
  delete_checkin id db =
    (ok (PDeleted id),
     set_checkins (filter (fun c => negb (c_id c =? id)) (checkins db)) db).
Proof. reflexivity. Qed.

Lemma get_checkin_found `{Builtins} (id : string) (db : DB) (c : checkin) :
  find (fun x => c_id x =? id) (checkins db) = Some c ->
  get_checkin id db = (ok (PCheckin (Some c)), db).
Proof.
  intros Hc. unfold get_checkin, handle, checkinQueries.getById, bind, lift, gets, ret.
  cbn. unfold text_eq. cbn. rewrite Hc. reflexivity.
Qed.

Lemma patch_checkin_found `{Builtins} (id : string) (body : value) (db : DB) (c : checkin)
    (st : string) :
  find (fun x => c_id x =? id) (checkins db) = Some c ->
  get_field body "status" = VStr st ->
  (st =? "open") || (st =? "done") = true ->
  patch_checkin_status id body db =
    (ok (PCheckin (Some (checkin_set_status (Some st) c))),
     set_checkins
       (map (fun x => if c_id x =? id then checkin_set_status (Some st) x else x)
            (checkins db)) db).
Proof.
  intros Hc Hst Hv.
  assert (Hprop : prop body "status" = Ret (VStr st)).
  { destruct body; cbn in Hst |- *; try discriminate; now rewrite Hst. }
  unfold patch_checkin_status, handle, checkinQueries.updateStatus, checkinQueries.getById,
    bind, lift, modify, gets, ret.
  rewrite Hprop. cbn [is_str]. rewrite Hv.
  cbn. unfold text_eq. cbn.
  rewrite (find_map_if (fun x => c_id x =? id) (checkin_set_status (Some st)) _ c
             (fun y Hy => Hy) Hc).
  reflexivity.
Qed.

(** ** What every route keeps *)

(** X1.  No route breaks a primary key: if no two patients share an id, no
    two check-ins an id, no two invoices a ref, no two line items an id (all
    at or below the AUTOINCREMENT sequence) and no two counters a key, the
    same holds after any request; it holds of the first-run store, hence of
    every store reached from it by any sequence of requests. *)
Theorem primary_keys_stay_unique `{Builtins} :
  (forall r db, keys_unique db -> keys_unique (snd (serve r db))) /\
  (forall rs, keys_unique (serve_all rs init_db)).
Proof.
  split; [exact serve_keeps_keys|].
  intros rs.
  apply (serve_all_relates (keeps keys_unique) (keeps_refl _) (keeps_trans _)
           serve_keeps_keys rs init_db).
  unfold keys_unique. cbn.
  repeat split; try constructor.
  - intros [E|[]]. discriminate E.
  - constructor; [intros [] | constructor].
Qed.

(** X2.  No route breaks a foreign key: if every check-in and invoice whose
    patient_id is not NULL names a stored patient, and every line item a
    stored invoice, the same holds after any request, and it holds of every
    store reached from the first-run store. *)
Theorem foreign_keys_stay_valid `{Builtins} :
  (forall r db, references_hold db -> references_hold (snd (serve r db))) /\
  (forall rs, references_hold (serve_all rs init_db)).
Proof.
  split; [exact serve_keeps_references|].
  intros rs.
  apply (serve_all_relates (keeps references_hold) (keeps_refl _) (keeps_trans _)
           serve_keeps_references rs init_db).
  repeat split; constructor.
Qed.

(** X3.  The status of a check-in is 'open' or 'done' and stays so: POST
    stores 'open', PATCH stores only one of the two, and no other route
    writes the column. *)
Theorem checkin_status_stays_valid `{Builtins} :
  (forall r db, statuses_valid db -> statuses_valid (snd (serve r db))) /\
  (forall rs, statuses_valid (serve_all rs init_db)).
Proof.
  split; [exact serve_keeps_statuses|].
  intros rs.
  apply (serve_all_relates (keeps statuses_valid) (keeps_refl _) (keeps_trans _)
           serve_keeps_statuses rs init_db).
  constructor.
Qed.



(** X5.  Each route writes only the tables of its family.  The patient
    routes leave check-ins, invoices, line items and every counter but
    'patient' as they were; the check-in routes leave everything but the
    check-ins; the invoice routes leave patients, check-ins and every
    counter but 'invoice'; and the three GET routes change nothing. *)
Theorem routes_write_their_own_tables `{Builtins} (r : request) (db : DB) :
  others_kept (family_of r) db (snd (serve r db)) /\
  (is_get r = true -> snd (serve r db) = db).
Proof. split; [apply serve_keeps_others | apply get_serves_read_only]. Qed.

(** X6.  DELETE /api/invoices/:ref answers 200 and removes the invoice with
    that ref together with its line items (ON DELETE CASCADE); the other
    invoices and their items keep their order, patients, check-ins, counters
    and the line-item sequence are as they were; GET on the ref then answers
    404 and a second DELETE changes nothing. *)
Theorem delete_invoice_cascades `{Builtins} (ref : string) (db : DB) :
  let db' := snd (delete_invoice ref db) in
  fst (delete_invoice ref db) = ok (PDeleted ref) /\
  invoices db' = filter (fun i => negb (i_ref i =? ref)) (invoices db) /\
  (existsb (fun i => i_ref i =? ref) (invoices db) = true ->
   invoice_items db' =
     filter (fun it => negb (cell_is (it_invoice_ref it) ref)) (invoice_items db)) /\
  (existsb (fun i => i_ref i =? ref) (invoices db) = false -> db' = db) /\
  patients db' = patients db /\ checkins db' = checkins db /\
  counters db' = counters db /\ items_seq db' = items_seq db /\
  get_invoice ref db' = (err "Invoice not found" 404, db') /\
  delete_invoice ref db' = (ok (PDeleted ref), db').
Proof.
  cbv zeta. rewrite delete_invoice_run. cbn [fst snd].
  assert (Hgone : find (fun i => i_ref i =? ref)
                    (invoices (invoice_delete_result (SqlText ref) db)) = None).
  { apply (find_filter_negb (fun i => i_ref i =? ref)). }
  repeat split.
  - intros Hex. unfold invoice_delete_result. cbn [invoice_items].
    apply filter_ext. intros it. f_equal.
    apply (refers_gone i_ref ref (it_invoice_ref it) (invoices db) Hex).
  - intros Hex. apply existsb_false_find in Hex.
    pose proof (delete_invoice_missing ref db Hex) as E.
    rewrite delete_invoice_run in E. now injection E.
  - now apply get_invoice_missing.
  - now apply delete_invoice_missing.
Qed.

(** X7.  DELETE /api/checkins/:id answers 200 and removes the check-in with
    that id and nothing else; GET on the id then answers 404 and a second
    DELETE changes nothing. *)
Theorem delete_checkin_removes_one `{Builtins} (id : string) (db : DB) :
  let db' := snd (delete_checkin id db) in
  fst (delete_checkin id db) = ok (PDeleted id) /\
  checkins db' = filter (fun c => negb (c_id c =? id)) (checkins db) /\
  patients db' = patients db /\ invoices db' = invoices db /\
  invoice_items db' = invoice_items db /\ counters db' = counters db /\
  get_checkin id db' = (err "Check-in not found" 404, db') /\
  delete_checkin id db' = (ok (PDeleted id), db').
Proof.
  cbv zeta. rewrite delete_checkin_run. cbn [fst snd].
  assert (Hgone : find (fun c => c_id c =? id)
                    (checkins (set_checkins
                       (filter (fun c => negb (c_id c =? id)) (checkins db)) db)) = None).
  { apply (find_filter_negb (fun c => c_id c =? id)). }
  repeat split.
  - now apply get_checkin_missing.
  - now apply delete_checkin_missing.
Qed.

(** X8.  PATCH /api/checkins/:id/status with status 'open' or 'done' on a
    stored check-in answers 200 with the check-in as updated: its status is
    the requested one and every other column is as it was; the other
    check-ins and the other tables are untouched, and GET on the id returns
    the updated check-in. *)
Theorem patch_checkin_sets_status `{Builtins}
    (id : string) (body : value) (db : DB) (c : checkin) (st : string) :
  find (fun x => c_id x =? id) (checkins db) = Some c ->
  get_field body "status" = VStr st ->
  (st =? "open") || (st =? "done") = true ->
  let db' := snd (patch_checkin_status id body db) in
  let c' := checkin_set_status (Some st) c in
  fst (patch_checkin_status id body db) = ok (PCheckin (Some c')) /\
  get_checkin id db' = (ok (PCheckin (Some c')), db') /\
  c_status c' = Some st /\
  c_id c' = c_id c /\ c_patient_id c' = c_patient_id c /\
  c_patient_name c' = c_patient_name c /\ c_owner_name c' = c_owner_name c /\
  c_doctor c' = c_doctor c /\ c_date c' = c_date c /\
  c_complaint c' = c_complaint c /\ c_subjective c' = c_subjective c /\
  c_objective c' = c_objective c /\ c_assessment c' = c_assessment c /\
  c_plan c' = c_plan c /\ c_procedures c' = c_procedures c /\
  c_medications c' = c_medications c /\ c_followup c' = c_followup c /\
  c_created_at c' = c_created_at c /\
  map c_id (checkins db') = map c_id (checkins db) /\
  (forall x, In x (checkins db) -> (c_id x =? id) = false -> In x (checkins db')) /\
  patients db' = patients db /\ invoices db' = invoices db /\
  invoice_items db' = invoice_items db /\ counters db' = counters db.
Proof.
  intros Hc Hst Hv. cbv zeta.
  rewrite (patch_checkin_found id body db c st Hc Hst Hv). cbn [fst snd].
  split; [reflexivity | split].
  - apply get_checkin_found. cbn [checkins set_checkins].
    apply (find_map_if (fun x => c_id x =? id) (checkin_set_status (Some st)) _ c
             (fun y Hy => Hy) Hc).
  - cbn [checkins set_checkins patients invoices invoice_items counters].
    repeat split.
    + apply map_key_map. intros x. destruct (c_id x =? id); reflexivity.
    + intros x Hx Hne. apply in_map_iff. exists x. rewrite Hne. auto.
Qed.

Lemma patch_checkin_sets_status_example :
  fst (@patch_checkin_status example_builtins "CI-1" (VObj [("status", VStr "done")])
         linked_db)
  = ok (PCheckin (Some (checkin_set_status (Some "done") rex_checkin))).
Proof.
  apply (@patch_checkin_sets_status example_builtins "CI-1"
           (VObj [("status", VStr "done")]) linked_db rex_checkin "done");
    reflexivity.
Defined.

(** ** A record that was created is fetched *)

(** A request answered with success went through every step before. *)
Lemma handle_bind_ok {A} (m : Q A) (k : A -> Q response) (db db' : DB) (resp : response) :
  handle (bind m k) db = (resp, db') -> success resp = true ->
  exists a db1, m db = (Ret a, db1) /\ handle (k a) db1 = (resp, db').
Proof.
  unfold handle, bind. destruct (m db) as [[a|e] db1].
  - eauto.
  - intros [= <- <-]. discriminate.
Qed.

Lemma handle_ret (r : response) (db db' : DB) (resp : response) :
  handle (ret r) db = (resp, db') -> resp = r /\ db' = db.
Proof. unfold handle, ret. now intros [= <- <-]. Qed.

Ltac peel H Hok a Hm :=
  let s := fresh "s" in
  apply handle_bind_ok in H as (a & s & Hm & H); [|exact Hok].

Ltac peel_lift H Hok a Hm :=
  let s := fresh "s" in
  apply handle_bind_ok in H as (a & s & Hm & H); [|exact Hok];
  unfold lift in Hm; injection Hm as Hm <-.

Ltac reject H Hok :=
  apply handle_ret in H as [-> _]; discriminate Hok.



Lemma post_checkins_then_get `{Builtins} (e : env) (body : value) (db db' : DB)
    (resp : response) :
  post_checkins e body db = (resp, db') ->
  success resp = true ->
  exists c,
    resp = ok (PCheckin (Some c)) /\
    get_checkin (c_id c) db' = (ok (PCheckin (Some c)), db').
Proof.
  intros Hrun Hok.
  destruct (post_checkins_with_inv _ e body db db' resp getById_read_only Hrun Hok)
    as (c & Hdb & Hresp & _).
  exists c. split; [exact Hresp|].
  unfold post_checkins, post_checkins_with in Hrun.
  peel_lift Hrun Hok patient_id Hpid.
  peel_lift Hrun Hok doctor Hdoc.
  peel_lift Hrun Hok date Hdate.
  peel_lift Hrun Hok doctor_t Htrim.
  destruct (negb (truthy doctor_t)); [reject Hrun Hok|].
  destruct (negb (truthy date)); [reject Hrun Hok|].
  cbv zeta in Hrun.
  peel Hrun Hok names Hnames.
  peel Hrun Hok u Hins.
  peel Hrun Hok copt Hget.
  apply handle_ret in Hrun as [Hr ->]. rewrite Hresp in Hr. injection Hr as <-.
  match type of Hget with
  | checkinQueries.getById ?args ?sa = (_, ?sb) =>
      pose proof (checkin_getById_read_only args sa) as Hro;
      rewrite Hget in Hro; cbn [snd] in Hro; rewrite <- Hro in Hget
  end.
  assert (Hid : c_id c = ("CI-" ++ String_of_Z (now_ms e) ++ "-" ++ random_suffix e)%string).
  { unfold checkinQueries.getById, bind, lift, gets in Hget.
    cbn [bind_args bind_arg_list bind_arg bind_value List.length Nat.ltb Nat.leb
         Datatypes.app] in Hget.
    unfold text_eq in Hget. cbn [as_text] in Hget.
    injection Hget as Hfind. apply find_some in Hfind as [_ Hfind].
    now apply String.eqb_eq in Hfind. }
  unfold get_checkin, handle, bind. rewrite Hid, Hget. reflexivity.
Qed.


(** ** The invoice transaction *)

Lemma insert_items_ids `{Builtins} (ref : string) (lines : list line_item) :
  forall (db db1 : DB),
    insert_items ref lines db = (Ret tt, db1) ->
    exists rows,
      invoice_items db1 = invoice_items db ++ rows /\
      map it_id rows =
        map (fun k => (items_seq db + 1 + Z.of_nat k)%Z) (seq 0 (List.length lines)).
Proof.
  induction lines as [|l lines IH]; intros db db1 Hrun.
  - cbn in Hrun. injection Hrun as <-. exists []. cbn.
    now rewrite List.app_nil_r.
  - cbn [insert_items] in Hrun. unfold bind at 1 in Hrun.
    destruct (invoiceQueries.insertItem (VStr ref) (l_name l) (l_quantity l)
                (l_unit_price l) (l_discount l) (l_total l) db) as [[[]|e] db2] eqn:E;
      [|discriminate].
    unfold invoiceQueries.insertItem, bind, lift, gets, modify, throw in E.
    cbn [bind_text bind_value as_text] in E.
    destruct (bind_text_nn "invoice_items.name" (l_name l)) as [name'|]; [|discriminate].
    destruct (negb _); [discriminate|].
    injection E as <-.
    destruct (IH _ _ Hrun) as (rows & Hrows & Hids).
    cbn [invoice_items items_seq set_items] in Hrows, Hids.
    eexists (_ :: rows). split.
    + rewrite Hrows, <- List.app_assoc. reflexivity.
    + cbn [map List.length seq it_id]. f_equal; [lia|].
      rewrite Hids, <- seq_shift, map_map. apply map_ext. intros k. lia.
Qed.

Lemma createInvoice_ids `{Builtins} (now : string) (obj : invoice_obj)
    (lines : list line_item) (db db1 : DB) (saved : option invoice) :
  createInvoice now obj lines db = (Ret saved, db1) ->
  exists rows,
    invoice_items db1 = invoice_items db ++ rows /\
    map it_id rows =
      map (fun k => (items_seq db + 1 + Z.of_nat k)%Z) (seq 0 (List.length lines)).
Proof.
  unfold createInvoice, transaction. intros Hrun.
  match type of Hrun with (match ?m db with _ => _ end) = _ =>
    destruct (m db) as [[s|e] db2] eqn:E; [|discriminate] end.
  injection Hrun as -> ->.
  unfold bind at 1 in E.
  match type of E with (let (_, _) := ?m in _) = _ =>
    destruct m as [[[]|e] db3] eqn:Eins; [|discriminate] end.
  apply invoice_insert_inv in Eins. destruct Eins as (inv & -> & _).
  unfold bind at 1 in E.
  match type of E with (let (_, _) := ?m in _) = _ =>
    destruct m as [[[]|e] db4] eqn:Eitems; [|discriminate] end.
  apply insert_items_ids in Eitems. destruct Eitems as (rows & Hrows & Hids).
  pose proof (invoice_getById_read_only [VStr (o_ref obj)] db4) as Hro.
  rewrite E in Hro. cbn [snd] in Hro. subst db4.
  exists rows. split; [exact Hrows | exact Hids].
Qed.

(** ** Creating an invoice draws a number first *)



(** ** Seeding the counters *)

Lemma counter_value_none (key : string) (rows : list (string * Z)) :
  counter_value key rows = None <-> existsb (fun kv => fst kv =? key) rows = false.
Proof.
  induction rows as [|[k v] rows IH]; cbn [counter_value existsb fst].
  - tauto.
  - destruct (k =? key); cbn [orb]; [split; discriminate | exact IH].
Qed.

Lemma counter_value_snoc (k key : string) (w : Z) (rows : list (string * Z)) :
  counter_value k (rows ++ [(key, w)]) =
    match counter_value k rows with
    | Some v => Some v
    | None => if key =? k then Some w else None
    end.
Proof.
  induction rows as [|[k' v] rows IH]; cbn [counter_value Datatypes.app].
  - reflexivity.
  - destruct (k' =? k); [reflexivity | exact IH].
Qed.

Lemma initCounter_present (key : string) (w v : Z) (db : DB) :
  counter_value key (counters db) = Some v -> initCounter key w db = db.
Proof.
  intros Hv. unfold initCounter.
  destruct (existsb _ (counters db)) eqn:E; [reflexivity|].
  apply counter_value_none in E. congruence.
Qed.

Lemma initCounter_value (key k : string) (w : Z) (db : DB) :
  counter_value k (counters (initCounter key w db)) =
    match counter_value k (counters db) with
    | Some v => Some v
    | None => if key =? k then Some w else None
    end.
Proof.
  unfold initCounter. destruct (existsb _ (counters db)) eqn:E.
  - destruct (counter_value k (counters db)) eqn:Ek; [reflexivity|].
    destruct (key =? k) eqn:Ekey; [|reflexivity].
    apply String.eqb_eq in Ekey. subst k.
    apply counter_value_none in Ek. congruence.
  - cbn [counters set_counters]. apply counter_value_snoc.
Qed.

Lemma initCounter_tables (key : string) (w : Z) (db : DB) :
  tables_kept db (initCounter key w db).
Proof.
  unfold initCounter. destruct (existsb _ _); [apply tables_kept_refl|].
  apply tables_kept_counters.
Qed.

Lemma nextCounter_unseeded (key : string) (db : DB) :
  counter_value key (counters db) = None ->
  nextCounter key db =
    (Throw (TypeError "Cannot read properties of undefined (reading 'value')"), db).
Proof.
  intros Hv. unfold nextCounter, bind, gets, throw. now rewrite Hv.
Qed.

(** ** Invoice refs *)

Lemma string_append_assoc (a b c : string) : ((a ++ b) ++ c = a ++ (b ++ c))%string.
Proof. induction a as [|x a IH]; cbn; [reflexivity | now rewrite IH]. Qed.

Lemma uint_of_string_dash (x y : string) :
  NilEmpty.uint_of_string (x ++ String "-" y) = None.
Proof.
  induction x as [|c x IH]; cbn [append NilEmpty.uint_of_string].
  - destruct (NilEmpty.uint_of_string y); reflexivity.
  - now rewrite IH.
Qed.

(** Text made of digits is cut off a ref at its last dash. *)
Lemma append_dash_inj (a b p q : string) :
  NilEmpty.uint_of_string p <> None -> NilEmpty.uint_of_string q <> None ->
  (a ++ String "-" p = b ++ String "-" q)%string -> p = q.
Proof.
  revert b. induction a as [|c a IH]; intros [|d b] Hp Hq E; cbn [append] in E.
  - now injection E.
  - injection E as _ E. rewrite E, uint_of_string_dash in Hp. now contradiction Hp.
  - injection E as _ E. rewrite <- E, uint_of_string_dash in Hq. now contradiction Hq.
  - injection E as _ E. now apply (IH b).
Qed.

Lemma padded_number (k : nat) (n : Z) : (0 <= n)%Z ->
  exists d, NilEmpty.uint_of_string (padStart k "0" (String_of_Z n)) = Some d /\
            Z.of_uint d = n.
Proof.
  intros Hn. destruct (String_of_Z_digits n Hn) as [d [E1 E2]].
  destruct (uint_of_string_zeros (k - String.length (String_of_Z n)) _ _ E1)
    as [d' [E3 E4]].
  exists d'. split; [exact E3 | congruence].
Qed.

Lemma invoice_ref_of_split (e : env) (n : Z) :
  invoice_ref_of e n =
    (("IN:01-" ++ slice_from 2 (String_of_Z (now_year e))
      ++ padStart 2 "0" (String_of_Z (now_month e + 1)))
     ++ String "-" (padStart 4 "0" (String_of_Z n)))%string.
Proof.
  unfold invoice_ref_of. cbv zeta. rewrite !string_append_assoc. reflexivity.
Qed.

Lemma invoice_ref_of_inj (e e' : env) (n m : Z) : (0 <= n)%Z -> (0 <= m)%Z ->
  invoice_ref_of e n = invoice_ref_of e' m -> n = m.
Proof.
  intros Hn Hm E. rewrite !invoice_ref_of_split in E.
  destruct (padded_number 4 n Hn) as (dn & Pn & Vn).
  destruct (padded_number 4 m Hm) as (dm & Pm & Vm).
  apply append_dash_inj in E; [|congruence..].
  rewrite E in Pn. congruence.
Qed.

Lemma snd_bind_lift {A B} (o : outcome A) (k : A -> Q B) (db : DB) :
  snd (bind (lift o) k db) = match o with
                             | Ret a => snd (k a db)
                             | Throw _ => db
                             end.
Proof. unfold bind, lift. destruct o; reflexivity. Qed.

Lemma patient_insert_id `{Builtins} (now id : string)
    (name type breed colour age gender : value) (weight : real)
    (owner phone email address : value) (db : DB) :
  let db' := snd (patientQueries.insert now (VStr id) name type breed colour age gender
                    weight owner phone email address db) in
  db' = db \/
  exists p, p_id p = id /\ db' = set_patients (patients db ++ [p]) db.
Proof.
  cbv zeta. unfold patientQueries.insert.
  unfold bind at 1. unfold lift at 1. cbn [bind_text_nn bind_text bind_value as_text not_null].
  run_stmt; auto.
  right. eexists. split; [|reflexivity]. reflexivity.
Qed.

(** POST /api/patients either leaves the patients alone or appends one
    whose id is built from the counter. *)
Lemma post_patients_cases `{Builtins} (e : env) (body : value) (db : DB) :
  let db' := snd (post_patients e body db) in
  patients db' = patients db \/
  exists c p,
    counter_value "patient" (counters db) = Some c /\
    p_id p = patient_id_of c /\
    patients db' = patients db ++ [p] /\
    counter_value "patient" (counters db') = Some (c + 1)%Z.
Proof.
  cbv zeta. remember (snd (post_patients e body db)) as db' eqn:E.
  unfold post_patients in E. rewrite snd_handle in E.
  rewrite snd_bind_lift in E. destruct (prop body "name") as [name|]; [|subst; now left].
  rewrite snd_bind_lift in E.
  destruct (prop body "owner_name") as [owner|]; [|subst; now left].
  rewrite snd_bind_lift in E. destruct (opt_trim name) as [name_t|]; [|subst; now left].
  destruct (negb (truthy name_t)); [subst; now left|].
  rewrite snd_bind_lift in E. destruct (opt_trim owner) as [owner_t|]; [|subst; now left].
  destruct (negb (truthy owner_t)); [subst; now left|].
  unfold bind at 1 in E. unfold generatePatientId, bind at 1, ret at 1 in E.
  destruct (counter_value "patient" (counters db)) as [c|] eqn:Hc.
  2: { rewrite (nextCounter_unseeded "patient" db Hc) in E. subst. now left. }
  rewrite (nextCounter_seeded "patient" c db Hc) in E.
  set (db1 := set_counters _ db) in E.
  assert (Hstep : forall db2,
            (db2 = db1 \/ exists p, p_id p = patient_id_of c /\
                                    db2 = set_patients (patients db1 ++ [p]) db1) ->
            patients db2 = patients db \/
            exists c0 p,
              Some c = Some c0 /\ p_id p = patient_id_of c0 /\
              patients db2 = patients db ++ [p] /\
              counter_value "patient" (counters db2) = Some (c0 + 1)%Z).
  { intros db2 [->|(p & Hid & ->)]; [now left|].
    right. exists c, p. subst db1. cbn [patients counters set_patients set_counters].
    repeat split; auto. now apply counter_value_incr. }
  unfold bind at 1 in E.
  match type of E with
  | context [patientQueries.insert ?now (VStr ?id) ?a ?b ?c' ?d ?f ?g ?h ?i ?j ?k ?l db1] =>
      pose proof (patient_insert_id now id a b c' d f g h i j k l db1) as Hins;
      destruct (patientQueries.insert now (VStr id) a b c' d f g h i j k l db1)
        as [[[]|ex] db2]
  end; cbv zeta in Hins; cbn [snd] in Hins.
  - unfold bind in E.
    pose proof (getById_read_only [VStr (patient_id_of c)] db2) as Hro.
    destruct (patientQueries.getById _ db2) as [[p|ex] s]; cbn [snd] in *; subst s db';
      now apply Hstep.
  - cbn [snd] in E. subst db'. now apply Hstep.
Qed.

(** ** Routes that add no key *)

Lemma no_new_patient_refl (db : DB) : no_new_patient db db.
Proof. intros p Hp. eauto. Qed.

Lemma no_new_patient_trans (a b c : DB) :
  no_new_patient a b -> no_new_patient b c -> no_new_patient a c.
Proof.
  intros Hab Hbc p Hp. destruct (Hbc p Hp) as (q & Hq & Eq).
  destruct (Hab q Hq) as (r & Hr & Er). exists r. split; [exact Hr | congruence].
Qed.

Lemma no_new_patient_same (db db' : DB) : patients db' = patients db -> no_new_patient db db'.
Proof. intros E p Hp. rewrite E in Hp. eauto. Qed.

Lemma no_new_invoice_same (db db' : DB) : invoices db' = invoices db -> no_new_invoice db db'.
Proof. intros E i Hi. rewrite E in Hi. eauto. Qed.

Lemma patient_update_no_new `{Builtins} id name type breed colour age gender weight owner
    phone email address :
  relates no_new_patient
    (patientQueries.update id name type breed colour age gender weight owner phone
       email address).
Proof.
  intros db.
  destruct (patient_update_effect id name type breed colour age gender weight owner
              phone email address db) as [E|(g & Hg & E)]; cbv zeta in E; rewrite E;
    [apply no_new_patient_refl|].
  intros p' Hp. cbn [patients set_patients] in Hp.
  apply in_map_iff in Hp as (p & <- & Hp). exists p. split; [exact Hp|].
  symmetry. apply Hg.
Qed.

Lemma serve_no_new_patient `{Builtins} (r : request) (db : DB) :
  (forall e body, r <> POST_patients e body) ->
  no_new_patient db (snd (serve r db)).
Proof.
  intros Hr.
  pose proof (serve_keeps_others r db) as Hk.
  destruct r; cbn [serve family_of others_kept] in *;
    try (apply no_new_patient_same; tauto).
  - rewrite (get_serves_read_only (GET_patient id) db eq_refl).
    apply no_new_patient_refl.
  - now contradiction (Hr e body).
  - apply (put_patient_relates no_new_patient no_new_patient_refl no_new_patient_trans
             patient_update_no_new).
Qed.

Lemma serve_no_new_invoice `{Builtins} (r : request) (db : DB) :
  (forall e body, r <> POST_invoices e body) ->
  no_new_invoice db (snd (serve r db)).
Proof.
  intros Hr.
  pose proof (serve_keeps_others r db) as Hk.
  destruct r; cbn [serve family_of others_kept] in *;
    try (apply no_new_invoice_same; tauto).
  - rewrite (get_serves_read_only (GET_invoice ref) db eq_refl).
    intros i Hi. eauto.
  - now contradiction (Hr e body).
  - destruct (patch_invoice_cases ref body db) as [[_ E]|(inv & t & its & _ & _ & _ & E)];
      rewrite E; [intros i Hi; eauto|].
    cbn [snd invoices set_invoices]. intros i' Hi.
    apply in_map_iff in Hi as (i & <- & Hi). exists i. split; [exact Hi|].
    destruct (i_ref i =? ref); reflexivity.
  - rewrite delete_invoice_run. cbn [snd]. unfold invoice_delete_result. cbn [invoices].
    intros i Hi. apply filter_In in Hi as [Hi _]. eauto.
Qed.

Lemma serve_keeps_numbered `{Builtins} (r : request) (db : DB) :
  keeps numbered db (snd (serve r db)).
Proof.
  intros [(cp & Hcp & Pcp & Hp) (ci & Hci & Pci & Hi)].
  destruct (serve_advances r db) as [Hadv _].
  destruct (Hadv _ _ Hcp) as (cp' & Hcp' & Lp).
  destruct (Hadv _ _ Hci) as (ci' & Hci' & Li).
  split.
  - exists cp'. split; [exact Hcp' | split; [lia|]].
    intros p' Hin.
    assert (Hold : no_new_patient db (snd (serve r db)) ->
                   exists k, p_id p' = patient_id_of k /\ (0 <= k < cp')%Z).
    { intros Hno. destruct (Hno p' Hin) as (p & Hpin & <-).
      destruct (Hp p Hpin) as (k & Hk & Lk). exists k. split; [exact Hk | lia]. }
    destruct r; try (apply Hold; apply serve_no_new_patient; discriminate).
    cbn [serve] in *.
    destruct (post_patients_cases e body db) as [E|(c & p & Hc & Hid & E & Hc')];
      cbv zeta in *.
    + apply Hold. now apply no_new_patient_same.
    + rewrite E in Hin. apply in_app_or in Hin as [Hin|[<-|[]]].
      * destruct (Hp p' Hin) as (k & Hk & Lk). exists k. split; [exact Hk | lia].
      * exists c. split; [exact Hid|].
        assert (c = cp) by congruence. assert (cp' = (c + 1)%Z) by congruence. lia.
  - exists ci'. split; [exact Hci' | split; [lia|]].
    intros i' Hin.
    assert (Hold : no_new_invoice db (snd (serve r db)) ->
                   exists e k, i_ref i' = invoice_ref_of e k /\ (0 <= k < ci')%Z).
    { intros Hno. destruct (Hno i' Hin) as (i & Hiin & <-).
      destruct (Hi i Hiin) as (e & k & Hk & Lk). exists e, k. split; [exact Hk | lia]. }
    destruct r; try (apply Hold; apply serve_no_new_invoice; discriminate).
    cbn [serve] in *.
    destruct (post_invoices_with_cases _ e body db _ _ getById_read_only
                (surjective_pairing (post_invoices e body db)))
      as [[_ (_ & _ & E & _)]|Hcase].
    + apply Hold. now apply no_new_invoice_same.
    + destruct Hcase as (elems & lines & inv & rows & owner & n & its & _ & _ & _ &
                         Hn & _ & Hdb & _ & _ & Href & _).
      rewrite Hdb in Hin, Hci'.
      cbn [invoices counters set_items set_invoices set_counters] in Hin, Hci'.
      rewrite (counter_value_incr _ _ _ Hn) in Hci'.
      apply in_app_or in Hin as [Hin|[<-|[]]].
      * destruct (Hi i' Hin) as (e0 & k & Hk & Lk). exists e0, k. split; [exact Hk | lia].
      * exists e, n. split; [exact Href|].
        assert (n = ci) by congruence. assert (ci' = (n + 1)%Z) by congruence. lia.
Qed.

Lemma numbered_init : numbered init_db.
Proof.
  split.
  - exists 10000%Z. split; [reflexivity | split; [lia | intros p []]].
  - exists 1%Z. split; [reflexivity | split; [lia | intros i []]].
Qed.

(** On a numbered store the id and the ref a creation would draw are free. *)
Lemma numbered_fresh (db : DB) :
  numbered db ->
  exists cp ci,
    counter_value "patient" (counters db) = Some cp /\
    counter_value "invoice" (counters db) = Some ci /\
    existsb (fun p => p_id p =? patient_id_of cp) (patients db) = false /\
    forall e, existsb (fun i => i_ref i =? invoice_ref_of e ci) (invoices db) = false.
Proof.
  intros [(cp & Hcp & Pcp & Hp) (ci & Hci & Pci & Hi)].
  exists cp, ci. split; [exact Hcp | split; [exact Hci | split]].
  - apply existsb_false_iff. intros p Hin. apply String.eqb_neq.
    destruct (Hp p Hin) as (k & Hk & Lk). rewrite Hk. intros E.
    apply patient_id_of_inj in E; lia.
  - intros e. apply existsb_false_iff. intros i Hin. apply String.eqb_neq.
    destruct (Hi i Hin) as (e0 & k & Hk & Lk). rewrite Hk. intros E.
    apply invoice_ref_of_inj in E; lia.
Qed.

(** ** Balances *)

Lemma ltb_zero_asym (x : float) : ltb 0 x = true -> ltb x 0 = false.
Proof.
  rewrite !ltb_spec. change (Prim2SF 0) with (S754_zero false).
  destruct (Prim2SF x) as [s|s| |s m e]; cbn; try discriminate; destruct s;
    cbn; congruence.
Qed.

Lemma Math_max_zero_nonneg (x : float) : ltb (Math_max 0 x) 0 = false.
Proof.
  unfold Math_max. change (is_nan 0) with false. cbn [orb].
  destruct (is_nan x); [reflexivity|].
  destruct (ltb 0 x) eqn:E; [now apply ltb_zero_asym|].
  destruct (ltb x 0); reflexivity.
Qed.

(** ** Items that cannot be mapped *)

Lemma map_lines_null `{Builtins} (elems : list value) :
  In VNull elems -> exists ex, map_lines elems = Throw ex.
Proof.
  induction elems as [|x elems IH]; [intros []|].
  intros [->|Hin]; cbn [map_lines].
  - cbn. eauto.
  - destruct (line_of x) as [l|ex]; [|eauto].
    destruct (IH Hin) as [ex ->]. eauto.
Qed.





(** ** A valid check-in request *)


(** ** A valid invoice request *)







(** ** Stores reached from the first run *)

Lemma reachable_numbered `{Builtins} (rs : list request) : numbered (serve_all rs init_db).
Proof.
  apply (serve_all_relates (keeps numbered) (keeps_refl _) (keeps_trans _)
           serve_keeps_numbered rs init_db).
  exact numbered_init.
Qed.




(** ** Creations, numbering and the statements behind them *)







(** X12.  [createInvoice] is all or nothing.  When it throws, the store is
    as it was, also if the invoice row and some of its items had been
    written (the second item of the example has no name).  When it returns,
    it returns the invoice it stored under the given ref, the table of
    invoices has gained that row, the line items have gained one row per
    line, each with the ref and with consecutive ids from the item sequence
    on, the sequence has moved by the number of lines, and patients,
    check-ins and counters are as they were. *)
Theorem createInvoice_is_all_or_nothing `{Builtins} (now : string) (obj : invoice_obj)
    (lines : list line_item) (db : DB) :
  match createInvoice now obj lines db with
  | (Throw _, db') => db' = db
  | (Ret saved, db') =>
      exists inv rows,
        saved = Some inv /\ i_ref inv = o_ref obj /\
        invoices db' = invoices db ++ [inv] /\
        invoice_items db' = invoice_items db ++ rows /\
        map it_id rows =
          map (fun k => (items_seq db + 1 + Z.of_nat k)%Z) (seq 0 (List.length lines)) /\
        Forall (fun r => it_invoice_ref r = Some (o_ref obj)) rows /\
        items_seq db' = (items_seq db + Z.of_nat (List.length lines))%Z /\
        patients db' = patients db /\ checkins db' = checkins db /\
        counters db' = counters db
  end /\
  @createInvoice example_builtins "2024-11-03 10:00:00" draft_obj [named_line; unnamed_line]
    init_db =
    (Throw (SqliteError "NOT NULL constraint failed: invoice_items.name"), init_db).
Proof.
  split; [|reflexivity].
  destruct (createInvoice now obj lines db) as [[saved|ex] db'] eqn:E.
  - destruct (createInvoice_ids _ _ _ _ _ _ E) as (rows' & Hrows' & Hids).
    destruct (createInvoice_inv _ _ _ _ _ _ E)
      as (inv & rows & -> & -> & _ & Hrefs & Eref & _).
    cbn [invoice_items set_items] in Hrows'.
    apply List.app_inv_head in Hrows'. subst rows'.
    exists inv, rows. rewrite <- Eref. repeat split; assumption.
  - exact (createInvoice_throw _ _ _ _ _ _ E).
Qed.



(** X14.  Seeding the counters at start-up never resets one.  The two
    INSERT OR IGNORE statements leave every table and every counter that
    exists as it is, add 'invoice' at 1 and 'patient' at 10000 only where
    the key is missing, and running them again changes nothing; in
    particular a restart on a store the routes have worked on leaves it as
    it is.  [nextCounter] on a key that was never seeded throws a TypeError
    and changes nothing. *)
Theorem seeding_never_resets_a_counter `{Builtins} (db : DB) :
  tables_kept db (seed_counters db) /\
  (forall key v, counter_value key (counters db) = Some v ->
                 counter_value key (counters (seed_counters db)) = Some v) /\
  (counter_value "invoice" (counters db) = None ->
   counter_value "invoice" (counters (seed_counters db)) = Some 1%Z) /\
  (counter_value "patient" (counters db) = None ->
   counter_value "patient" (counters (seed_counters db)) = Some 10000%Z) /\
  seed_counters (seed_counters db) = seed_counters db /\
  (forall rs, seed_counters (serve_all rs init_db) = serve_all rs init_db) /\
  (forall key, counter_value key (counters db) = None ->
               nextCounter key db =
                 (Throw (TypeError "Cannot read properties of undefined (reading 'value')"),
                  db)).
Proof.
  assert (Hseeded : forall d vi vp,
            counter_value "invoice" (counters d) = Some vi ->
            counter_value "patient" (counters d) = Some vp -> seed_counters d = d).
  { intros d vi vp Hi Hp. unfold seed_counters.
    rewrite (initCounter_present "invoice" 1 vi d Hi).
    exact (initCounter_present "patient" 10000 vp d Hp). }
  assert (Hkept : forall key v, counter_value key (counters db) = Some v ->
                    counter_value key (counters (seed_counters db)) = Some v).
  { intros key v Hv. unfold seed_counters. rewrite !initCounter_value. now rewrite Hv. }
  assert (Hinv : exists vi, counter_value "invoice" (counters (seed_counters db)) = Some vi).
  { unfold seed_counters. rewrite !initCounter_value.
    destruct (counter_value "invoice" (counters db)); cbn; eauto. }
  assert (Hpat : exists vp, counter_value "patient" (counters (seed_counters db)) = Some vp).
  { unfold seed_counters. rewrite !initCounter_value.
    destruct (counter_value "patient" (counters db)); cbn; eauto. }
  assert (Htab : tables_kept db (seed_counters db)).
  { unfold seed_counters.
    destruct (initCounter_tables "invoice" 1 db) as (A1 & A2 & A3 & A4 & A5).
    destruct (initCounter_tables "patient" 10000 (initCounter "invoice" 1 db))
      as (B1 & B2 & B3 & B4 & B5).
    unfold tables_kept. repeat split; congruence. }
  split; [exact Htab|]. split; [exact Hkept|].
  split; [|split; [|split; [|split]]].
  - intros Hnone. unfold seed_counters. rewrite !initCounter_value. now rewrite Hnone.
  - intros Hnone. unfold seed_counters. rewrite !initCounter_value. now rewrite Hnone.
  - destruct Hinv as (vi & Hi). destruct Hpat as (vp & Hp). exact (Hseeded _ vi vp Hi Hp).
  - intros rs.
    destruct (reachable_numbered rs) as ((cp & Hcp & _) & (ci & Hci & _)).
    exact (Hseeded _ ci cp Hci Hcp).
  - intros key. apply nextCounter_unseeded.
Qed.



(** X16.  The id and the ref the next creation draws are free.  On every
    store reached from the first run each stored patient id and invoice ref
    was made from a number below its counter, so no stored patient has the
    id made from the patient counter and no stored invoice has the ref made
    from the invoice counter, on whatever date: the UNIQUE constraints of
    patients.id and invoices.ref never fire for a generated key. *)
Theorem generated_keys_are_free `{Builtins} (rs : list request) :
  numbered (serve_all rs init_db) /\
  exists cp ci,
    counter_value "patient" (counters (serve_all rs init_db)) = Some cp /\
    counter_value "invoice" (counters (serve_all rs init_db)) = Some ci /\
    existsb (fun p => p_id p =? patient_id_of cp) (patients (serve_all rs init_db)) = false /\
    forall e,
      existsb (fun i => i_ref i =? invoice_ref_of e ci) (invoices (serve_all rs init_db))
      = false.
Proof.
  split; [apply reachable_numbered|].
  exact (numbered_fresh _ (reachable_numbered rs)).
Qed.

(** X17.  A stored balance is never below zero, except for a Draft.  The
    invoice POST /api/invoices answers with (which is the row it stored) has
    a balance that is not less than zero, and so has the invoice PATCH
    /api/invoices/:ref/status answers with unless its status is 'Draft',
    where the balance is the total.  A payment above the total is stored as
    paid while the balance stays 0. *)
Theorem balance_is_never_negative `{Builtins} :
  (forall e body db inv its,
     fst (post_invoices e body db) = ok (PInvoice inv its) ->
     ltb (i_balance inv) 0 = false /\
     invoices (snd (post_invoices e body db)) = invoices db ++ [inv]) /\
  (forall ref body db inv its,
     fst (patch_invoice_status ref body db) = ok (PInvoice inv its) ->
     i_status inv <> Some "Draft" ->
     ltb (i_balance inv) 0 = false) /\
  (exists inv its,
     fst (@post_invoices example_builtins example_env overpaid_body init_db) =
       ok (PInvoice inv its) /\
     i_total inv = 240%float /\ i_paid_amount inv = 500%float /\ i_balance inv = 0%float).
Proof.
  split; [|split].
  - intros e body db inv its Hresp.
    destruct (post_invoices e body db) as [resp db'] eqn:Hrun. cbn [fst snd] in *. subst resp.
    unfold post_invoices in Hrun.
    destruct (post_invoices_with_cases _ e body db db' _ getById_read_only Hrun)
      as [[Hfail _] | Hok]; [discriminate Hfail|].
    destruct Hok as (elems & lines & inv' & rows & owner & n & its' & _ & _ & _ & _ & E & ->
                     & _ & _ & _ & _ & _ & _ & _ & _ & Hbal & _).
    injection E as <- <-. split.
    + rewrite Hbal. apply Math_max_zero_nonneg.
    + reflexivity.
  - intros ref body db inv its Hresp Hst.
    destruct (patch_invoice_cases ref body db) as [[Hfail _] | Hok].
    + rewrite Hresp in Hfail. discriminate Hfail.
    + destruct Hok as (inv0 & t & its' & _ & _ & Ht & Hrun).
      rewrite Hrun in Hresp. cbn [fst] in Hresp. injection Hresp as <- <-.
      unfold patched_invoice in *. cbv zeta in *.
      cbn [i_status i_balance invoice_set_status] in *.
      destruct (is_str (js_or (get_field body "status") (of_text (i_status inv0))) "Draft")
        eqn:Ed.
      * exfalso. apply Hst.
        destruct (js_or (get_field body "status") (of_text (i_status inv0)));
          try discriminate Ed.
        cbn in Ed. apply String.eqb_eq in Ed. subst s.
        cbn in Ht. now injection Ht as <-.
      * destruct (is_str _ "Paid"); cbn [to_real]; [reflexivity|].
        apply Math_max_zero_nonneg.
  - eexists. eexists. split; [reflexivity|]. repeat split.
Qed.



(** X19.  The DELETE statement of patients, when it runs on a stored id,
    removes that patient, removes the check-ins that name it (ON DELETE
    CASCADE), clears [patient_id] on the invoices that name it (ON DELETE
    SET NULL) and leaves the line items; primary keys stay unique and the
    foreign keys still hold afterwards, and GET on the id answers 404. *)
Theorem patient_delete_statement_cascades `{Builtins} (id : string) (db : DB) (p : patient) :
  find (fun q => p_id q =? id) (patients db) = Some p ->
  keys_unique db -> references_hold db ->
  exists db1,
    patientQueries.delete [VStr id] db = (Ret tt, db1) /\
    patients db1 = filter (fun q => negb (p_id q =? id)) (patients db) /\
    checkins db1 = filter (fun c => negb (cell_is (c_patient_id c) id)) (checkins db) /\
    invoices db1 =
      map (fun i => if cell_is (i_patient_id i) id then invoice_clear_patient i else i)
          (invoices db) /\
    invoice_items db1 = invoice_items db /\
    counters db1 = counters db /\
    keys_unique db1 /\ references_hold db1 /\
    get_patient id db1 = (err "Patient not found" 404, db1).
Proof.
  intros Hp Hkeys Hrefs.
  destruct (patient_delete_cascades id db p Hp) as (db1 & Hrun & Hpat & Hci & Hinv & Hit).
  pose proof (patient_delete_keys [VStr id] db) as Kk.
  pose proof (patient_delete_refs [VStr id] db) as Kr.
  rewrite Hrun in Kk, Kr. cbn [snd] in Kk, Kr.
  exists db1. repeat split; try assumption.
  - destruct (patient_delete_effect [VStr id] db) as [E|[x E]]; rewrite Hrun in E;
      cbn [snd] in E; rewrite E; reflexivity.
  - apply Kk, Hkeys.
  - apply Kk, Hkeys.
  - apply Kk, Hkeys.
  - apply Kk, Hkeys.
  - apply Kk, Hkeys.
  - apply Kk, Hkeys.
  - apply Kr, Hrefs.
  - apply Kr, Hrefs.
  - apply Kr, Hrefs.
  - apply get_patient_missing. rewrite Hpat.
    apply (find_filter_negb (fun q => p_id q =? id)).
Qed.

Lemma patient_delete_statement_cascades_example :
  exists db1,
    @patientQueries.delete example_builtins [VStr "PaCPC-10000"] linked_db = (Ret tt, db1) /\
    patients db1 = [] /\ checkins db1 = [] /\
    invoices db1 = [invoice_clear_patient rex_invoice].
Proof.
  destruct (@patient_delete_statement_cascades example_builtins "PaCPC-10000" linked_db rex)
    as (db1 & Hrun & Hp & Hc & Hi & _).
  - reflexivity.
  - unfold keys_unique. cbn.
    repeat split; repeat constructor; cbn; try tauto.
    intros [E|[]]. discriminate E.
  - repeat split; repeat constructor.
  - exists db1. repeat split; assumption.
Defined.
